(** * Settings validator (src/main/commandServer/settingsValidator.ts)

    A shallow embedding of the [SettingsValidator] class: the JavaScript
    values it inspects, the verifier and synonym tables it builds, the two
    recursive walks ([checkProposedSettings], [canonicalizeSettings]) and
    the leaf validators and canonicalizers, followed by the properties of
    the specification. *)

From Stdlib Require Import List String Ascii ZArith Bool Lia DecimalString.
From Stdlib Require Import Permutation Sorted OrderedTypeEx.
From Stdlib Require Import QArith Qpower Floats.
Import ListNotations.
Open Scope string_scope.
Open Scope Z_scope.

Set Implicit Arguments.
Set Warnings "-register-all".

(** ** Results of fallible code

    A JavaScript call either returns or throws.  [Ok] carries the returned
    value, [Throw] the message of the exception. *)

Inductive Res (A : Type) : Type :=
| Ok (a : A)
| Throw (err : string).
Arguments Ok {A} a.
Arguments Throw {A} err.

Definition bind {A B : Type} (r : Res A) (f : A -> Res B) : Res B :=
  match r with
  | Ok a => f a
  | Throw e => Throw e
  end.

Notation "x <- r ;; k" := (bind r (fun x => k))
  (at level 61, r at next level, right associativity).
Notation "' p <- r ;; k" := (bind r (fun p => k))
  (at level 61, p pattern, r at next level, right associativity).

(** ** JavaScript values

    A number is an IEEE 754 binary64 value: the primitive type [float],
    with its [nan], [infinity], [neg_infinity] and the two zeros. *)

Definition JsNum : Type := float.
Bind Scope float_scope with JsNum.

(** Data as [JSON.parse] or a caller can build it.  An object is the list
    of its own enumerable properties in enumeration order; its keys are
    pairwise distinct in any real object. *)

Inductive JsVal : Type :=
| JUndefined
| JNull
| JBool (b : bool)
| JNum (n : JsNum)
| JStr (s : string)
| JArr (elems : list JsVal)
| JObj (props : list (string * JsVal)).

(** The function-valued members of [Object.prototype]. *)

Inductive Builtin : Type :=
| B_constructor
| B_defineGetter
| B_defineSetter
| B_hasOwnProperty
| B_lookupGetter
| B_lookupSetter
| B_isPrototypeOf
| B_propertyIsEnumerable
| B_toString
| B_valueOf
| B_toLocaleString.

(** What a property read on the current settings can yield: data, or,
    when the key names an inherited member, a built-in function or
    [Object.prototype] itself. *)

Inductive Ref : Type :=
| Data (v : JsVal)
| ObjectPrototype
| Native (b : Builtin).

(** *** Comparisons on numbers ([<], [>], [===]) *)

Definition num_lt (a b : JsNum) : bool := (a <? b)%float.

Definition num_gt (a b : JsNum) : bool := (b <? a)%float.

Definition num_le (a b : JsNum) : bool := (a <=? b)%float.

Definition num_eq (a b : JsNum) : bool := (a =? b)%float.

(** *** [typeof] *)

Inductive JsType : Type :=
| TUndefined | TObject | TBoolean | TNumber | TString.

Definition JsType_eqb (a b : JsType) : bool :=
  match a, b with
  | TUndefined, TUndefined | TObject, TObject | TBoolean, TBoolean
  | TNumber, TNumber | TString, TString => true
  | _, _ => false
  end.

Definition typeof (v : JsVal) : JsType :=
  match v with
  | JUndefined => TUndefined
  | JNull => TObject
  | JBool _ => TBoolean
  | JNum _ => TNumber
  | JStr _ => TString
  | JArr _ => TObject
  | JObj _ => TObject
  end.

(** *** Strict equality ([===])

    Two objects are equal only when they are the same object; the current
    and the proposed settings never share one, so object operands compare
    unequal. *)

Definition strict_eq (a b : JsVal) : bool :=
  match a, b with
  | JUndefined, JUndefined => true
  | JNull, JNull => true
  | JBool x, JBool y => Bool.eqb x y
  | JNum x, JNum y => num_eq x y
  | JStr x, JStr y => String.eqb x y
  | _, _ => false
  end.

(** [currentValue !== desiredValue] *)
Definition strict_neq (cur : Ref) (des : JsVal) : bool :=
  match cur with
  | Data v => negb (strict_eq v des)
  | _ => true
  end.

(** [Array.prototype.includes] on an array of strings. *)
Definition includes (l : list string) (v : JsVal) : bool :=
  match v with
  | JStr s => existsb (String.eqb s) l
  | _ => false
  end.

(** ** Conversions to strings *)

(** The decimal digits of a natural number. *)
Definition decimal (z : Z) : string :=
  NilZero.string_of_uint (N.to_uint (Z.to_N z)).

Definition ndigits (z : Z) : Z := Z.of_nat (String.length (decimal z)).

(** [z] without its trailing zeros, [fuel] bounding their number. *)
Fixpoint strip_zeros (fuel : nat) (z : Z) : Z :=
  match fuel with
  | O => z
  | S fuel' =>
      if (0 <? z) && (z mod 10 =? 0) then strip_zeros fuel' (z / 10) else z
  end.

Fixpoint zeros (n : nat) : string :=
  match n with
  | O => EmptyString
  | S n' => String "0" (zeros n')
  end.

(** The shortest decimal that reads back as the double [m * 2^e], for [m]
    and [e] as [Prim2SF] gives them.  With [E = min (e - 2) 0] every
    number below is an integer counted in units of [10^E]: [X] is the
    double itself, [lower] and [upper] are the midpoints between it and
    its two neighbours (the gap below a power of two is half the gap
    above it), and a decimal reads back as the double when it lies
    between the midpoints, which themselves read back as the double when
    [m] is even.  [search d] tries the two decimals around [X] with [d]
    digits dropped, then with fewer dropped, and answers the first that
    reads back, the closer one if both do: a decimal with the least
    number of significant digits. *)
Section Shortest.

Variables (m : positive) (e : Z).

Let E := Z.min (e - 2) 0.
Let U := if e <? 2 then 5 ^ (2 - e) else 2 ^ (e - 2).
Let X := 4 * Z.pos m * U.
Let lower :=
  if (Z.pos m =? 2 ^ 52) && (-1074 <? e) then X - U else X - 2 * U.
Let upper := X + 2 * U.

Let reads_back (v : Z) : bool :=
  if Z.even (Z.pos m) then (lower <=? v) && (v <=? upper)
  else (lower <? v) && (v <? upper).

Fixpoint search (d : nat) : Z :=
  match d with
  | O => X
  | S d' =>
      let p := 10 ^ Z.of_nat d in
      let lo := X / p * p in
      let hi := lo + p in
      match reads_back lo, reads_back hi with
      | true, true => if X - lo <=? hi - X then lo else hi
      | true, false => lo
      | false, true => hi
      | false, false => search d'
      end
  end.

(** The decimal [V * 10^E]. *)
Definition shortest : Z * Z :=
  (search (Z.to_nat (ndigits X) - 1), E).

End Shortest.

(** The text of the decimal [V * 10^E], [V > 0], as [Number::toString]
    lays it out: with [digits] the [k] significant digits of [V] and
    [10^(n-1) <= V * 10^E < 10^n], an integer of at most 21 digits is
    written out, then a decimal point is placed inside the digits, or
    after up to six leading zeros, and otherwise the exponent form is
    used. *)
Definition format_decimal (V E : Z) : string :=
  let n := ndigits V + E in
  let digits := decimal (strip_zeros (Z.to_nat (ndigits V)) V) in
  let k := Z.of_nat (String.length digits) in
  if (k <=? n) && (n <=? 21) then digits ++ zeros (Z.to_nat (n - k))
  else if (0 <? n) && (n <=? 21) then
    substring 0 (Z.to_nat n) digits ++ "."
    ++ substring (Z.to_nat n) (Z.to_nat (k - n)) digits
  else if (-6 <? n) && (n <=? 0) then
    "0." ++ zeros (Z.to_nat (- n)) ++ digits
  else
    let exponent :=
      (if n - 1 <? 0 then "-" else "+") ++ decimal (Z.abs (n - 1)) in
    if k =? 1 then digits ++ "e" ++ exponent
    else substring 0 1 digits ++ "."
         ++ substring 1 (Z.to_nat (k - 1)) digits ++ "e" ++ exponent.

(** [Number.prototype.toString] in base ten. *)
Definition num_to_string (n : JsNum) : string :=
  match Prim2SF n with
  | S754_nan => "NaN"
  | S754_zero _ => "0"
  | S754_infinity s => if s then "-Infinity" else "Infinity"
  | S754_finite s m e =>
      let '(V, E) := shortest m e in
      (if s then "-" else "") ++ format_decimal V E
  end.

(** The double nearest to a natural number. *)
Definition num_of_nat (n : nat) : JsNum :=
  SF2Prim (binary_normalize prec emax (Z.of_nat n) 0 false).

Definition bool_to_string (b : bool) : string :=
  if b then "true" else "false".

Fixpoint has_key {A : Type} (k : string) (l : list (string * A)) : bool :=
  match l with
  | [] => false
  | (k', _) :: l' => String.eqb k k' || has_key k l'
  end.

Fixpoint lookup {A : Type} (k : string) (l : list (string * A)) : option A :=
  match l with
  | [] => None
  | (k', v) :: l' => if String.eqb k k' then Some v else lookup k l'
  end.

Definition TypeError_primitive : string :=
  "TypeError: Cannot convert object to primitive value".

(** [ToString] as a template literal, [String.prototype] methods and
    [RegExp.prototype.exec] apply it.  A plain object answers through the
    inherited [Object.prototype.toString]; an own property [toString]
    shadows it, and as data is never callable the conversion then throws.
    An array joins its elements with commas, [null] and [undefined]
    elements giving the empty string. *)
Fixpoint to_string (v : JsVal) : Res string :=
  match v with
  | JUndefined => Ok "undefined"
  | JNull => Ok "null"
  | JBool b => Ok (bool_to_string b)
  | JNum n => Ok (num_to_string n)
  | JStr s => Ok s
  | JArr l =>
      (fix join (l : list JsVal) : Res string :=
         match l with
         | [] => Ok ""
         | x :: l' =>
             s <- match x with
                  | JUndefined | JNull => Ok ""
                  | _ => to_string x
                  end ;;
             match l' with
             | [] => Ok s
             | _ => r <- join l' ;; Ok (s ++ "," ++ r)
             end
         end) l
  | JObj props =>
      if has_key "toString" props then Throw TypeError_primitive
      else Ok "[object Object]"
  end.

Definition builtin_name (b : Builtin) : string :=
  match b with
  | B_constructor => "Object"
  | B_defineGetter => "__defineGetter__"
  | B_defineSetter => "__defineSetter__"
  | B_hasOwnProperty => "hasOwnProperty"
  | B_lookupGetter => "__lookupGetter__"
  | B_lookupSetter => "__lookupSetter__"
  | B_isPrototypeOf => "isPrototypeOf"
  | B_propertyIsEnumerable => "propertyIsEnumerable"
  | B_toString => "toString"
  | B_valueOf => "valueOf"
  | B_toLocaleString => "toLocaleString"
  end.

Definition ref_to_string (r : Ref) : Res string :=
  match r with
  | Data v => to_string v
  | ObjectPrototype => Ok "[object Object]"
  | Native b => Ok ("function " ++ builtin_name b ++ "() { [native code] }")
  end.

(** ** [JSON.stringify] *)

Definition hex_digit (n : N) : ascii :=
  match n with
  | 0%N => "0" | 1%N => "1" | 2%N => "2" | 3%N => "3" | 4%N => "4"
  | 5%N => "5" | 6%N => "6" | 7%N => "7" | 8%N => "8" | 9%N => "9"
  | 10%N => "a" | 11%N => "b" | 12%N => "c" | 13%N => "d" | 14%N => "e"
  | _ => "f"
  end%char.

Definition dquote : ascii := ascii_of_N 34.

(** One character of a quoted JSON string. *)
Definition json_escape (c : ascii) : string :=
  let n := N_of_ascii c in
  if (n =? 34)%N then String "\" (String dquote EmptyString)
  else if (n =? 92)%N then "\\"
  else if (n =? 8)%N then "\b"
  else if (n =? 9)%N then "\t"
  else if (n =? 10)%N then "\n"
  else if (n =? 12)%N then "\f"
  else if (n =? 13)%N then "\r"
  else if (n <? 32)%N then
    "\u00" ++ String (hex_digit (n / 16)) (String (hex_digit (n mod 16)) "")
  else String c "".

Fixpoint json_escape_all (s : string) : string :=
  match s with
  | EmptyString => ""
  | String c s' => json_escape c ++ json_escape_all s'
  end.

Definition json_quote (s : string) : string :=
  String dquote (json_escape_all s) ++ String dquote EmptyString.

Definition json_num (n : JsNum) : string :=
  if is_finite n then num_to_string n else "null".

Fixpoint sep_by (sep : string) (l : list string) : string :=
  match l with
  | [] => ""
  | [s] => s
  | s :: l' => s ++ sep ++ sep_by sep l'
  end.

(** The serialization of a value, [None] standing for the [undefined]
    that [JSON.stringify] answers for a value it leaves out: an array
    writes [null] in its place, an object drops the property. *)
Fixpoint json_value (v : JsVal) : option string :=
  match v with
  | JUndefined => None
  | JNull => Some "null"
  | JBool b => Some (bool_to_string b)
  | JNum n => Some (json_num n)
  | JStr s => Some (json_quote s)
  | JArr l =>
      Some ("[" ++ sep_by ","
              ((fix elems (l : list JsVal) : list string :=
                  match l with
                  | [] => []
                  | x :: l' =>
                      match json_value x with
                      | Some s => s
                      | None => "null"
                      end :: elems l'
                  end) l) ++ "]")
  | JObj props =>
      Some ("{" ++ sep_by ","
              ((fix members (l : list (string * JsVal)) : list string :=
                  match l with
                  | [] => []
                  | (k, x) :: l' =>
                      match json_value x with
                      | Some s => (json_quote k ++ ":" ++ s) :: members l'
                      | None => members l'
                      end
                  end) props) ++ "}")
  end.

(** [JSON.stringify(v)] inside a template literal. *)
Definition JSON_stringify (v : JsVal) : string :=
  match json_value v with
  | Some s => s
  | None => "undefined"
  end.

(** ** [Object.entries] and [Array.prototype.sort] *)

Definition index_name (i : nat) : string :=
  NilZero.string_of_uint (Nat.to_uint i).

Fixpoint indexed (i : nat) (l : list JsVal) : list (string * JsVal) :=
  match l with
  | [] => []
  | x :: l' => (index_name i, x) :: indexed (S i) l'
  end.

Fixpoint chars (s : string) : list JsVal :=
  match s with
  | EmptyString => []
  | String c s' => JStr (String c EmptyString) :: chars s'
  end.

(** The own enumerable string-keyed properties of a value, in the order
    in which [for ... in] and [Object.entries] enumerate them. *)
Definition own_props (v : JsVal) : list (string * JsVal) :=
  match v with
  | JObj props => props
  | JArr l => indexed 0 l
  | JStr s => indexed 0 (chars s)
  | _ => []
  end.

Definition TypeError_entries : string :=
  "TypeError: Cannot convert undefined or null to object".

(** [Object.entries(value)]: [ToObject] throws on [undefined] and [null];
    the members of [Object.prototype] and of a function are not
    enumerable. *)
Definition Object_entries (r : Ref) : Res (list (string * JsVal)) :=
  match r with
  | Data JUndefined | Data JNull => Throw TypeError_entries
  | Data v => Ok (own_props v)
  | ObjectPrototype | Native _ => Ok []
  end.

(** An entry is the two-element array [[k, v]]. *)
Definition entry (kv : string * JsVal) : JsVal :=
  JArr [JStr (fst kv); snd kv].

(** Insertion of [x] (sort key [kx]) in a list sorted by keys, after the
    elements whose key is smaller and before all others. *)
Fixpoint insert_by_key {A : Type} (kx : string) (x : A)
    (l : list (string * A)) : list (string * A) :=
  match l with
  | [] => [(kx, x)]
  | (ky, y) :: l' =>
      if String.ltb ky kx then (ky, y) :: insert_by_key kx x l'
      else (kx, x) :: (ky, y) :: l'
  end.

Fixpoint sort_by_key {A : Type} (l : list (string * A)) : list (string * A) :=
  match l with
  | [] => []
  | (kx, x) :: l' => insert_by_key kx x (sort_by_key l')
  end.

Fixpoint sort_keys (l : list (string * JsVal))
    : Res (list (string * (string * JsVal))) :=
  match l with
  | [] => Ok []
  | kv :: l' =>
      s <- to_string (entry kv) ;;
      r <- sort_keys l' ;;
      Ok ((s, kv) :: r)
  end.

(** [entries.sort()] with no comparator: the elements are ordered by the
    code units of their [ToString] image, elements with equal images
    keeping their order (the sort is stable).  No element is converted
    when there is nothing to compare. *)
Definition Array_sort (l : list (string * JsVal))
    : Res (list (string * JsVal)) :=
  match l with
  | [] | [_] => Ok l
  | _ => ks <- sort_keys l ;; Ok (map snd (sort_by_key ks))
  end.

(** [stableSerializeWSLIntegrations] *)
Definition stableSerializeWSLIntegrations (value : Ref) : Res string :=
  es <- Object_entries value ;;
  sorted <- Array_sort es ;;
  Ok (JSON_stringify (JArr (map entry sorted))).

(** ** The validator instance and its environment *)

(** The field of the class that the validators read. *)
Record SettingsValidator : Type := {
  k8sVersions : list string
}.

(** The enumeration imported from [@/integrations/pathManager], whose
    declaration is not part of this file: its values (strings) and the
    one among them called [NotSet]. *)
Record PathManagementStrategy : Type := {
  strategy_values : list string;
  NotSet : string
}.

(** The outcome of a validator: whether the setting has changed, and the
    error array after the call. *)
Definition Checked : Type := (bool * list string)%type.

(** [errors.push(msg)] *)
Definition push (errors : list string) (msg : string) : list string :=
  errors ++ [msg].

(** ** Leaf validators *)

Section Validators.

Variable this : SettingsValidator.
Variable PMS : PathManagementStrategy.

Definition invalidSettingMessage (fqname : string) (desiredValue : JsVal)
    : Res string :=
  s <- to_string desiredValue ;;
  Ok ("Invalid value for " ++ fqname ++ ": <" ++ s ++ ">").

Definition checkBoolean (currentValue : Ref) (desiredValue : JsVal)
    (errors : list string) (fqname : string) : Res Checked :=
  if negb (JsType_eqb (typeof desiredValue) TBoolean) then
    msg <- invalidSettingMessage fqname desiredValue ;;
    Ok (false, push errors msg)
  else Ok (strict_neq currentValue desiredValue, errors).

Definition checkNumber (min max : JsNum) (currentValue : Ref)
    (desiredValue : JsVal) (errors : list string) (fqname : string)
    : Res Checked :=
  match desiredValue with
  | JNum n =>
      if num_lt n min || num_gt n max then
        msg <- invalidSettingMessage fqname desiredValue ;;
        Ok (false, push errors msg)
      else Ok (strict_neq currentValue desiredValue, errors)
  | _ =>
      msg <- invalidSettingMessage fqname desiredValue ;;
      Ok (false, push errors msg)
  end.

Definition checkString (currentValue : Ref) (desiredValue : JsVal)
    (errors : list string) (fqname : string) : Res Checked :=
  if negb (JsType_eqb (typeof desiredValue) TString) then
    msg <- invalidSettingMessage fqname desiredValue ;;
    Ok (false, push errors msg)
  else Ok (strict_neq currentValue desiredValue, errors).

Definition checkContainerEngine (currentValue : Ref) (desiredEngine : JsVal)
    (errors : list string) (fqname : string) : Res Checked :=
  if negb (includes ["containerd"; "moby"] desiredEngine) then
    s <- to_string desiredEngine ;;
    Ok (false,
        push errors ("Invalid value for " ++ fqname ++ ": <" ++ s
                     ++ ">; must be 'containerd', 'docker', or 'moby'"))
  else Ok (strict_neq currentValue desiredEngine, errors).

Definition checkKubernetesVersion (currentValue : Ref)
    (desiredVersion : JsVal) (errors : list string) (_ : string)
    : Res Checked :=
  if negb (includes (k8sVersions this) desiredVersion) then
    s <- to_string desiredVersion ;;
    Ok (false,
        push errors ("Kubernetes version " ++ String dquote s
                     ++ String dquote " not found."))
  else Ok (strict_neq currentValue desiredVersion, errors).

Definition notSupported (fqname : string) : string :=
  "Changing field " ++ fqname ++ " via the API isn't supported.".

Definition checkUnchanged (currentValue : Ref) (desiredValue : JsVal)
    (errors : list string) (fqname : string) : Res Checked :=
  if strict_neq currentValue desiredValue then
    Ok (false, push errors (notSupported fqname))
  else Ok (false, errors).

Definition checkWSLIntegrations (currentValue : Ref) (desiredValue : JsVal)
    (errors : list string) (fqname : string) : Res Checked :=
  if negb (JsType_eqb (typeof desiredValue) TObject) then
    s <- to_string desiredValue ;;
    Ok (false,
        push errors ("Proposed field " ++ fqname
                     ++ " should be an object, got <" ++ s ++ ">."))
  else
    (* try { ... } catch (err) { ... } *)
    match (a <- stableSerializeWSLIntegrations currentValue ;;
           b <- stableSerializeWSLIntegrations (Data desiredValue) ;;
           Ok (negb (String.eqb a b))) with
    | Ok true => Ok (false, push errors (notSupported fqname))
    | Ok false => Ok (false, errors)
    | Throw err =>
        Ok (false,
            push errors ("JSON-parsing error checking field " ++ fqname
                         ++ ": " ++ err))
    end.

Definition not_a_valid_strategy (fqname s : string) : string :=
  fqname ++ ": " ++ String dquote s ++ String dquote " is not a valid strategy".

Definition checkPathManagementStrategy (currentValue : Ref)
    (desiredValue : JsVal) (errors : list string) (fqname : string)
    : Res Checked :=
  if negb (includes (strategy_values PMS) desiredValue) then
    s <- to_string desiredValue ;;
    Ok (false, push errors (not_a_valid_strategy fqname s))
  else if strict_eq desiredValue (JStr (NotSet PMS)) then
    s <- to_string desiredValue ;;
    Ok (false, push errors (not_a_valid_strategy fqname s))
  else if strict_neq currentValue desiredValue then Ok (true, errors)
  else Ok (false, errors).

End Validators.

(** ** Tables of functions and the prototype chain

    [allowedSettings] and [synonymsTable] are object literals whose leaves
    are functions.  [Tree F] is such a literal with leaves in [F]. *)

Inductive Tree (F : Type) : Type :=
| Leaf (f : F)
| Node (fields : list (string * Tree F)).
Arguments Leaf {F} f.
Arguments Node {F} fields.

(** The objects a walk can hold as its table: a literal, then, as every
    literal inherits from it, [Object.prototype] (read through the
    accessor [__proto__]), whose own prototype is [null]. *)
Inductive Table (F : Type) : Type :=
| TObj (fields : list (string * Tree F))
| TProto
| TNull.
Arguments TObj {F} fields.
Arguments TProto {F}.
Arguments TNull {F}.

(** The value of [table[k]]. *)
Inductive Member (F : Type) : Type :=
| MFunc (f : F)
| MTable (t : Table F)
| MBuiltin (b : Builtin)
| MUndefined.
Arguments MFunc {F} f.
Arguments MTable {F} t.
Arguments MBuiltin {F} b.
Arguments MUndefined {F}.

Definition object_prototype_function (k : string) : option Builtin :=
  if String.eqb k "constructor" then Some B_constructor
  else if String.eqb k "__defineGetter__" then Some B_defineGetter
  else if String.eqb k "__defineSetter__" then Some B_defineSetter
  else if String.eqb k "hasOwnProperty" then Some B_hasOwnProperty
  else if String.eqb k "__lookupGetter__" then Some B_lookupGetter
  else if String.eqb k "__lookupSetter__" then Some B_lookupSetter
  else if String.eqb k "isPrototypeOf" then Some B_isPrototypeOf
  else if String.eqb k "propertyIsEnumerable" then Some B_propertyIsEnumerable
  else if String.eqb k "toString" then Some B_toString
  else if String.eqb k "valueOf" then Some B_valueOf
  else if String.eqb k "toLocaleString" then Some B_toLocaleString
  else None.

(** [k in Object.prototype] *)
Definition in_object_prototype (k : string) : bool :=
  match object_prototype_function k with
  | Some _ => true
  | None => String.eqb k "__proto__"
  end.

Definition TypeError_in (k : string) : string :=
  "TypeError: Cannot use 'in' operator to search for '" ++ k ++ "' in null".

(** A member inherited from [Object.prototype] by an object whose
    prototype is [proto]. *)
Definition inherited_member {F : Type} (proto : Table F) (k : string)
    : Member F :=
  match object_prototype_function k with
  | Some b => MBuiltin b
  | None => if String.eqb k "__proto__" then MTable proto else MUndefined
  end.

(** [table[k]] *)
Definition table_get {F : Type} (table : Table F) (k : string) : Member F :=
  match table with
  | TObj fields =>
      match lookup k fields with
      | Some (Leaf f) => MFunc f
      | Some (Node fields') => MTable (TObj fields')
      | None => inherited_member TProto k
      end
  | TProto => inherited_member TNull k
  | TNull => MUndefined
  end.

Definition TypeError_read (k : string) : string :=
  "TypeError: Cannot read properties of undefined (reading '" ++ k ++ "')".

Definition TypeError_read_null (k : string) : string :=
  "TypeError: Cannot read properties of null (reading '" ++ k ++ "')".

Definition inherited_value (proto : Ref) (k : string) : Ref :=
  match object_prototype_function k with
  | Some b => Native b
  | None => if String.eqb k "__proto__" then proto else Data JUndefined
  end.

(** [currentSettings[k]].  Reading a property of [undefined] or [null]
    throws.  Of the prototype chain only [Object.prototype] is modelled:
    an array, a string, a number, a boolean or a function is read as if
    it inherited from [Object.prototype] directly.  The walks cannot tell
    the difference: no key of a table names a member that only
    [Array.prototype], [String.prototype] and the like have, and the
    members that these override are functions as well. *)
Definition get (currentSettings : Ref) (k : string) : Res Ref :=
  match currentSettings with
  | Data JUndefined => Throw (TypeError_read k)
  | Data JNull => Throw (TypeError_read_null k)
  | Data (JArr l) =>
      match lookup k (indexed 0 l) with
      | Some v => Ok (Data v)
      | None =>
          if String.eqb k "length"
          then Ok (Data (JNum (num_of_nat (List.length l))))
          else Ok (inherited_value ObjectPrototype k)
      end
  | Data (JStr s) =>
      match lookup k (indexed 0 (chars s)) with
      | Some v => Ok (Data v)
      | None =>
          if String.eqb k "length"
          then Ok (Data (JNum (num_of_nat (String.length s))))
          else Ok (inherited_value ObjectPrototype k)
      end
  | Data v =>
      match lookup k (own_props v) with
      | Some x => Ok (Data x)
      | None => Ok (inherited_value ObjectPrototype k)
      end
  | ObjectPrototype => Ok (inherited_value (Data JNull) k)
  | Native _ => Ok (inherited_value ObjectPrototype k)
  end.

(** The own properties of an instance of the class. *)
Definition instance_fields : list string :=
  ["k8sVersions"; "allowedSettings"; "synonymsTable"].

Definition TypeError_accessor (b : Builtin) : string :=
  "TypeError: Object.prototype." ++ builtin_name b ++ ": Expecting function".

(** [builtin.call(this, a, b, ...)] for a function of [Object.prototype]
    found in a table, with the validator instance as [this]: whether the
    result is truthy, or the exception.  [__defineGetter__] and
    [__defineSetter__] throw because their second argument, a piece of
    data, is not callable; [__lookupGetter__] finds an accessor only for
    [__proto__]. *)
Definition call_builtin (b : Builtin) (a : Ref) (_ : JsVal) : Res bool :=
  match b with
  | B_constructor | B_toString | B_toLocaleString | B_valueOf => Ok true
  | B_hasOwnProperty | B_propertyIsEnumerable =>
      key <- ref_to_string a ;;
      Ok (existsb (String.eqb key) instance_fields)
  | B_isPrototypeOf => Ok false
  | B_defineGetter | B_defineSetter => Throw (TypeError_accessor b)
  | B_lookupGetter | B_lookupSetter =>
      key <- ref_to_string a ;;
      Ok (String.eqb key "__proto__")
  end.

(** ** The verifier *)

(** The validation functions stored in [allowedSettings]. *)
Inductive Validator : Type :=
| V_checkUnchanged
| V_checkKubernetesVersion
| V_checkNumber (min max : JsNum)
| V_checkContainerEngine
| V_checkBoolean
| V_checkWSLIntegrations
| V_checkString
| V_checkPathManagementStrategy.

Definition is_checkWSLIntegrations (f : Validator) : bool :=
  match f with
  | V_checkWSLIntegrations => true
  | _ => false
  end.

(** The object literal assigned to [this.allowedSettings]. *)
Definition allowedSettings : list (string * Tree Validator) :=
  [ ("version", Leaf V_checkUnchanged);
    ("kubernetes", Node
      [ ("version", Leaf V_checkKubernetesVersion);
        ("memoryInGB", Leaf (V_checkNumber 0 infinity));
        ("numberCPUs", Leaf (V_checkNumber 0 infinity));
        ("port", Leaf (V_checkNumber 1 65535));
        ("containerEngine", Leaf V_checkContainerEngine);
        ("checkForExistingKimBuilder", Leaf V_checkUnchanged);
        ("enabled", Leaf V_checkBoolean);
        ("WSLIntegrations", Leaf V_checkWSLIntegrations);
        ("options", Node [ ("traefik", Leaf V_checkBoolean);
                           ("flannel", Leaf V_checkBoolean) ]);
        ("suppressSudo", Leaf V_checkBoolean);
        ("experimentalHostResolver", Leaf V_checkBoolean) ]);
    ("portForwarding", Node
      [ ("includeKubernetesServices", Leaf V_checkBoolean) ]);
    ("images", Node
      [ ("showAll", Leaf V_checkBoolean);
        ("namespace", Leaf V_checkString) ]);
    ("telemetry", Leaf V_checkBoolean);
    ("updater", Leaf V_checkBoolean);
    ("debug", Leaf V_checkBoolean);
    ("pathManagementStrategy", Leaf V_checkPathManagementStrategy) ].

(** [prefix ? `${ prefix }.${ k }` : k] *)
Definition fqname_of (prefix k : string) : string :=
  match prefix with
  | EmptyString => k
  | _ => prefix ++ "." ++ k
  end.

(** A [for (const k in o)] loop whose body updates a state and may throw:
    [props] are the enumerated properties with their values. *)
Fixpoint for_in {S : Type} (body : string -> JsVal -> S -> Res S)
    (props : list (string * JsVal)) (st : S) : Res S :=
  match props with
  | [] => Ok st
  | (k, v) :: props' => st' <- body k v st ;; for_in body props' st'
  end.

Definition should_wrap (fqname s : string) : string :=
  "Setting " ++ fqname ++ " should wrap an inner object, but got <" ++ s ++ ">.".

Definition should_be_simple (fqname : string) (v : JsVal) : string :=
  "Setting " ++ fqname ++ " should be a simple value, but got <"
  ++ JSON_stringify v ++ ">.".

Definition is_object (v : JsVal) : bool := JsType_eqb (typeof v) TObject.

Section Walk.

Variable this : SettingsValidator.
Variable PMS : PathManagementStrategy.

(** [f.call(this, currentValue, desiredValue, errors, fqname)] *)
Definition call_validator (f : Validator) : Ref -> JsVal -> list string ->
    string -> Res Checked :=
  match f with
  | V_checkUnchanged => checkUnchanged
  | V_checkKubernetesVersion => checkKubernetesVersion this
  | V_checkNumber min max => checkNumber min max
  | V_checkContainerEngine => checkContainerEngine
  | V_checkBoolean => checkBoolean
  | V_checkWSLIntegrations => checkWSLIntegrations
  | V_checkString => checkString
  | V_checkPathManagementStrategy => checkPathManagementStrategy PMS
  end.

(** [changeNeeded = r || changeNeeded] *)
Definition or_changed (changeNeeded : bool) (r : Res Checked) : Res Checked :=
  '(c, errors) <- r ;; Ok (c || changeNeeded, errors).

(** The body of the loop of [checkProposedSettings] for a key [k] that is
    in [allowedSettings]; [member] is [allowedSettings[k]] and [recurse]
    the recursive call on a table. *)
Definition check_member
    (recurse : Ref -> JsVal -> list string -> string -> Res Checked)
    (member : Member Validator) (currentSettings : Ref)
    (prefix k : string) (v : JsVal) (st : Checked) : Res Checked :=
  let '(changeNeeded, errors) := st in
  let fqname := fqname_of prefix k in
  match member with
  | MTable _ =>
      if is_object v then
        cur <- get currentSettings k ;;
        or_changed changeNeeded (recurse cur v errors fqname)
      else
        s <- to_string v ;;
        Ok (changeNeeded, push errors (should_wrap fqname s))
  | MFunc f =>
      if is_object v then
        if is_checkWSLIntegrations f then
          cur <- get currentSettings k ;;
          or_changed changeNeeded (checkWSLIntegrations cur v errors fqname)
        else Ok (changeNeeded, push errors (should_be_simple fqname v))
      else
        cur <- get currentSettings k ;;
        or_changed changeNeeded (call_validator f cur v errors fqname)
  | MBuiltin b =>
      if is_object v then
        Ok (changeNeeded, push errors (should_be_simple fqname v))
      else
        cur <- get currentSettings k ;;
        c <- call_builtin b cur v ;;
        Ok (c || changeNeeded, errors)
  | MUndefined =>
      Throw "TypeError: Cannot read properties of undefined (reading 'call')"
  end.

(** [checkProposedSettings] when [allowedSettings] is [null]: the first
    key makes the [in] operator throw. *)
Definition check_in_null (newSettings : JsVal) (errors : list string)
    : Res Checked :=
  for_in (fun k _ _ => Throw (TypeError_in k)) (own_props newSettings)
         (false, errors).

(** [checkProposedSettings] when [allowedSettings] is [Object.prototype]. *)
Definition check_in_prototype (currentSettings : Ref) (newSettings : JsVal)
    (errors : list string) (prefix : string) : Res Checked :=
  for_in (fun k v st =>
            if negb (in_object_prototype k) then Ok st
            else check_member
                   (fun _ new errs _ => check_in_null new errs)
                   (table_get TProto k) currentSettings prefix k v st)
         (own_props newSettings) (false, errors).

(** [checkProposedSettings] when [allowedSettings] is the object literal
    [literal]: [members] pairs each key of the literal with the function
    stored there or with the recursive call on the literal stored there.
    (A function is never walked as a table: the case [Leaf] is not
    reached.) *)
Fixpoint check_in_literal (literal : Tree Validator)
    (currentSettings : Ref) (newSettings : JsVal) (errors : list string)
    (prefix : string) {struct literal} : Res Checked :=
  match literal with
  | Leaf _ => Ok (false, errors)
  | Node fields =>
      let members :=
        map (fun kt : string * Tree Validator =>
               let '(k, t) := kt in
               (k, match t with
                   | Leaf f => inl f
                   | Node fields' => inr (fields', check_in_literal t)
                   end)) fields in
      for_in
        (fun k v st =>
           if negb (has_key k fields || in_object_prototype k) then Ok st
           else
             match lookup k members with
             | Some (inl f) =>
                 check_member (fun _ _ errs _ => Ok (false, errs))
                   (MFunc f) currentSettings prefix k v st
             | Some (inr (fields', walk)) =>
                 check_member walk (MTable (TObj fields'))
                   currentSettings prefix k v st
             | None =>
                 check_member check_in_prototype
                   (inherited_member TProto k) currentSettings prefix k v st
             end)
        (own_props newSettings) (false, errors)
  end.

(** [checkProposedSettings] *)
Definition checkProposedSettings (allowedSettings : Table Validator)
    (currentSettings : Ref) (newSettings : JsVal) (errors : list string)
    (prefix : string) : Res Checked :=
  match allowedSettings with
  | TObj fields =>
      check_in_literal (Node fields) currentSettings newSettings errors prefix
  | TProto => check_in_prototype currentSettings newSettings errors prefix
  | TNull => check_in_null newSettings errors
  end.

End Walk.

(** ** Canonicalizers *)

Definition is_digit (c : ascii) : bool :=
  let n := N_of_ascii c in ((48 <=? n) && (n <=? 57))%N.

(** The longest prefix of digits of [s], and what follows it. *)
Fixpoint span_digits (s : string) : string * string :=
  match s with
  | String c s' =>
      if is_digit c then
        let '(d, r) := span_digits s' in (String c d, r)
      else (EmptyString, s)
  | EmptyString => (EmptyString, EmptyString)
  end.

(** [\d+] *)
Definition digits1 (s : string) : option (string * string) :=
  match span_digits s with
  | (EmptyString, _) => None
  | (d, r) => Some (d, r)
  end.

(** A literal prefix. *)
Fixpoint expect (p s : string) : option string :=
  match p, s with
  | EmptyString, _ => Some s
  | String a p', String b s' => if Ascii.eqb a b then expect p' s' else None
  | String _ _, EmptyString => None
  end.

(** [\d+\.\d+\.\d+]: the text matched and what follows it. *)
Definition three_numbers (s : string) : option (string * string) :=
  match digits1 s with
  | None => None
  | Some (a, s1) =>
  match expect "." s1 with
  | None => None
  | Some s2 =>
  match digits1 s2 with
  | None => None
  | Some (b, s3) =>
  match expect "." s3 with
  | None => None
  | Some s4 =>
  match digits1 s4 with
  | None => None
  | Some (c, s5) => Some (a ++ "." ++ b ++ "." ++ c, s5)
  end end end end end.

(** [(?:\+k3s\d+)?$]: whether the suffix is there. *)
Definition k3s_suffix (s : string) : option bool :=
  match s with
  | EmptyString => Some false
  | _ =>
      match expect "+k3s" s with
      | None => None
      | Some s1 =>
          match digits1 s1 with
          | Some (_, EmptyString) => Some true
          | _ => None
          end
      end
  end.

(** [/^(v?)(\d+\.\d+\.\d+)((?:\+k3s\d+)?)$/.exec(s)]: on a match, whether
    group 1 is not empty, group 2, and whether group 3 is not empty. *)
Definition ptn_exec (s : string) : option (bool * string * bool) :=
  let '(m1, s1) :=
    match s with
    | String "v" r => (true, r)
    | _ => (false, s)
    end in
  match three_numbers s1 with
  | None => None
  | Some (m2, s2) =>
      match k3s_suffix s2 with
      | None => None
      | Some m3 => Some (m1, m2, m3)
      end
  end.

(** A canonicalizer reads [newSettings[index]] and may assign to it: the
    functions below take the value read and answer the value assigned,
    if any. *)

Definition canonicalizeKubernetesVersion (desiredValue : JsVal)
    : Res (option JsVal) :=
  s <- to_string desiredValue ;;
  match ptn_exec s with
  | Some (m1, m2, m3) =>
      if m1 || m3 then Ok (Some (JStr m2)) else Ok None
  | None => Ok None
  end.

Definition canonicalizeContainerEngine (desiredValue : JsVal)
    : Res (option JsVal) :=
  if strict_eq desiredValue (JStr "docker") then Ok (Some (JStr "moby"))
  else Ok None.

Definition canonicalizeBool (desiredValue : JsVal) : Res (option JsVal) :=
  if strict_eq desiredValue (JStr "true") then Ok (Some (JBool true))
  else if strict_eq desiredValue (JStr "false") then Ok (Some (JBool false))
  else Ok None.

Inductive Canonicalizer : Type :=
| C_canonicalizeKubernetesVersion
| C_canonicalizeContainerEngine
| C_canonicalizeBool.

Definition call_canonicalizer (f : Canonicalizer) : JsVal -> Res (option JsVal) :=
  match f with
  | C_canonicalizeKubernetesVersion => canonicalizeKubernetesVersion
  | C_canonicalizeContainerEngine => canonicalizeContainerEngine
  | C_canonicalizeBool => canonicalizeBool
  end.

(** The object literal assigned to [this.synonymsTable]. *)
Definition synonymsTable : list (string * Tree Canonicalizer) :=
  [ ("kubernetes", Node
      [ ("version", Leaf C_canonicalizeKubernetesVersion);
        ("containerEngine", Leaf C_canonicalizeContainerEngine);
        ("enabled", Leaf C_canonicalizeBool);
        ("options", Node [ ("flannel", Leaf C_canonicalizeBool) ]) ]) ].

(** ** The canonicalizing walk

    [canonicalizeSettings] changes [newSettings] in place; here it answers
    the value of [newSettings] after the call. *)

(** A [for (const k in o)] loop whose body may replace the value at [k]. *)
Fixpoint map_props (body : string -> JsVal -> Res JsVal)
    (props : list (string * JsVal)) : Res (list (string * JsVal)) :=
  match props with
  | [] => Ok []
  | (k, v) :: props' =>
      v' <- body k v ;;
      rest <- map_props body props' ;;
      Ok ((k, v') :: rest)
  end.

(** The object [o] once its properties hold the values of [props]. *)
Definition with_props (o : JsVal) (props : list (string * JsVal)) : JsVal :=
  match o with
  | JObj _ => JObj props
  | JArr _ => JArr (map snd props)
  | _ => o
  end.

Definition TypeError_assign (k : string) : string :=
  "TypeError: Cannot assign to read only property '" ++ k ++ "' of string".

(** [newSettings[index] = v]: the body of a class is strict code, where
    an assignment to a property of a string throws. *)
Definition assign (newSettings : JsVal) (index : string) (v : JsVal)
    : Res JsVal :=
  match newSettings with
  | JStr _ => Throw (TypeError_assign index)
  | _ => Ok v
  end.

(** The body of the loop of [canonicalizeSettings] for a key [k] that is
    in [synonymsTable]: the value of [newSettings[k]] after it.  A
    built-in function found in the table receives [newSettings] itself,
    whose conversion to a string depends on its keys only. *)
Definition canonicalize_member
    (recurse : JsVal -> string -> Res JsVal)
    (member : Member Canonicalizer) (newSettings : JsVal)
    (prefix k : string) (v : JsVal) : Res JsVal :=
  let fqname := fqname_of prefix k in
  match member with
  | MTable _ => recurse v fqname
  | MFunc f =>
      r <- call_canonicalizer f v ;;
      match r with
      | Some v' => assign newSettings k v'
      | None => Ok v
      end
  | MBuiltin b =>
      _ <- call_builtin b (Data newSettings) (JStr k) ;;
      Ok v
  | MUndefined =>
      Throw "TypeError: Cannot read properties of undefined (reading 'call')"
  end.

(** [canonicalizeSettings] when [synonymsTable] is [null]. *)
Definition canonicalize_in_null (newSettings : JsVal) : Res JsVal :=
  props <- map_props (fun k _ => Throw (TypeError_in k))
                     (own_props newSettings) ;;
  Ok (with_props newSettings props).

(** [canonicalizeSettings] when [synonymsTable] is [Object.prototype]. *)
Definition canonicalize_in_prototype (newSettings : JsVal) (prefix : string)
    : Res JsVal :=
  props <- map_props
             (fun k v =>
                if in_object_prototype k then
                  canonicalize_member
                    (fun new _ => canonicalize_in_null new)
                    (table_get TProto k) newSettings prefix k v
                else Ok v)
             (own_props newSettings) ;;
  Ok (with_props newSettings props).

(** [canonicalizeSettings] when [synonymsTable] is the object literal
    [literal], with [members] as in [check_in_literal]. *)
Fixpoint canonicalize_in_literal (literal : Tree Canonicalizer)
    (newSettings : JsVal) (prefix : string) {struct literal} : Res JsVal :=
  match literal with
  | Leaf _ => Ok newSettings
  | Node fields =>
      let members :=
        map (fun kt : string * Tree Canonicalizer =>
               let '(k, t) := kt in
               (k, match t with
                   | Leaf f => inl f
                   | Node fields' => inr (fields', canonicalize_in_literal t)
                   end)) fields in
      props <- map_props
        (fun k v =>
           if has_key k fields || in_object_prototype k then
             match lookup k members with
             | Some (inl f) =>
                 canonicalize_member (fun new _ => Ok new)
                   (MFunc f) newSettings prefix k v
             | Some (inr (fields', walk)) =>
                 canonicalize_member walk (MTable (TObj fields'))
                   newSettings prefix k v
             | None =>
                 canonicalize_member canonicalize_in_prototype
                   (inherited_member TProto k) newSettings prefix k v
             end
           else Ok v)
        (own_props newSettings) ;;
      Ok (with_props newSettings props)
  end.

(** [canonicalizeSettings] *)
Definition canonicalizeSettings (synonymsTable : Table Canonicalizer)
    (newSettings : JsVal) (prefix : string) : Res JsVal :=
  match synonymsTable with
  | TObj fields => canonicalize_in_literal (Node fields) newSettings prefix
  | TProto => canonicalize_in_prototype newSettings prefix
  | TNull => canonicalize_in_null newSettings
  end.

(** [canonicalizeSynonyms] *)
Definition canonicalizeSynonyms (newSettings : JsVal) : Res JsVal :=
  canonicalizeSettings (TObj synonymsTable) newSettings EmptyString.

(** ** The entry point *)

(** [validateSettings]: the pair it returns.  The walk hands back the
    value of [changeNeeded], which is [false] or a truthy value; only its
    truth matters to [needToUpdate && errors.length === 0]. *)
Definition validateSettings (this : SettingsValidator)
    (PMS : PathManagementStrategy) (currentSettings newSettings : JsVal)
    : Res (bool * list string) :=
  newSettings' <- canonicalizeSynonyms newSettings ;;
  '(needToUpdate, errors) <-
     checkProposedSettings this PMS (TObj allowedSettings)
       (Data currentSettings) newSettings' [] EmptyString ;;
  Ok (needToUpdate && (Nat.eqb (List.length errors) 0), errors).

(** ** Sample data for the concrete runs below *)

Definition sample_validator : SettingsValidator :=
  {| k8sVersions := ["1.2.3"; "1.2.4"] |}.

Definition sample_strategies : PathManagementStrategy :=
  {| strategy_values := ["notset"; "manual"; "rcfiles"]; NotSet := "notset" |}.

Definition sample_settings : JsVal :=
  JObj
    [ ("version", JNum 4);
      ("kubernetes", JObj
        [ ("version", JStr "1.2.3");
          ("memoryInGB", JNum 2);
          ("numberCPUs", JNum 2);
          ("port", JNum 6443);
          ("containerEngine", JStr "moby");
          ("checkForExistingKimBuilder", JBool false);
          ("enabled", JBool true);
          ("WSLIntegrations", JObj []);
          ("options", JObj [ ("traefik", JBool true);
                             ("flannel", JBool true) ]);
          ("suppressSudo", JBool false);
          ("experimentalHostResolver", JBool false) ]);
      ("portForwarding", JObj [ ("includeKubernetesServices", JBool false) ]);
      ("images", JObj [ ("showAll", JBool true);
                        ("namespace", JStr "k8s.io") ]);
      ("telemetry", JBool true);
      ("updater", JBool true);
      ("debug", JBool false);
      ("pathManagementStrategy", JStr "rcfiles") ].

(** ** Notions used in the statements and proofs *)

Fixpoint all_digits (s : string) : bool :=
  match s with
  | EmptyString => true
  | String c s' => is_digit c && all_digits s'
  end.

(** [s] is empty or begins with a character that is no digit. *)
Definition no_digit_ahead (s : string) : Prop :=
  match s with
  | EmptyString => True
  | String c _ => is_digit c = false
  end.

(** Two values that [for ... in] enumerates with the same keys and that
    are of the same kind. *)
Definition same_keys (v v' : JsVal) : Prop :=
  match v, v' with
  | JObj p, JObj p' => map fst p = map fst p'
  | JArr l, JArr l' => List.length l = List.length l'
  | _, _ => v = v'
  end.

(** The order of [Array_sort] on elements paired with their sort keys. *)
Definition key_lt {A : Type} (a b : string * A) : Prop :=
  String.ltb (fst a) (fst b) = true.

(** Data none of whose objects, at any depth, has a key that names a
    member of [Object.prototype]. *)
Fixpoint plain (v : JsVal) : bool :=
  match v with
  | JArr l => forallb plain l
  | JObj props =>
      forallb (fun kx : string * JsVal =>
                 let '(k, x) := kx in
                 negb (in_object_prototype k) && plain x) props
  | _ => true
  end.

Definition starts_with_digit (k : string) : bool :=
  match k with
  | String c _ => is_digit c
  | EmptyString => false
  end.

(** A table none of whose keys begins with a digit. *)
Fixpoint digit_free {F : Type} (t : Tree F) : bool :=
  match t with
  | Leaf _ => true
  | Node fields =>
      forallb (fun kt : string * Tree F =>
                 let '(k, t') := kt in
                 negb (starts_with_digit k) && digit_free t') fields
  end.

(** Current settings that hold an object wherever the table [t] holds
    an object literal. *)
Fixpoint conforms {F : Type} (t : Tree F) (cur : JsVal) : bool :=
  match t with
  | Leaf _ => true
  | Node fields =>
      match cur with
      | JObj props =>
          forallb (fun kt : string * Tree F =>
                     let '(k, t') := kt in
                     match t' with
                     | Leaf _ => true
                     | Node _ =>
                         match lookup k props with
                         | Some c => conforms t' c
                         | None => false
                         end
                     end) fields
      | _ => false
      end
  end.

(** The value of a double that has one: [m * 2^e], negated when the sign
    is set; the two zeros have the value 0. *)
Definition SF_value (x : spec_float) : option Q :=
  match x with
  | S754_zero _ => Some 0%Q
  | S754_finite s m e => Some (inject_Z (cond_Zopp s (Z.pos m)) * 2 ^ e)%Q
  | _ => None
  end.

(** The rational value of a number; [NaN] and the infinities have none. *)
Definition num_value (n : JsNum) : option Q := SF_value (Prim2SF n).

(** The value of a double counted in units of [2^-1074], the least
    positive double. *)
Definition scaled (x : spec_float) : Z :=
  match x with
  | S754_finite s m e => cond_Zopp s (Z.pos m) * 2 ^ (e + 1074)
  | _ => 0
  end.

Definition finite_or_zero (x : spec_float) : bool :=
  match x with
  | S754_zero _ | S754_finite _ _ _ => true
  | _ => false
  end.

(** The value is the number [NaN]. *)
Definition is_NaN (v : JsVal) : bool :=
  match v with
  | JNum n => is_nan n
  | _ => false
  end.

(** [desired] is numeric and [min <= desired <= max]. *)
Definition within_range (min max : JsNum) (v : JsVal) : bool :=
  match v with
  | JNum n => num_le min n && num_le n max
  | _ => false
  end.

(** A text of one or more digits. *)
Definition number_text (d : string) : Prop :=
  d <> EmptyString /\ all_digits d = true.

(** A text of the form MAJOR.MINOR.PATCH. *)
Definition bare_version (m : string) : Prop :=
  exists a b c,
    number_text a /\ number_text b /\ number_text c
    /\ m = a ++ "." ++ b ++ "." ++ c.

(** The value at an index once a canonicalizer has answered [r]. *)
Definition assigned (r : option JsVal) (x : JsVal) : JsVal :=
  match r with
  | Some y => y
  | None => x
  end.

(** The four positions of the proposed tree that have synonyms. *)
Definition synonym_positions : list (list string) :=
  [ ["kubernetes"; "version"];
    ["kubernetes"; "containerEngine"];
    ["kubernetes"; "enabled"];
    ["kubernetes"; "options"; "flannel"] ].

(** The positions of the leaves of a table. *)
Fixpoint leaf_paths {F : Type} (t : Tree F) : list (list string) :=
  match t with
  | Leaf _ => [[]]
  | Node fields =>
      List.concat (map (fun kt : string * Tree F =>
                     let '(k, t') := kt in map (cons k) (leaf_paths t'))
                  fields)
  end.

(** The tree [v] with its value at [path], if it has one, hidden: the
    path is followed through the own properties of objects, and
    [undefined] is written where it ends. *)
Fixpoint mask_at (path : list string) (v : JsVal) : JsVal :=
  match path with
  | [] => JUndefined
  | k :: path' =>
      match v with
      | JObj props =>
          JObj (map (fun kx : string * JsVal =>
                       let '(k', x) := kx in
                       if String.eqb k' k then (k', mask_at path' x)
                       else (k', x)) props)
      | _ => v
      end
  end.

(** The tree with the values at the four synonym positions hidden; two
    trees with the same image have the same keys everywhere outside
    these positions and the same values at all other positions. *)
Definition mask_synonyms (v : JsVal) : JsVal :=
  fold_right mask_at v synonym_positions.

(** The tree [v] with [undefined] written at every position where the
    table [t] holds a function. *)
Fixpoint mask_tree {F : Type} (t : Tree F) (v : JsVal) : JsVal :=
  match t with
  | Leaf _ => JUndefined
  | Node fields =>
      let masks :=
        map (fun kt : string * Tree F =>
               let '(k, t') := kt in (k, mask_tree t')) fields in
      with_props v
        (map (fun kx : string * JsVal =>
                let '(k, x) := kx in
                (k, match lookup k masks with
                    | Some mask => mask x
                    | None => x
                    end)) (own_props v))
  end.

(** ** Updates that change nothing *)

(** A version text that [canonicalizeKubernetesVersion] rewrites: a bare
    version with a leading [v], a trailing [+k3s] and number, or both. *)
Definition is_synonym (s : string) : bool :=
  match ptn_exec s with
  | Some (m1, _, m3) => m1 || m3
  | None => false
  end.

(** Two wildcard maps with the same keys and the same values, strings or
    booleans, in the same order. *)
Fixpoint same_map (m m' : list (string * JsVal)) : bool :=
  match m, m' with
  | [], [] => true
  | (k, x) :: r, (k', x') :: r' =>
      String.eqb k k'
      && match x, x' with
         | JBool b, JBool b' => Bool.eqb b b'
         | JStr s, JStr s' => String.eqb s s'
         | _, _ => false
         end
      && same_map r r'
  | _, _ => false
  end.

Section NoOp.

Variable this : SettingsValidator.
Variable PMS : PathManagementStrategy.

(** The proposed value [new] is of the kind that the validator [f] lets
    through, and it is the current value [cur]: a value that is no object
    for [checkUnchanged], a version of [k8sVersions] in canonical form, a
    number within the bounds, one of the two engines, a boolean, a string,
    a strategy other than [NotSet], a map with the entries of the current
    one. *)
Definition unchanged_leaf (f : Validator) (cur new : JsVal) : bool :=
  match f with
  | V_checkUnchanged => negb (is_object new) && strict_eq cur new
  | V_checkKubernetesVersion =>
      match new with
      | JStr s => includes (k8sVersions this) new && negb (is_synonym s)
      | _ => false
      end && strict_eq cur new
  | V_checkNumber min max => within_range min max new && strict_eq cur new
  | V_checkContainerEngine =>
      includes ["containerd"; "moby"] new && strict_eq cur new
  | V_checkBoolean => JsType_eqb (typeof new) TBoolean && strict_eq cur new
  | V_checkWSLIntegrations =>
      match cur, new with
      | JObj m, JObj m' => same_map m m' && plain new
      | _, _ => false
      end
  | V_checkString => JsType_eqb (typeof new) TString && strict_eq cur new
  | V_checkPathManagementStrategy =>
      includes (strategy_values PMS) new
      && negb (strict_eq new (JStr (NotSet PMS)))
      && strict_eq cur new
  end.

(** A type-valid update that changes nothing: the proposed tree [new]
    holds, under keys of the verifier [t], values that the validators let
    through and that the current tree [cur] holds already; its other
    keys, which name no member of [Object.prototype], hold anything. *)
Fixpoint valid_noop (t : Tree Validator) (cur new : JsVal) {struct t}
    : bool :=
  match t with
  | Leaf f => unchanged_leaf f cur new
  | Node fields =>
      let members :=
        map (fun kt : string * Tree Validator =>
               let '(k, t') := kt in (k, valid_noop t')) fields in
      match cur, new with
      | JObj cprops, JObj props =>
          forallb (fun kx : string * JsVal =>
                     let '(k, x) := kx in
                     negb (in_object_prototype k)
                     && match lookup k members with
                        | Some unchanged =>
                            match lookup k cprops with
                            | Some c => unchanged c x
                            | None => false
                            end
                        | None => true
                        end) props
      | _, _ => false
      end
  end.

End NoOp.

(** The canonicalizer [c] and the validator [f] serve the same setting. *)
Definition compatible (c : Canonicalizer) (f : Validator) : bool :=
  match c, f with
  | C_canonicalizeKubernetesVersion, V_checkKubernetesVersion => true
  | C_canonicalizeContainerEngine, V_checkContainerEngine => true
  | C_canonicalizeBool, V_checkBoolean => true
  | _, _ => false
  end.

(** Every position of the table of synonyms is a position of the
    verifier, for the same setting. *)
Fixpoint agrees (syn : Tree Canonicalizer) (ver : Tree Validator) : bool :=
  match syn, ver with
  | Leaf c, Leaf f => compatible c f
  | Node sfields, Node vfields =>
      forallb (fun kt : string * Tree Canonicalizer =>
                 let '(k, syn') := kt in
                 match lookup k vfields with
                 | Some ver' => agrees syn' ver'
                 | None => false
                 end) sfields
  | _, _ => false
  end.

(* END DEFS *)

(** * Properties *)

(** ** Leaf validators *)

Lemma push_neq (errors : list string) (msg : string) :
  push errors msg <> errors.
Proof.
  unfold push. intro H. apply (f_equal (@List.length string)) in H.
  rewrite length_app in H. simpl in H. lia.
Qed.

Lemma SFcompare_antisym (x y : spec_float) :
  SFcompare y x = match SFcompare x y with
                  | Some c => Some (CompOpp c)
                  | None => None
                  end.
Proof.
  destruct x as [sx|sx| |sx mx ex], y as [sy|sy| |sy my ey];
    try reflexivity; try (destruct sx; reflexivity); try (destruct sy; reflexivity);
    try (destruct sx, sy; reflexivity).
  cbn [SFcompare]. rewrite (Z.compare_antisym ey ex).
  change (Pos.compare_cont Eq mx my) with (Pos.compare mx my).
  change (Pos.compare_cont Eq my mx) with (Pos.compare my mx).
  rewrite (Pos.compare_antisym my mx).
  destruct sx, sy; try reflexivity;
    destruct (ey ?= ex); cbn [CompOpp]; try reflexivity;
    destruct (my ?= mx)%positive; reflexivity.
Qed.

Lemma is_nan_false (a : JsNum) :
  is_nan a = false -> Prim2SF a <> S754_nan.
Proof.
  unfold is_nan. rewrite eqb_spec. intros H E. rewrite E in H.
  discriminate H.
Qed.

Lemma is_nan_true (a : JsNum) :
  is_nan a = true -> Prim2SF a = S754_nan.
Proof.
  unfold is_nan. rewrite eqb_spec. unfold SFeqb. intros H.
  destruct (Prim2SF a) as [s|s| |s m e]; try reflexivity; exfalso.
  - discriminate H.
  - destruct s; discriminate H.
  - cbn [SFcompare] in H. rewrite Z.compare_refl in H.
    change (Pos.compare_cont Eq m m) with (Pos.compare m m) in H.
    rewrite Pos.compare_refl in H. destruct s; discriminate H.
Qed.

(** No comparison with [NaN] holds. *)
Lemma num_lt_nan (a b : JsNum) :
  is_nan a = true \/ is_nan b = true -> num_lt a b = false.
Proof.
  unfold num_lt. rewrite ltb_spec. unfold SFltb.
  intros [H|H]; apply is_nan_true in H; rewrite H.
  - reflexivity.
  - destruct (Prim2SF a); reflexivity.
Qed.

Lemma num_le_nan (a b : JsNum) :
  is_nan a = true \/ is_nan b = true -> num_le a b = false.
Proof.
  unfold num_le. rewrite leb_spec. unfold SFleb.
  intros [H|H]; apply is_nan_true in H; rewrite H.
  - reflexivity.
  - destruct (Prim2SF a); reflexivity.
Qed.

Lemma num_eq_nan (a b : JsNum) :
  is_nan a = true \/ is_nan b = true -> num_eq a b = false.
Proof.
  unfold num_eq. rewrite eqb_spec. unfold SFeqb.
  intros [H|H]; apply is_nan_true in H; rewrite H.
  - reflexivity.
  - destruct (Prim2SF a); reflexivity.
Qed.

(** Of two numbers, the first is below the second exactly when the
    second is not below or equal to the first. *)
Lemma num_lt_not_le (a b : JsNum) :
  is_nan a = false -> is_nan b = false ->
  num_lt a b = negb (num_le b a).
Proof.
  intros Ha Hb. apply is_nan_false in Ha. apply is_nan_false in Hb.
  unfold num_lt, num_le. rewrite ltb_spec, leb_spec.
  unfold SFltb, SFleb. rewrite (SFcompare_antisym (Prim2SF a) (Prim2SF b)).
  destruct (SFcompare (Prim2SF a) (Prim2SF b)) as [[| |]|] eqn:E;
    try reflexivity.
  exfalso. destruct (Prim2SF a), (Prim2SF b); try discriminate E;
    congruence.
Qed.

Lemma strict_neq_NaN (cur : Ref) (n : JsNum) :
  is_nan n = true -> strict_neq cur (JNum n) = true.
Proof.
  intros H. destruct cur as [[]| |]; try reflexivity.
  cbn [strict_neq strict_eq]. rewrite num_eq_nan; auto.
Qed.

(** Whatever the bounds, [NaN] passes [checkNumber] and counts as a
    change: both comparisons with it are false. *)
Lemma checkNumber_NaN_any_bounds (min max : JsNum) (cur : Ref)
    (errors : list string) (fqname : string) :
  checkNumber min max cur (JNum nan) errors fqname = Ok (true, errors).
Proof.
  unfold checkNumber. change (num_gt nan max) with (num_lt max nan).
  rewrite (num_lt_nan nan min), (num_lt_nan max nan) by auto.
  cbn [orb]. rewrite strict_neq_NaN; reflexivity.
Qed.

(** C2 (the claim as stated, at [NaN]): [NaN] is a number and lies in no
    interval, yet [checkNumber(1, 65535)] appends no error for it and
    answers [true]; [validateSettings] then reports that the port needs
    an update. *)
Theorem checkNumber_NaN :
  typeof (JNum nan) = TNumber
  /\ within_range 1 65535 (JNum nan) = false
  /\ checkNumber 1 65535 (Data (JNum 6443)) (JNum nan) []
       "kubernetes.port" = Ok (true, [])
  /\ validateSettings sample_validator sample_strategies sample_settings
       (JObj [("kubernetes", JObj [("port", JNum nan)])]) = Ok (true, []).
Proof. repeat split; reflexivity. Qed.

(** C2: for bounds that are numbers, every desired value other than [NaN]
    that has a text is treated as the table of validators says.  A number
    with [min <= desired <= max] passes with no error, and the answer is
    [currentValue !== desiredValue]; every other value, a number out of
    the range or a value that is no number, gets the one error
    [Invalid value for fqname: <text>] and the answer [false]. *)
Theorem checkNumber_range (min max : JsNum) (cur : Ref) (des : JsVal)
    (errors : list string) (fqname s : string) :
  is_nan min = false -> is_nan max = false ->
  is_NaN des = false -> to_string des = Ok s ->
  checkNumber min max cur des errors fqname
  = if within_range min max des
    then Ok (strict_neq cur des, errors)
    else Ok (false,
             push errors ("Invalid value for " ++ fqname ++ ": <" ++ s ++ ">")).
Proof.
  intros Hmin Hmax Hd Hs. unfold checkNumber, invalidSettingMessage.
  rewrite Hs. cbn [bind].
  destruct des as [| |b|n|t|l|props]; try reflexivity.
  cbn [is_NaN] in Hd. cbn [within_range].
  change (num_gt n max) with (num_lt max n).
  rewrite (num_lt_not_le n min Hd Hmin), (num_lt_not_le max n Hmax Hd).
  rewrite <- negb_andb.
  destruct (num_le min n && num_le n max); reflexivity.
Qed.

Lemma checkNumber_range_sample :
  checkNumber 1 65535 (Data (JNum 6443)) (JNum 65535.5) []
    "kubernetes.port"
  = Ok (false, ["Invalid value for kubernetes.port: <65535.5>"])
  /\ checkNumber 0 infinity (Data (JNum 2)) (JNum 2.5) []
       "kubernetes.memoryInGB"
     = Ok (true, []).
Proof.
  split.
  - apply (@checkNumber_range 1 65535 (Data (JNum 6443)) (JNum 65535.5) []
             "kubernetes.port" "65535.5"); reflexivity.
  - apply (@checkNumber_range 0 infinity (Data (JNum 2)) (JNum 2.5) []
             "kubernetes.memoryInGB" "2.5"); reflexivity.
Defined.

(** C8: [checkContainerEngine] with current [moby] and desired [docker]
    appends the error naming the three engines and answers [false]; and
    for every desired value the call returns without a new error exactly
    when the value is ['containerd'] or ['moby']. *)
Theorem checkContainerEngine_accepts_exactly :
  (forall errors fqname,
     checkContainerEngine (Data (JStr "moby")) (JStr "docker") errors fqname
     = Ok (false,
           push errors ("Invalid value for " ++ fqname
                        ++ ": <docker>; must be 'containerd', 'docker', or 'moby'")))
  /\
  (forall cur des errors fqname,
     (exists changed,
        checkContainerEngine cur des errors fqname = Ok (changed, errors))
     <-> (des = JStr "containerd" \/ des = JStr "moby")).
Proof.
  split; [reflexivity|].
  intros cur des errors fqname. split.
  - intros [changed H]. unfold checkContainerEngine in H.
    destruct (includes ["containerd"; "moby"] des) eqn:E.
    + destruct des; simpl in E; try discriminate.
      rewrite !orb_true_iff in E.
      destruct E as [E|[E|E]]; try discriminate;
        apply String.eqb_eq in E; subst; auto.
    + simpl in H. destruct (to_string des); simpl in H; try discriminate.
      inversion H. exfalso. eapply push_neq; eauto.
  - intros [-> | ->]; eexists; reflexivity.
Qed.

(** [checkWSLIntegrations] returns on every pair of values, and answers
    [false]: what the serialization throws is caught. *)
Lemma checkWSLIntegrations_returns (cur : Ref) (des : JsVal)
    (errors : list string) (fqname : string) :
  exists errors',
    checkWSLIntegrations cur des errors fqname = Ok (false, errors').
Proof.
  unfold checkWSLIntegrations.
  destruct (negb (JsType_eqb (typeof des) TObject)) eqn:E.
  - destruct des; simpl in E; try discriminate; simpl; eauto.
  - destruct (a <- stableSerializeWSLIntegrations cur ;;
              b <- stableSerializeWSLIntegrations (Data des) ;;
              Ok (negb (String.eqb a b))) as [[|]|]; eauto.
Qed.

(** C5: [checkUnchanged] answers [false] for every pair of values, with
    the error appended exactly when the two differ; and
    [checkWSLIntegrations] answers [false] for every pair of values, also
    in the runs where the two serializations differ and the error is
    appended. *)
Theorem immutable_checks_never_report_change :
  (forall cur des errors fqname,
     checkUnchanged cur des errors fqname
     = Ok (false, if strict_neq cur des
                  then push errors (notSupported fqname) else errors))
  /\
  (forall cur des errors fqname,
     exists errors',
       checkWSLIntegrations cur des errors fqname = Ok (false, errors'))
  /\
  (forall cur des errors fqname a b,
     is_object des = true ->
     stableSerializeWSLIntegrations cur = Ok a ->
     stableSerializeWSLIntegrations (Data des) = Ok b ->
     a <> b ->
     checkWSLIntegrations cur des errors fqname
     = Ok (false, push errors (notSupported fqname))).
Proof.
  split; [|split].
  - intros. unfold checkUnchanged. destruct (strict_neq cur des); reflexivity.
  - intros. apply checkWSLIntegrations_returns.
  - intros cur des errors fqname a b Ho Ha Hb Hab.
    unfold checkWSLIntegrations. unfold is_object in Ho. rewrite Ho. simpl.
    rewrite Ha, Hb. simpl.
    apply String.eqb_neq in Hab. rewrite Hab. reflexivity.
Qed.

(** ** The entry point *)

(** C9: with an empty proposed object, whatever the current settings,
    [validateSettings] returns [false] and no error. *)
Theorem validateSettings_empty (this : SettingsValidator)
    (PMS : PathManagementStrategy) (currentSettings : JsVal) :
  validateSettings this PMS currentSettings (JObj []) = Ok (false, []).
Proof. reflexivity. Qed.

Lemma length_eqb_0 {A : Type} (l : list A) :
  Nat.eqb (List.length l) 0 = true <-> l = [].
Proof. destruct l; simpl; split; intros H; congruence. Qed.

(** ** Keys found along the prototype chain *)

(** C3 (the code at the failing input): a proposed key that names
    [__defineGetter__], which every object literal inherits, is in
    [allowedSettings] for the [in] operator; the walk calls the inherited
    function, which throws.  [validateSettings] throws likewise, already
    in [canonicalizeSynonyms], whatever the current settings. *)
Theorem walk_throws_on_defineGetter :
  (forall this PMS props,
     checkProposedSettings this PMS (TObj allowedSettings)
       (Data (JObj props)) (JObj [("__defineGetter__", JNum 1)])
       [] EmptyString
     = Throw (TypeError_accessor B_defineGetter))
  /\
  (forall this PMS currentSettings,
     validateSettings this PMS currentSettings
       (JObj [("__defineGetter__", JNum 1)])
     = Throw (TypeError_accessor B_defineGetter)).
Proof.
  split; [|reflexivity].
  intros this PMS props. cbn.
  destruct (lookup "__defineGetter__" props); reflexivity.
Qed.

(** C4 (the code at the failing input): [toString] is no key of the
    verifier, yet the proposal that holds only this key is reported as a
    change to apply, while the empty proposal is not. *)
Theorem unknown_key_toString_reports_change :
  has_key "toString" allowedSettings = false
  /\
  (forall this PMS props,
     validateSettings this PMS (JObj props)
       (JObj [("toString", JNum 1)]) = Ok (true, [])
     /\ validateSettings this PMS (JObj props) (JObj []) = Ok (false, [])).
Proof.
  split; [reflexivity|].
  intros this PMS props. split; [|reflexivity].
  cbn. destruct (lookup "toString" props); reflexivity.
Qed.

(** ** The wildcard map *)

(** C6 (the code at the failing input): the two maps hold the same two
    entries in opposite orders.  The entries [["a", "b,c"]] and
    [["a,b", "c"]] have the same image [a,b,c] under [ToString], so the
    sort leaves each list in its own order, the serializations differ and
    the change is reported as unsupported. *)
Theorem checkWSLIntegrations_order_dependent :
  let m1 := [("a", JStr "b,c"); ("a,b", JStr "c")] in
  let m2 := [("a,b", JStr "c"); ("a", JStr "b,c")] in
  Permutation m1 m2
  /\ to_string (entry ("a", JStr "b,c")) = to_string (entry ("a,b", JStr "c"))
  /\ checkWSLIntegrations (Data (JObj m1)) (JObj m2) []
       "kubernetes.WSLIntegrations"
     = Ok (false, [notSupported "kubernetes.WSLIntegrations"]).
Proof.
  cbv zeta. split; [apply perm_swap|]. split; reflexivity.
Qed.

(** *** Where the order of insertion does not matter

    When the [ToString] images of the entries are pairwise distinct, the
    sort puts the entries of two maps with the same entries in the same
    order. *)

Lemma ltb_lt (a b : string) : String.ltb a b = true <-> String_as_OT.lt a b.
Proof.
  rewrite <- String_as_OT.cmp_lt. unfold String.ltb, String_as_OT.cmp.
  destruct (String.compare a b); split; congruence.
Qed.

Lemma ltb_irrefl (a : string) : String.ltb a a = false.
Proof.
  unfold String.ltb.
  pose proof (proj2 (String_as_OT.cmp_eq a a) eq_refl) as E.
  unfold String_as_OT.cmp in E. rewrite E. reflexivity.
Qed.

Lemma ltb_trans (a b c : string) :
  String.ltb a b = true -> String.ltb b c = true -> String.ltb a c = true.
Proof. rewrite !ltb_lt. apply String_as_OT.lt_trans. Qed.

Lemma ltb_total (a b : string) :
  a <> b -> String.ltb a b = false -> String.ltb b a = true.
Proof.
  unfold String.ltb. intros Hne H. rewrite String.compare_antisym.
  destruct (String.compare a b) eqn:E; simpl; try reflexivity.
  - apply String.compare_eq_iff in E. contradiction.
  - discriminate.
Qed.

Lemma insert_by_key_perm {A : Type} (kx : string) (x : A)
    (l : list (string * A)) :
  Permutation ((kx, x) :: l) (insert_by_key kx x l).
Proof.
  induction l as [|[ky y] l IH]; simpl; [reflexivity|].
  destruct (String.ltb ky kx); [|reflexivity].
  rewrite perm_swap. apply perm_skip. exact IH.
Qed.

Lemma sort_by_key_perm {A : Type} (l : list (string * A)) :
  Permutation l (sort_by_key l).
Proof.
  induction l as [|[kx x] l IH]; simpl; [reflexivity|].
  rewrite <- insert_by_key_perm. apply perm_skip. exact IH.
Qed.

Lemma insert_by_key_sorted {A : Type} (kx : string) (x : A)
    (l : list (string * A)) :
  StronglySorted key_lt l -> ~ In kx (map fst l) ->
  StronglySorted key_lt (insert_by_key kx x l).
Proof.
  induction l as [|[ky y] l IH]; simpl; intros Hs Hn.
  - constructor; constructor.
  - inversion Hs as [|? ? Hs' Hall]; subst.
    destruct (String.ltb ky kx) eqn:E.
    + constructor; [apply IH; tauto|].
      eapply Permutation_Forall; [apply insert_by_key_perm|].
      constructor; [exact E|exact Hall].
    + assert (Hlt : String.ltb kx ky = true)
        by (apply ltb_total; [intros ->; tauto|exact E]).
      constructor; [exact Hs|]. constructor; [exact Hlt|].
      eapply Forall_impl; [|exact Hall]. intros [kz z] Hz.
      unfold key_lt in *. simpl in *. eapply ltb_trans; eauto.
Qed.

Lemma sort_by_key_sorted {A : Type} (l : list (string * A)) :
  NoDup (map fst l) -> StronglySorted key_lt (sort_by_key l).
Proof.
  induction l as [|[kx x] l IH]; simpl; intros Hn; [constructor|].
  inversion Hn; subst. apply insert_by_key_sorted; [auto|].
  intros Hin. apply H1.
  eapply Permutation_in; [|exact Hin].
  apply Permutation_map. symmetry. apply sort_by_key_perm.
Qed.

(** Two lists in strictly increasing order of keys that hold the same
    elements are equal. *)
Lemma sorted_perm_eq {A : Type} (l1 l2 : list (string * A)) :
  StronglySorted key_lt l1 -> StronglySorted key_lt l2 ->
  Permutation l1 l2 -> l1 = l2.
Proof.
  revert l2. induction l1 as [|a l1 IH]; intros l2 H1 H2 Hp.
  - apply Permutation_nil in Hp. congruence.
  - destruct l2 as [|b l2];
      [apply Permutation_sym, Permutation_nil in Hp; discriminate|].
    inversion H1 as [|? ? H1' Ha]; subst.
    inversion H2 as [|? ? H2' Hb]; subst.
    assert (Hab : a = b).
    { assert (Hin1 : In a (b :: l2))
        by (eapply Permutation_in; [exact Hp|left; reflexivity]).
      assert (Hin2 : In b (a :: l1))
        by (eapply Permutation_in;
            [symmetry; exact Hp|left; reflexivity]).
      destruct Hin1 as [Hin1|Hin1]; [congruence|].
      destruct Hin2 as [Hin2|Hin2]; [congruence|].
      rewrite Forall_forall in Ha, Hb.
      pose proof (Ha _ Hin2) as L1. pose proof (Hb _ Hin1) as L2.
      unfold key_lt in L1, L2.
      pose proof (ltb_trans _ _ _ L1 L2) as L. rewrite ltb_irrefl in L.
      discriminate. }
    subst b. f_equal. apply IH; auto.
    eapply Permutation_cons_inv. exact Hp.
Qed.

Lemma sort_keys_spec (m : list (string * JsVal))
    (ks : list (string * (string * JsVal))) :
  sort_keys m = Ok ks ->
  map snd ks = m
  /\ Forall (fun p => to_string (entry (snd p)) = Ok (fst p)) ks.
Proof.
  revert ks. induction m as [|kv m IH]; intros ks H.
  - inversion H. split; constructor.
  - cbn [sort_keys] in H.
    destruct (to_string (entry kv)) as [s|] eqn:E; [|discriminate].
    cbn [bind] in H. destruct (sort_keys m) as [r|]; [|discriminate].
    cbn [bind] in H. inversion H; subst.
    destruct (IH _ eq_refl) as [Hm Hf]. split.
    + simpl. congruence.
    + constructor; [exact E|exact Hf].
Qed.

Lemma sort_keys_complete (ks : list (string * (string * JsVal))) :
  Forall (fun p => to_string (entry (snd p)) = Ok (fst p)) ks ->
  sort_keys (map snd ks) = Ok ks.
Proof.
  induction 1 as [|[s kv] ks E _ IH]; [reflexivity|].
  cbn [map snd fst sort_keys] in *. rewrite E. cbn [bind].
  rewrite IH. reflexivity.
Qed.

(** On two lists with the same entries whose sort keys are pairwise
    distinct, the sort gives the same list. *)
Lemma Array_sort_perm (m1 m2 : list (string * JsVal))
    (ks : list (string * (string * JsVal))) :
  Permutation m1 m2 -> sort_keys m1 = Ok ks -> NoDup (map fst ks) ->
  exists sorted, Array_sort m1 = Ok sorted /\ Array_sort m2 = Ok sorted.
Proof.
  intros Hp Hk Hn.
  destruct (sort_keys_spec _ Hk) as [Hm Hf]. subst m1.
  apply Permutation_sym in Hp.
  destruct (Permutation_map_inv _ _ Hp) as (ks2 & -> & Hp2).
  assert (Hk2 : sort_keys (map snd ks2) = Ok ks2).
  { apply sort_keys_complete. eapply Permutation_Forall; eauto. }
  assert (Hs : sort_by_key ks = sort_by_key ks2).
  { apply sorted_perm_eq.
    - apply sort_by_key_sorted. exact Hn.
    - apply sort_by_key_sorted.
      eapply Permutation_NoDup; [|exact Hn].
      apply Permutation_map. exact Hp2.
    - rewrite <- !sort_by_key_perm. exact Hp2. }
  destruct ks as [|a [|b ks]].
  - apply Permutation_nil in Hp2. subst. eexists. split; reflexivity.
  - apply Permutation_length_1_inv in Hp2. subst. eexists. split; reflexivity.
  - destruct ks2 as [|a2 [|b2 ks2]];
      try (apply Permutation_length in Hp2; discriminate).
    exists (map snd (sort_by_key (a :: b :: ks))).
    unfold Array_sort. cbn [map]. cbn [map] in Hk, Hk2.
    rewrite Hk, Hk2. cbn [bind]. rewrite Hs. split; reflexivity.
Qed.

(** X15: two maps with the same entries in any order, whose entries have
    pairwise distinct [ToString] images, pass [checkWSLIntegrations]: no
    error is appended. *)
Lemma checkWSLIntegrations_same_entries (m1 m2 : list (string * JsVal))
    (ks : list (string * (string * JsVal))) (errors : list string)
    (fqname : string) :
  Permutation m1 m2 -> sort_keys m1 = Ok ks -> NoDup (map fst ks) ->
  checkWSLIntegrations (Data (JObj m1)) (JObj m2) errors fqname
  = Ok (false, errors).
Proof.
  intros Hp Hk Hn.
  destruct (Array_sort_perm Hp Hk Hn) as (sorted & H1 & H2).
  unfold checkWSLIntegrations, stableSerializeWSLIntegrations.
  cbn [typeof JsType_eqb negb Object_entries own_props bind].
  rewrite H1, H2. cbn [bind]. rewrite String.eqb_refl. reflexivity.
Qed.

(** ** Leaf canonicalizers *)

Lemma span_digits_spec (s d r : string) :
  span_digits s = (d, r) ->
  all_digits d = true /\ s = d ++ r /\ no_digit_ahead r.
Proof.
  revert d r. induction s as [|c s IH]; simpl; intros d r H.
  - inversion H; subst. simpl. auto.
  - destruct (is_digit c) eqn:Ec.
    + destruct (span_digits s) as [d0 r0]. inversion H; subst.
      destruct (IH d0 r eq_refl) as (Hd & Hs & Hr).
      simpl. rewrite Ec, Hd, <- Hs. auto.
    + inversion H; subst. simpl. auto.
Qed.

Lemma span_digits_app (d r : string) :
  all_digits d = true -> no_digit_ahead r -> span_digits (d ++ r) = (d, r).
Proof.
  induction d as [|c d IH]; simpl; intros Hd Hr.
  - destruct r as [|c r]; simpl in *; [reflexivity|]. rewrite Hr. reflexivity.
  - apply andb_true_iff in Hd. destruct Hd as [Hc Hd].
    rewrite Hc, (IH Hd Hr). reflexivity.
Qed.

Lemma digits1_spec (s d r : string) :
  digits1 s = Some (d, r) ->
  d <> EmptyString /\ all_digits d = true /\ s = d ++ r /\ no_digit_ahead r.
Proof.
  unfold digits1. destruct (span_digits s) as [d0 r0] eqn:E. intros H.
  destruct d0; [discriminate|]. inversion H; subst.
  split; [discriminate|]. apply span_digits_spec. exact E.
Qed.

Lemma digits1_app (d r : string) :
  d <> EmptyString -> all_digits d = true -> no_digit_ahead r ->
  digits1 (d ++ r) = Some (d, r).
Proof.
  intros Hne Hd Hr. unfold digits1. rewrite (span_digits_app _ _ Hd Hr).
  destruct d; [congruence|reflexivity].
Qed.

Lemma string_app_empty (s : string) : s ++ EmptyString = s.
Proof. induction s; simpl; congruence. Qed.

(** What the pattern captures as group 2 matches the pattern by itself,
    with groups 1 and 3 empty. *)
Lemma three_numbers_fixed (s m2 r : string) :
  three_numbers s = Some (m2, r) ->
  three_numbers m2 = Some (m2, EmptyString)
  /\ exists c m, m2 = String c m /\ is_digit c = true.
Proof.
  unfold three_numbers. intros H.
  destruct (digits1 s) as [[a s1]|] eqn:E1; [|discriminate].
  destruct (expect "." s1) as [s2|] eqn:E2; [|discriminate].
  destruct (digits1 s2) as [[b s3]|] eqn:E3; [|discriminate].
  destruct (expect "." s3) as [s4|] eqn:E4; [|discriminate].
  destruct (digits1 s4) as [[c s5]|] eqn:E5; [|discriminate].
  inversion H; subst. clear H.
  apply digits1_spec in E1. destruct E1 as (Na & Da & _ & _).
  apply digits1_spec in E3. destruct E3 as (Nb & Db & _ & _).
  apply digits1_spec in E5. destruct E5 as (Nc & Dc & _ & _).
  split.
  - assert (Ha : forall t, no_digit_ahead t -> digits1 (a ++ t) = Some (a, t))
      by (intros; apply digits1_app; auto).
    assert (Hb : forall t, no_digit_ahead t -> digits1 (b ++ t) = Some (b, t))
      by (intros; apply digits1_app; auto).
    assert (Hc : digits1 c = Some (c, EmptyString)).
    { rewrite <- (string_app_empty c) at 1. apply digits1_app; simpl; auto. }
    rewrite Ha by reflexivity. cbn [expect append Ascii.eqb Bool.eqb].
    rewrite Hb by reflexivity. cbn [expect append Ascii.eqb Bool.eqb].
    rewrite Hc. reflexivity.
  - destruct a as [|x a]; [congruence|]. simpl in Da.
    apply andb_true_iff in Da. destruct Da as [Dx _].
    simpl. eexists _, _. split; [reflexivity|exact Dx].
Qed.

Lemma ptn_exec_fixed (s m2 : string) (m1 m3 : bool) :
  ptn_exec s = Some (m1, m2, m3) -> ptn_exec m2 = Some (false, m2, false).
Proof.
  unfold ptn_exec. intros H.
  assert (Ht : exists s1 r, three_numbers s1 = Some (m2, r)).
  { destruct s as [|c s].
    - simpl in H. discriminate.
    - destruct (Ascii.eqb c "v") eqn:Ev.
      + apply Ascii.eqb_eq in Ev. subst c.
        destruct (three_numbers s) as [[m r]|] eqn:E; [|discriminate].
        destruct (k3s_suffix r); [|discriminate]. inversion H; subst. eauto.
      + assert (Hs : (let '(m1, s1) :=
                        match String c s with
                        | String "v" r => (true, r)
                        | _ => (false, String c s)
                        end in
                      match three_numbers s1 with
                      | None => None
                      | Some (m2, s2) =>
                          match k3s_suffix s2 with
                          | None => None
                          | Some m3 => Some (m1, m2, m3)
                          end
                      end)
                     = match three_numbers (String c s) with
                       | None => None
                       | Some (m2, s2) =>
                           match k3s_suffix s2 with
                           | None => None
                           | Some m3 => Some (false, m2, m3)
                           end
                       end).
        { destruct c as [[] [] [] [] [] [] [] []]; try reflexivity.
          discriminate Ev. }
        rewrite Hs in H.
        destruct (three_numbers (String c s)) as [[m r]|] eqn:E; [|discriminate].
        destruct (k3s_suffix r); [|discriminate]. inversion H; subst. eauto. }
  destruct Ht as (s1 & r & Ht).
  destruct (three_numbers_fixed _ Ht) as (Hfix & c & m & -> & Hc).
  assert (Hs : match String c m with
               | String "v" r0 => (true, r0)
               | _ => (false, String c m)
               end = (false, String c m)).
  { destruct c as [[] [] [] [] [] [] [] []]; try reflexivity. discriminate Hc. }
  rewrite Hs, Hfix. reflexivity.
Qed.

(** A value that a canonicalizer assigns is one that it leaves alone. *)
Lemma canonicalizer_fixed (f : Canonicalizer) (x y : JsVal) :
  call_canonicalizer f x = Ok (Some y) -> call_canonicalizer f y = Ok None.
Proof.
  destruct f; simpl.
  - unfold canonicalizeKubernetesVersion. intros H.
    destruct (to_string x) as [s|]; [|discriminate]. cbn [bind] in H.
    destruct (ptn_exec s) as [[[m1 m2] m3]|] eqn:E; [|discriminate].
    destruct (m1 || m3); [|discriminate]. inversion H; subst.
    cbn [to_string bind]. rewrite (ptn_exec_fixed _ E). reflexivity.
  - unfold canonicalizeContainerEngine. intros H.
    destruct (strict_eq x (JStr "docker")); inversion H. reflexivity.
  - unfold canonicalizeBool. intros H.
    destruct (strict_eq x (JStr "true"));
      [|destruct (strict_eq x (JStr "false"))]; inversion H; reflexivity.
Qed.

(** ** Keys *)

Lemma has_key_map_fst {A : Type} (k : string) (l : list (string * A)) :
  has_key k l = existsb (String.eqb k) (map fst l).
Proof. induction l as [|[k' x] l IH]; simpl; congruence. Qed.

Lemma index_name_digit (i : nat) :
  exists c s, index_name i = String c s /\ is_digit c = true.
Proof.
  unfold index_name, NilZero.string_of_uint.
  destruct (Nat.to_uint i); simpl; eauto.
Qed.

Lemma digit_not_in_object_prototype (c : ascii) (s : string) :
  is_digit c = true -> in_object_prototype (String c s) = false.
Proof.
  intros H.
  destruct c as [[] [] [] [] [] [] [] []]; try discriminate H; reflexivity.
Qed.

Lemma indexed_keys_not_in_object_prototype (l : list JsVal) (i : nat)
    (k : string) :
  In k (map fst (indexed i l)) -> in_object_prototype k = false.
Proof.
  revert i. induction l as [|x l IH]; simpl; intros i H; [contradiction|].
  destruct H as [<-|H]; [|eauto].
  destruct (index_name_digit i) as (c & s & -> & Hc).
  apply digit_not_in_object_prototype. exact Hc.
Qed.

Lemma map_snd_indexed (l : list JsVal) (i : nat) :
  map snd (indexed i l) = l.
Proof. revert i. induction l; simpl; intros; congruence. Qed.

Lemma indexed_map_snd (l : list JsVal) (props : list (string * JsVal))
    (i : nat) :
  map fst props = map fst (indexed i l) -> indexed i (map snd props) = props.
Proof.
  revert l i. induction props as [|[k x] props IH]; simpl; intros l i H.
  - reflexivity.
  - destruct l as [|y l]; simpl in H; [discriminate|].
    inversion H; subst. f_equal. eapply IH. eassumption.
Qed.

Lemma with_props_own (v : JsVal) : with_props v (own_props v) = v.
Proof. destruct v; simpl; try reflexivity. rewrite map_snd_indexed. reflexivity. Qed.

(** ** Loops over the properties *)

Lemma map_props_keys (b : string -> JsVal -> Res JsVal)
    (props props' : list (string * JsVal)) :
  map_props b props = Ok props' -> map fst props' = map fst props.
Proof.
  revert props'. induction props as [|[k x] props IH]; simpl; intros props' H.
  - inversion H. reflexivity.
  - destruct (b k x); [|discriminate]. cbn [bind] in H.
    destruct (map_props b props); [|discriminate]. cbn [bind] in H.
    inversion H; subst. simpl. f_equal. apply IH. reflexivity.
Qed.

(** A loop whose body leaves every value as it is changes nothing. *)
Lemma map_props_unchanged (b : string -> JsVal -> Res JsVal)
    (props props' : list (string * JsVal)) :
  (forall k x x', b k x = Ok x' -> x' = x) ->
  map_props b props = Ok props' -> props' = props.
Proof.
  intros Hb. revert props'.
  induction props as [|[k x] props IH]; simpl; intros props' H.
  - inversion H. reflexivity.
  - destruct (b k x) eqn:E; [|discriminate]. cbn [bind] in H.
    destruct (map_props b props); [|discriminate]. cbn [bind] in H.
    inversion H; subst. rewrite (Hb _ _ _ E), (IH _ eq_refl). reflexivity.
Qed.

(** If a second body accepts unchanged whatever the first body produces,
    the second loop over the result of the first changes nothing. *)
Lemma map_props_idem (b0 b1 : string -> JsVal -> Res JsVal)
    (props props' : list (string * JsVal)) :
  (forall k x x', In k (map fst props) -> b0 k x = Ok x' -> b1 k x' = Ok x') ->
  map_props b0 props = Ok props' -> map_props b1 props' = Ok props'.
Proof.
  revert props'. induction props as [|[k x] props IH]; simpl; intros props' Hb H.
  - inversion H. reflexivity.
  - destruct (b0 k x) eqn:E; [|discriminate]. cbn [bind] in H.
    destruct (map_props b0 props) eqn:E'; [|discriminate]. cbn [bind] in H.
    inversion H; subst. simpl.
    rewrite (Hb _ _ _ (or_introl eq_refl) E). cbn [bind].
    rewrite (IH _ (fun k' y y' Hin => Hb k' y y' (or_intror Hin)) eq_refl).
    reflexivity.
Qed.

(** ** Induction over tables *)

Lemma Tree_ind_nested (F : Type) (P : Tree F -> Prop) :
  (forall f, P (Leaf f)) ->
  (forall fields, Forall (fun kt => P (snd kt)) fields -> P (Node fields)) ->
  forall t, P t.
Proof.
  intros HL HN. fix IH 1. intros [f|fields].
  - apply HL.
  - apply HN. induction fields as [|[k t] fields IHf]; constructor.
    + apply IH.
    + exact IHf.
Qed.

(** What [lookup] finds among the prepared members of a literal. *)
Lemma lookup_members {F W : Type} (walk : Tree F -> W)
    (fields : list (string * Tree F)) (k : string) :
  lookup k
    (map (fun kt : string * Tree F =>
            let '(k, t) := kt in
            (k, match t with
                | Leaf f => inl f
                | Node fields' => inr (fields', walk t)
                end)) fields)
  = match lookup k fields with
    | Some (Leaf f) => Some (inl f)
    | Some (Node fields') => Some (inr (fields', walk (Node fields')))
    | None => None
    end.
Proof.
  induction fields as [|[k' t] fields IH]; simpl; [reflexivity|].
  destruct (String.eqb k k'); [destruct t; reflexivity|exact IH].
Qed.

Lemma lookup_In {A : Type} (k : string) (l : list (string * A)) (x : A) :
  lookup k l = Some x -> In (k, x) l.
Proof.
  induction l as [|[k' y] l IH]; simpl; [discriminate|].
  destruct (String.eqb k k') eqn:E.
  - apply String.eqb_eq in E. intros H. inversion H; subst. auto.
  - auto.
Qed.

Lemma lookup_None_has_key {A : Type} (k : string) (l : list (string * A)) :
  lookup k l = None -> has_key k l = false.
Proof.
  induction l as [|[k' y] l IH]; simpl; [reflexivity|].
  destruct (String.eqb k k'); [discriminate|exact IH].
Qed.

(** ** The canonicalizing walk: what a second run does *)

(** The conversion to a string that a built-in function applies to the
    receiver gives the same result on a receiver with the same keys. *)
Lemma to_string_same_keys (v v' : JsVal) (k : string) :
  same_keys v v' -> In k (map fst (own_props v)) ->
  in_object_prototype k = true -> to_string v' = to_string v.
Proof.
  intros Hs Hin Hk.
  destruct v, v'; simpl in Hs; try discriminate Hs; try contradiction;
    try (inversion Hs; subst; reflexivity).
  - simpl in Hin. apply indexed_keys_not_in_object_prototype in Hin. congruence.
  - simpl. rewrite !has_key_map_fst, Hs. reflexivity.
Qed.

Lemma assign_Ok (v : JsVal) (k : string) (y x' : JsVal) :
  assign v k y = Ok x' -> x' = y.
Proof. destruct v; simpl; intros H; congruence. Qed.

(** One key: if the call of the first run returns [x'], the call of the
    second run, on the canonicalized receiver, leaves [x'] in place. *)
Lemma canonicalize_member_idem (recurse : JsVal -> string -> Res JsVal)
    (member : Member Canonicalizer) (recv recv' : JsVal)
    (prefix k : string) (x x' : JsVal) :
  (forall y p y', recurse y p = Ok y' -> recurse y' p = Ok y') ->
  same_keys recv recv' ->
  (forall b, member = MBuiltin b -> to_string recv' = to_string recv) ->
  canonicalize_member recurse member recv prefix k x = Ok x' ->
  canonicalize_member recurse member recv' prefix k x' = Ok x'.
Proof.
  intros Hrec Hs Hts. destruct member as [f|t|b|]; simpl; intros H.
  - destruct (call_canonicalizer f x) as [[y|]|] eqn:E; cbn [bind] in H;
      try discriminate.
    + pose proof (assign_Ok _ _ _ H) as ->.
      rewrite (canonicalizer_fixed _ _ E). reflexivity.
    + inversion H; subst. rewrite E. reflexivity.
  - eauto.
  - unfold call_builtin, ref_to_string in *. rewrite (Hts b eq_refl).
    destruct b; cbn [bind] in *; try discriminate;
      try (inversion H; subst; reflexivity);
      destruct (to_string recv); cbn [bind] in *; try discriminate;
      inversion H; subst; reflexivity.
  - discriminate.
Qed.

Lemma canonicalize_in_null_unchanged (v v' : JsVal) :
  canonicalize_in_null v = Ok v' -> v' = v.
Proof.
  unfold canonicalize_in_null. intros H.
  destruct (map_props (fun k _ => Throw (TypeError_in k)) (own_props v))
    as [props|] eqn:E; [|discriminate].
  cbn [bind] in H. inversion H; subst.
  apply map_props_unchanged in E; [|discriminate].
  subst. apply with_props_own.
Qed.

Lemma canonicalize_in_prototype_unchanged (v v' : JsVal) (prefix : string) :
  canonicalize_in_prototype v prefix = Ok v' -> v' = v.
Proof.
  unfold canonicalize_in_prototype. intros H.
  match type of H with
  | bind (map_props ?b ?l) _ = _ => destruct (map_props b l) as [props|] eqn:E
  end; [|discriminate].
  cbn [bind] in H. inversion H; subst.
  apply map_props_unchanged in E.
  - subst. apply with_props_own.
  - intros k x x'. destruct (in_object_prototype k); [|congruence].
    unfold table_get, inherited_member.
    destruct (object_prototype_function k) as [b|]; simpl.
    + destruct (call_builtin b (Data v) (JStr k)); simpl; congruence.
    + destruct (String.eqb k "__proto__"); simpl; [|discriminate].
      apply canonicalize_in_null_unchanged.
Qed.
Lemma same_keys_with_props (v : JsVal) (props : list (string * JsVal)) :
  map fst props = map fst (own_props v) -> same_keys v (with_props v props).
Proof.
  destruct v; simpl; intros H; try reflexivity.
  - rewrite length_map.
    apply (f_equal (@List.length string)) in H. rewrite !length_map in H.
    rewrite H. clear H. generalize 0%nat.
    induction elems; simpl; intros; congruence.
  - congruence.
Qed.

Lemma own_props_with_props (v : JsVal) (props : list (string * JsVal)) :
  map fst props = map fst (own_props v) ->
  (exists l, v = JArr l) \/ (exists p, v = JObj p) ->
  own_props (with_props v props) = props.
Proof.
  intros H [[l ->]|[p ->]]; simpl in *; [|reflexivity].
  eapply indexed_map_snd. eassumption.
Qed.

Lemma with_props_not_container (v : JsVal) (props : list (string * JsVal)) :
  ~ ((exists l, v = JArr l) \/ (exists p, v = JObj p)) ->
  with_props v props = v.
Proof. destruct v; simpl; intros H; try reflexivity; exfalso; eauto. Qed.

Lemma container_dec (v : JsVal) :
  {(exists l, v = JArr l) \/ (exists p, v = JObj p)}
  + {~ ((exists l, v = JArr l) \/ (exists p, v = JObj p))}.
Proof.
  destruct v; try (right; intros [[l H]|[p H]]; discriminate);
    left; eauto.
Qed.

(** A second run of [canonicalizeSettings] over the result of a first run
    returns it unchanged. *)
Lemma canonicalize_in_literal_idem (t : Tree Canonicalizer) :
  forall v prefix v',
    canonicalize_in_literal t v prefix = Ok v' ->
    canonicalize_in_literal t v' prefix = Ok v'.
Proof.
  induction t as [f|fields IH] using Tree_ind_nested; intros v prefix v' H.
  - simpl in *. congruence.
  - cbn [canonicalize_in_literal] in *. cbv zeta in *.
    match type of H with
    | bind (map_props ?b ?l) _ = _ =>
        destruct (map_props b l) as [props|] eqn:E
    end; [|discriminate].
    cbn [bind] in H. inversion H; subst v'. clear H.
    pose proof (map_props_keys _ _ E) as Hk.
    destruct (container_dec v) as [Hc|Hc].
    2:{ rewrite (with_props_not_container _ Hc). rewrite E. cbn [bind].
        rewrite (with_props_not_container _ Hc). reflexivity. }
    rewrite (@own_props_with_props v props Hk Hc).
    pose proof (@same_keys_with_props v props Hk) as Hs.
    match goal with
    | |- bind (map_props ?b1 props) _ = _ =>
        assert (E1 : map_props b1 props = Ok props)
    end.
    { eapply map_props_idem; [|exact E]. cbv beta.
      intros k x x' Hin.
      destruct (has_key k fields || in_object_prototype k) eqn:C;
        [|congruence].
      rewrite lookup_members.
      destruct (lookup k fields) as [[f|fields']|] eqn:L.
      - apply canonicalize_member_idem; auto; try discriminate; congruence.
      - apply canonicalize_member_idem; auto; try discriminate.
        apply lookup_In in L. rewrite Forall_forall in IH.
        exact (IH _ L).
      - apply canonicalize_member_idem; auto.
        + intros y p y' Hy.
          pose proof (canonicalize_in_prototype_unchanged _ _ Hy). congruence.
        + intros b _. apply lookup_None_has_key in L. rewrite L in C.
          eapply to_string_same_keys; eauto. }
    rewrite E1. cbn [bind]. f_equal.
    destruct Hc as [[l ->]|[p ->]]; reflexivity.
Qed.

(** C7: a second application of [canonicalizeSynonyms] to the tree that a
    first application returns gives that tree again. *)
Theorem canonicalizeSynonyms_idempotent (newSettings canonical : JsVal) :
  canonicalizeSynonyms newSettings = Ok canonical ->
  canonicalizeSynonyms canonical = Ok canonical.
Proof. apply canonicalize_in_literal_idem. Qed.

Lemma canonicalizeSynonyms_idempotent_sample :
  canonicalizeSynonyms
    (JObj [("kubernetes", JObj [("version", JStr "v1.2.3+k3s1");
                                ("enabled", JStr "true");
                                ("containerEngine", JStr "docker");
                                ("port", JNum 6443)])])
  = Ok (JObj [("kubernetes", JObj [("version", JStr "1.2.3");
                                   ("enabled", JBool true);
                                   ("containerEngine", JStr "moby");
                                   ("port", JNum 6443)])])
  /\ canonicalizeSynonyms
       (JObj [("kubernetes", JObj [("version", JStr "1.2.3");
                                   ("enabled", JBool true);
                                   ("containerEngine", JStr "moby");
                                   ("port", JNum 6443)])])
     = Ok (JObj [("kubernetes", JObj [("version", JStr "1.2.3");
                                      ("enabled", JBool true);
                                      ("containerEngine", JStr "moby");
                                      ("port", JNum 6443)])]).
Proof.
  split; [reflexivity|].
  apply (canonicalizeSynonyms_idempotent
           (JObj [("kubernetes", JObj [("version", JStr "v1.2.3+k3s1");
                                       ("enabled", JStr "true");
                                       ("containerEngine", JStr "docker");
                                       ("port", JNum 6443)])])).
  reflexivity.
Defined.

(** ** The canonicalizing walk: when it returns *)

Lemma JsVal_ind_nested (P : JsVal -> Prop) :
  P JUndefined -> P JNull -> (forall b, P (JBool b)) ->
  (forall n, P (JNum n)) -> (forall s, P (JStr s)) ->
  (forall l, Forall P l -> P (JArr l)) ->
  (forall props, Forall (fun kx => P (snd kx)) props -> P (JObj props)) ->
  forall v, P v.
Proof.
  intros HU HN HB HNum HS HA HO. fix IH 1. intros [| |b|n|s|l|props].
  - exact HU.
  - exact HN.
  - apply HB.
  - apply HNum.
  - apply HS.
  - apply HA. induction l as [|x l IHl]; constructor; [apply IH|exact IHl].
  - apply HO. induction props as [|[k x] props IHp]; constructor;
      [apply IH|exact IHp].
Qed.

Lemma plain_no_toString (props : list (string * JsVal)) :
  plain (JObj props) = true -> has_key "toString" props = false.
Proof.
  induction props as [|[k x] props IH]; cbn [has_key plain forallb];
    intros H; [reflexivity|].
  apply andb_true_iff in H. destruct H as [H1 H2].
  apply andb_true_iff in H1. destruct H1 as [Hk _].
  rewrite (IH H2), orb_false_r.
  destruct (String.eqb "toString" k) eqn:E; [|reflexivity].
  apply String.eqb_eq in E. subst k. discriminate Hk.
Qed.

(** The conversion to a string of plain data returns. *)
Lemma to_string_plain (v : JsVal) :
  plain v = true -> exists s, to_string v = Ok s.
Proof.
  induction v as [| | | | |l IH|props IH] using JsVal_ind_nested;
    intros Hp; try (simpl; eauto; fail).
  - cbn [to_string]. cbn [plain] in Hp. induction l as [|x l IHl].
    + eauto.
    + simpl in Hp. apply andb_true_iff in Hp. destruct Hp as [Hx Hl].
      inversion IH as [|? ? IHx IHl']; subst.
      destruct (IHl IHl' Hl) as [r Hr]. destruct (IHx Hx) as [s Hs].
      assert (Hs' : exists s',
                 match x with
                 | JUndefined | JNull => Ok EmptyString
                 | _ => to_string x
                 end = Ok s')
        by (destruct x; eauto).
      destruct Hs' as [s' Hs']. rewrite Hs'. cbn [bind].
      destruct l; [eauto|]. rewrite Hr. cbn [bind]. eauto.
  - cbn [to_string]. rewrite (plain_no_toString _ Hp). eauto.
Qed.

Lemma call_canonicalizer_returns (f : Canonicalizer) (x : JsVal) :
  plain x = true -> exists r, call_canonicalizer f x = Ok r.
Proof.
  intros Hp. destruct f; simpl.
  - unfold canonicalizeKubernetesVersion.
    destruct (to_string_plain _ Hp) as [s ->]. cbn [bind].
    destruct (ptn_exec s) as [[[m1 m2] m3]|]; [destruct (m1 || m3)|]; eauto.
  - unfold canonicalizeContainerEngine.
    destruct (strict_eq x (JStr "docker")); eauto.
  - unfold canonicalizeBool.
    destruct (strict_eq x (JStr "true"));
      [|destruct (strict_eq x (JStr "false"))]; eauto.
Qed.

Lemma map_props_returns (b : string -> JsVal -> Res JsVal)
    (props : list (string * JsVal)) :
  (forall k x, In (k, x) props -> exists x', b k x = Ok x') ->
  exists props', map_props b props = Ok props'.
Proof.
  induction props as [|[k x] props IH]; intros Hb; simpl; [eauto|].
  destruct (Hb k x (or_introl eq_refl)) as [x' ->]. cbn [bind].
  destruct IH as [props' ->]; [intros; apply Hb; right; assumption|].
  cbn [bind]. eauto.
Qed.

Lemma indexed_keys_start_with_digit (l : list JsVal) (i : nat) (k : string) :
  In k (map fst (indexed i l)) -> starts_with_digit k = true.
Proof.
  revert i. induction l as [|x l IH]; simpl; intros i H; [contradiction|].
  destruct H as [<-|H]; [|eauto].
  destruct (index_name_digit i) as (c & s & -> & Hc). exact Hc.
Qed.

Lemma plain_chars (s : string) (i : nat) :
  Forall (fun kx => plain (snd kx) = true) (indexed i (chars s)).
Proof.
  revert i. induction s; simpl; intros i; constructor; auto.
Qed.

(** The properties of plain data are plain, and none of their keys names
    a member of [Object.prototype]. *)
Lemma plain_own_props (v : JsVal) (k : string) (x : JsVal) :
  plain v = true -> In (k, x) (own_props v) ->
  plain x = true /\ in_object_prototype k = false
  /\ ((exists props, v = JObj props) \/ starts_with_digit k = true).
Proof.
  intros Hp Hin. destruct v; simpl in Hin; try contradiction.
  - pose proof (plain_chars s 0) as Hc. rewrite Forall_forall in Hc.
    split; [exact (Hc _ Hin)|].
    apply (in_map fst) in Hin. simpl in Hin.
    split; [eapply indexed_keys_not_in_object_prototype; eauto|].
    right. eapply indexed_keys_start_with_digit; eauto.
  - assert (Hx : plain x = true).
    { simpl in Hp. revert Hin. generalize 0%nat.
      induction elems as [|y l IH]; simpl; intros i Hin; [contradiction|].
      simpl in Hp. apply andb_true_iff in Hp. destruct Hp as [Hy Hl].
      destruct Hin as [Hin|Hin]; [inversion Hin; subst; exact Hy|eauto]. }
    split; [exact Hx|].
    apply (in_map fst) in Hin. simpl in Hin.
    split; [eapply indexed_keys_not_in_object_prototype; eauto|].
    right. eapply indexed_keys_start_with_digit; eauto.
  - simpl in Hp. rewrite forallb_forall in Hp.
    pose proof (Hp _ Hin) as H. simpl in H.
    apply andb_true_iff in H. destruct H as [Hk Hx].
    apply negb_true_iff in Hk. eauto.
Qed.

Lemma digit_free_lookup {F : Type} (fields : list (string * Tree F))
    (k : string) (t : Tree F) :
  digit_free (Node fields) = true -> lookup k fields = Some t ->
  starts_with_digit k = false /\ digit_free t = true.
Proof.
  intros Hd Hl. apply lookup_In in Hl. simpl in Hd.
  rewrite forallb_forall in Hd. pose proof (Hd _ Hl) as H. simpl in H.
  apply andb_true_iff in H. destruct H as [Hk Ht].
  apply negb_true_iff in Hk. auto.
Qed.

(** On plain data the walk over a table returns. *)
Lemma canonicalize_in_literal_returns (t : Tree Canonicalizer) :
  digit_free t = true ->
  forall v prefix, plain v = true ->
    exists v', canonicalize_in_literal t v prefix = Ok v'.
Proof.
  induction t as [f|fields IH] using Tree_ind_nested; intros Hd v prefix Hp.
  - simpl. eauto.
  - cbn [canonicalize_in_literal]. cbv zeta.
    match goal with
    | |- exists v', bind (map_props ?b ?l) _ = _ =>
        destruct (@map_props_returns b l) as [props ->]
    end; [|cbn [bind]; eauto].
    intros k x Hin. cbv beta.
    destruct (plain_own_props _ _ _ Hp Hin) as (Hx & Hk & Hv).
    rewrite Hk, orb_false_r, lookup_members.
    destruct (has_key k fields) eqn:Hh; [|eauto].
    destruct (lookup k fields) as [t'|] eqn:L;
      [|apply lookup_None_has_key in L; congruence].
    destruct (digit_free_lookup _ _ Hd L) as [Hnd Hd'].
    destruct Hv as [[props ->]|Hv]; [|congruence].
    destruct t' as [f|fields']; unfold canonicalize_member.
    + destruct (call_canonicalizer_returns f _ Hx) as [[y|] ->];
        cbn [bind assign]; eauto.
    + apply lookup_In in L. rewrite Forall_forall in IH.
      exact (IH _ L Hd' x _ Hx).
Qed.

(** [canonicalizeSynonyms] returns on every plain tree. *)
Lemma canonicalizeSynonyms_returns (newSettings : JsVal) :
  plain newSettings = true ->
  exists canonical, canonicalizeSynonyms newSettings = Ok canonical.
Proof.
  intros Hp. apply canonicalize_in_literal_returns; [reflexivity|exact Hp].
Qed.

(** ** The canonicalizing walk: what it leaves alone *)

Lemma lookup_map_values {A B : Type} (h : A -> B) (l : list (string * A))
    (k : string) :
  lookup k (map (fun kt : string * A => let '(k, t) := kt in (k, h t)) l)
  = option_map h (lookup k l).
Proof.
  induction l as [|[k' t] l IH]; simpl; [reflexivity|].
  destruct (String.eqb k k'); [reflexivity|exact IH].
Qed.

Lemma map_props_map (b : string -> JsVal -> Res JsVal)
    (g : string -> JsVal -> JsVal) (props props' : list (string * JsVal)) :
  (forall k x x', b k x = Ok x' -> g k x' = g k x) ->
  map_props b props = Ok props' ->
  map (fun kx : string * JsVal => let '(k, x) := kx in (k, g k x)) props'
  = map (fun kx : string * JsVal => let '(k, x) := kx in (k, g k x)) props.
Proof.
  intros Hb. revert props'.
  induction props as [|[k x] props IH]; simpl; intros props' H.
  - inversion H. reflexivity.
  - destruct (b k x) eqn:E; [|discriminate]. cbn [bind] in H.
    destruct (map_props b props); [|discriminate]. cbn [bind] in H.
    inversion H; subst. simpl. rewrite (Hb _ _ _ E), (IH _ eq_refl).
    reflexivity.
Qed.

Lemma with_props_with_props (v : JsVal) (p q : list (string * JsVal)) :
  with_props (with_props v p) q = with_props v q.
Proof. destruct v; reflexivity. Qed.

(** A key found through the prototype chain only: its value stays. *)
Lemma canonicalize_inherited_unchanged (v : JsVal) (prefix k : string)
    (x x' : JsVal) :
  canonicalize_member canonicalize_in_prototype (inherited_member TProto k)
    v prefix k x = Ok x' ->
  x' = x.
Proof.
  unfold inherited_member.
  destruct (object_prototype_function k) as [b|]; simpl.
  - destruct (call_builtin b (Data v) (JStr k)); simpl; congruence.
  - destruct (String.eqb k "__proto__"); simpl; [|discriminate].
    apply canonicalize_in_prototype_unchanged.
Qed.

(** The walk over a table changes values only where the table holds a
    function. *)
Lemma canonicalize_in_literal_frame (t : Tree Canonicalizer) :
  forall v prefix v',
    canonicalize_in_literal t v prefix = Ok v' ->
    mask_tree t v' = mask_tree t v.
Proof.
  induction t as [f|fields IH] using Tree_ind_nested; intros v prefix v' H.
  - reflexivity.
  - cbn [canonicalize_in_literal mask_tree] in *. cbv zeta in *.
    match type of H with
    | bind (map_props ?b ?l) _ = _ =>
        destruct (map_props b l) as [props|] eqn:E
    end; [|discriminate].
    cbn [bind] in H. inversion H; subst v'. clear H.
    pose proof (map_props_keys _ _ E) as Hk.
    rewrite with_props_with_props.
    destruct (container_dec v) as [Hc|Hc].
    2:{ rewrite (with_props_not_container props Hc). reflexivity. }
    rewrite (@own_props_with_props v props Hk Hc).
    f_equal.
    eapply (@map_props_map _
              (fun (k : string) (x : JsVal) =>
                 match
                   lookup k
                     (map (fun kt : string * Tree Canonicalizer =>
                             let '(k0, t') := kt in (k0, mask_tree t')) fields)
                 with
                 | Some mask => mask x
                 | None => x
                 end)); [|exact E].
    intros k x x'. cbv beta.
    rewrite lookup_members, lookup_map_values.
    destruct (has_key k fields || in_object_prototype k) eqn:C.
    + destruct (lookup k fields) as [[f|fields']|] eqn:L; simpl.
      * reflexivity.
      * apply lookup_In in L. rewrite Forall_forall in IH.
        exact (IH _ L x _ x').
      * apply canonicalize_inherited_unchanged.
    + intros Hx. inversion Hx. reflexivity.
Qed.

(** *** The leaves of the synonym table are the four synonym positions *)

Lemma mask_tree_JObj {F : Type} (fields : list (string * Tree F))
    (props : list (string * JsVal)) :
  mask_tree (Node fields) (JObj props)
  = JObj (map (fun kx : string * JsVal =>
                 let '(k, x) := kx in
                 (k, match lookup k fields with
                     | Some t => mask_tree t x
                     | None => x
                     end)) props).
Proof.
  cbn [mask_tree own_props with_props]. f_equal. apply map_ext.
  intros [k x]. rewrite lookup_map_values.
  destruct (lookup k fields); reflexivity.
Qed.

(** A table that has no key beginning with a digit masks nothing in an
    array, a string or any other value that is not a plain object. *)
Lemma mask_tree_not_JObj {F : Type} (fields : list (string * Tree F))
    (v : JsVal) :
  (forall c s, is_digit c = true -> lookup (String c s) fields = None) ->
  (forall props, v <> JObj props) ->
  mask_tree (Node fields) v = v.
Proof.
  intros Hd Hv. destruct v; try reflexivity; [|exfalso; eapply Hv; eauto].
  cbn [mask_tree own_props with_props]. f_equal. clear Hv.
  rewrite <- (map_snd_indexed elems 0) at 2. f_equal.
  generalize 0%nat. induction elems as [|x l IH]; intros i; simpl;
    [reflexivity|].
  rewrite IH. f_equal. rewrite lookup_map_values.
  destruct (index_name_digit i) as (c & s & -> & Hc).
  rewrite (Hd _ _ Hc). reflexivity.
Qed.

Lemma mask_at_not_JObj (k : string) (path : list string) (v : JsVal) :
  (forall props, v <> JObj props) -> mask_at (k :: path) v = v.
Proof. intros Hv. destruct v; try reflexivity. exfalso. eapply Hv; eauto. Qed.

Lemma JObj_dec (v : JsVal) :
  {props | v = JObj props} + {forall props, v <> JObj props}.
Proof. destruct v; try (right; discriminate). left. eauto. Qed.

Ltac no_digit_key :=
  let c := fresh "c" in
  let H := fresh "H" in
  intros c ? H;
  destruct c as [[] [] [] [] [] [] [] []]; try discriminate H; reflexivity.

Ltac key_cases k :=
  repeat match goal with
    | |- context [String.eqb k ?s] =>
        let E := fresh "E" in
        destruct (String.eqb k s) eqn:E;
        [apply String.eqb_eq in E; subst k; try reflexivity|]
    end;
  try reflexivity.

Lemma mask_options (v : JsVal) :
  mask_tree (Node [("flannel", Leaf C_canonicalizeBool)]) v
  = mask_at ["flannel"] v.
Proof.
  destruct (JObj_dec v) as [[props ->]|Hv].
  - rewrite mask_tree_JObj. cbn [mask_at]. f_equal. apply map_ext.
    intros [k x]. cbn [lookup]. key_cases k.
  - rewrite mask_at_not_JObj by exact Hv.
    apply mask_tree_not_JObj; [no_digit_key|exact Hv].
Qed.

Lemma mask_kubernetes (v : JsVal) :
  mask_tree
    (Node [ ("version", Leaf C_canonicalizeKubernetesVersion);
            ("containerEngine", Leaf C_canonicalizeContainerEngine);
            ("enabled", Leaf C_canonicalizeBool);
            ("options", Node [ ("flannel", Leaf C_canonicalizeBool) ]) ]) v
  = mask_at ["version"]
      (mask_at ["containerEngine"]
         (mask_at ["enabled"] (mask_at ["options"; "flannel"] v))).
Proof.
  destruct (JObj_dec v) as [[props ->]|Hv].
  - rewrite mask_tree_JObj. cbn [mask_at]. rewrite !map_map. f_equal.
    apply map_ext. intros [k x]. cbn [lookup].
    destruct (String.eqb k "version") eqn:E1;
      [apply String.eqb_eq in E1; subst k; reflexivity|].
    destruct (String.eqb k "containerEngine") eqn:E2;
      [apply String.eqb_eq in E2; subst k; reflexivity|].
    destruct (String.eqb k "enabled") eqn:E3;
      [apply String.eqb_eq in E3; subst k; reflexivity|].
    destruct (String.eqb k "options") eqn:E4.
    + apply String.eqb_eq in E4; subst k. rewrite mask_options.
      reflexivity.
    + repeat (rewrite ?E1, ?E2, ?E3, ?E4; cbn iota). reflexivity.
  - rewrite !(mask_at_not_JObj _ _ Hv).
    apply mask_tree_not_JObj; [no_digit_key|exact Hv].
Qed.

Lemma mask_synonymsTable (v : JsVal) :
  mask_tree (Node synonymsTable) v = mask_synonyms v.
Proof.
  unfold mask_synonyms, synonym_positions, synonymsTable.
  cbn [fold_right].
  destruct (JObj_dec v) as [[props ->]|Hv].
  - rewrite mask_tree_JObj. cbn [mask_at]. rewrite !map_map. f_equal.
    apply map_ext. intros [k x]. cbn [lookup].
    destruct (String.eqb k "kubernetes") eqn:E.
    + apply String.eqb_eq in E; subst k. rewrite mask_kubernetes.
      reflexivity.
    + repeat (rewrite ?E; cbn iota). reflexivity.
  - rewrite !(mask_at_not_JObj _ _ Hv).
    apply mask_tree_not_JObj; [no_digit_key|exact Hv].
Qed.
Lemma synonymsTable_leaves :
  leaf_paths (Node synonymsTable) = synonym_positions.
Proof. reflexivity. Qed.

(** C10: the tree that [canonicalizeSynonyms] returns and the tree it was
    given coincide once the values at the four synonym positions are
    hidden: no key is added or removed, and every value at another
    position is unchanged. *)
Theorem canonicalizeSynonyms_frame (newSettings canonical : JsVal) :
  canonicalizeSynonyms newSettings = Ok canonical ->
  mask_synonyms canonical = mask_synonyms newSettings.
Proof.
  intros H. rewrite <- !mask_synonymsTable.
  eapply canonicalize_in_literal_frame. exact H.
Qed.

Lemma canonicalizeSynonyms_frame_sample :
  mask_synonyms
    (JObj [("kubernetes", JObj [("version", JStr "1.2.3");
                                ("port", JNum 6443);
                                ("options", JObj [("flannel", JBool true);
                                                  ("traefik", JStr "true")])]);
           ("telemetry", JStr "true")])
  = mask_synonyms
      (JObj [("kubernetes", JObj [("version", JStr "v1.2.3+k3s1");
                                  ("port", JNum 6443);
                                  ("options", JObj [("flannel", JStr "true");
                                                    ("traefik", JStr "true")])]);
             ("telemetry", JStr "true")]).
Proof.
  apply canonicalizeSynonyms_frame. reflexivity.
Defined.

(** ** Keys that no table knows *)

Lemma for_in_app {S : Type} (body : string -> JsVal -> S -> Res S)
    (p q : list (string * JsVal)) (st : S) :
  for_in body (p ++ q) st = (st' <- for_in body p st ;; for_in body q st').
Proof.
  revert st. induction p as [|[k v] p IH]; simpl; intros st; [reflexivity|].
  destruct (body k v st); simpl; [apply IH|reflexivity].
Qed.

(** X14: a proposed key that is neither a key of the verifier nor the
    name of a member of [Object.prototype] is passed over, wherever it
    stands among the keys: the walk answers as on the object without
    it. *)
Lemma unknown_key_skipped (this : SettingsValidator)
    (PMS : PathManagementStrategy) (fields : list (string * Tree Validator))
    (cur : Ref) (p q : list (string * JsVal)) (k : string) (v : JsVal)
    (errors : list string) (prefix : string) :
  has_key k fields = false -> in_object_prototype k = false ->
  checkProposedSettings this PMS (TObj fields) cur
    (JObj (p ++ (k, v) :: q)) errors prefix
  = checkProposedSettings this PMS (TObj fields) cur
      (JObj (p ++ q)) errors prefix.
Proof.
  intros Hk Hp. unfold checkProposedSettings.
  cbn [check_in_literal own_props]. cbv zeta.
  rewrite !for_in_app. f_equal.
  cbn [for_in]. rewrite Hk, Hp. reflexivity.
Qed.

(** ** The validating walk: when it returns *)

Lemma to_string_not_object (x : JsVal) :
  is_object x = false -> exists s, to_string x = Ok s.
Proof. destruct x; simpl; intros H; try discriminate; eauto. Qed.

(** A validator given a value that is no object returns. *)
Lemma call_validator_returns (this : SettingsValidator)
    (PMS : PathManagementStrategy) (f : Validator) (cur : Ref) (x : JsVal)
    (errors : list string) (fqname : string) :
  is_object x = false ->
  exists r, call_validator this PMS f cur x errors fqname = Ok r.
Proof.
  intros Hx. destruct (to_string_not_object _ Hx) as [s Hs].
  destruct f; cbn [call_validator].
  - unfold checkUnchanged. destruct (strict_neq cur x); eauto.
  - unfold checkKubernetesVersion. rewrite Hs.
    destruct (negb (includes (k8sVersions this) x)); cbn [bind]; eauto.
  - unfold checkNumber, invalidSettingMessage. rewrite Hs. cbn [bind].
    destruct x; eauto. destruct (num_lt n min || num_gt n max); eauto.
  - unfold checkContainerEngine. rewrite Hs.
    destruct (negb (includes ["containerd"; "moby"] x)); cbn [bind]; eauto.
  - unfold checkBoolean, invalidSettingMessage. rewrite Hs. cbn [bind].
    destruct (negb (JsType_eqb (typeof x) TBoolean)); eauto.
  - destruct (checkWSLIntegrations_returns cur x errors fqname) as [e ->].
    eauto.
  - unfold checkString, invalidSettingMessage. rewrite Hs. cbn [bind].
    destruct (negb (JsType_eqb (typeof x) TString)); eauto.
  - unfold checkPathManagementStrategy. rewrite Hs. cbn [bind].
    destruct (negb (includes (strategy_values PMS) x)); eauto.
    destruct (strict_eq x (JStr (NotSet PMS))); eauto.
    destruct (strict_neq cur x); eauto.
Qed.

Lemma for_in_returns {S : Type} (body : string -> JsVal -> S -> Res S)
    (props : list (string * JsVal)) :
  (forall k x st, In (k, x) props -> exists st', body k x st = Ok st') ->
  forall st, exists st', for_in body props st = Ok st'.
Proof.
  induction props as [|[k x] props IH]; intros Hb st; simpl; [eauto|].
  destruct (Hb k x st (or_introl eq_refl)) as [st' ->]. cbn [bind].
  apply IH. intros; apply Hb; right; assumption.
Qed.

Lemma get_object (props : list (string * JsVal)) (k : string) :
  get (Data (JObj props)) k
  = Ok match lookup k props with
       | Some x => Data x
       | None => inherited_value ObjectPrototype k
       end.
Proof. cbn [get own_props]. destruct (lookup k props); reflexivity. Qed.

Lemma conforms_lookup {F : Type} (fields fields' : list (string * Tree F))
    (props : list (string * JsVal)) (k : string) :
  conforms (Node fields) (JObj props) = true ->
  lookup k fields = Some (Node fields') ->
  exists c, lookup k props = Some c /\ conforms (Node fields') c = true.
Proof.
  cbn [conforms]. intros Hc Hl. apply lookup_In in Hl.
  rewrite forallb_forall in Hc. pose proof (Hc _ Hl) as H. cbv beta iota in H.
  destruct (lookup k props) as [c|]; [eauto|discriminate].
Qed.

(** On a plain proposal, and current settings that conform to the
    verifier, the walk returns. *)
Lemma check_in_literal_returns (this : SettingsValidator)
    (PMS : PathManagementStrategy) (t : Tree Validator) :
  digit_free t = true ->
  forall cur new errors prefix,
    conforms t cur = true -> plain new = true ->
    exists r, check_in_literal this PMS t (Data cur) new errors prefix = Ok r.
Proof.
  induction t as [f|fields IH] using Tree_ind_nested;
    intros Hd cur new errors prefix Hc Hp.
  - simpl. eauto.
  - destruct cur as [| | | | | |props]; try discriminate Hc.
    cbn [check_in_literal]. cbv zeta. apply for_in_returns.
    intros k x [changed errs] Hin. cbv beta.
    destruct (plain_own_props _ _ _ Hp Hin) as (Hx & Hk & Hv).
    rewrite Hk, orb_false_r, lookup_members.
    destruct (has_key k fields) eqn:Hh; [|simpl; eauto]. cbn [negb].
    destruct (lookup k fields) as [t'|] eqn:L;
      [|apply lookup_None_has_key in L; congruence].
    destruct (digit_free_lookup _ _ Hd L) as [Hnd Hd'].
    unfold check_member, or_changed. rewrite get_object. cbn [bind].
    destruct t' as [f|fields'].
    + destruct (is_object x) eqn:Ho.
      * destruct (is_checkWSLIntegrations f); [|eauto].
        match goal with
        | |- context [checkWSLIntegrations ?c x errs ?q] =>
            destruct (checkWSLIntegrations_returns c x errs q) as [e ->]
        end.
        cbn [bind]. eauto.
      * match goal with
        | |- context [call_validator this PMS f ?c x errs ?q] =>
            destruct (@call_validator_returns this PMS f c x errs q Ho)
              as [[c' e] ->]
        end.
        cbn [bind]. eauto.
    + destruct (is_object x) eqn:Ho.
      * destruct (@conforms_lookup _ _ _ _ _ Hc L) as (c & -> & Hc').
        apply lookup_In in L. rewrite Forall_forall in IH.
        destruct (IH _ L Hd' c x errs (fqname_of prefix k) Hc' Hx)
          as [[c' e] He].
        cbn [snd] in He. rewrite He. cbn [bind]. eauto.
      * destruct (to_string_not_object _ Ho) as [s ->]. cbn [bind]. eauto.
Qed.

Lemma plain_JObj_iff (props : list (string * JsVal)) :
  plain (JObj props) = true <->
  Forall (fun k => in_object_prototype k = false) (map fst props)
  /\ Forall (fun x => plain x = true) (map snd props).
Proof.
  cbn [plain]. induction props as [|[k x] props IH]; cbn [forallb map fst snd].
  - split; auto.
  - rewrite !andb_true_iff, IH, negb_true_iff. split.
    + intros [[Hk Hx] [H1 H2]]. split; constructor; auto.
    + intros [H1 H2]. inversion H1; inversion H2; subst. auto.
Qed.

Lemma plain_JArr_iff (l : list JsVal) :
  plain (JArr l) = true <-> Forall (fun x => plain x = true) l.
Proof. cbn [plain]. rewrite forallb_forall, Forall_forall. reflexivity. Qed.

Lemma map_props_values (b : string -> JsVal -> Res JsVal)
    (Q : JsVal -> Prop) (props props' : list (string * JsVal)) :
  (forall k x x', b k x = Ok x' -> Q x -> Q x') ->
  map_props b props = Ok props' ->
  Forall Q (map snd props) -> Forall Q (map snd props').
Proof.
  intros Hb. revert props'.
  induction props as [|[k x] props IH]; simpl; intros props' H HQ.
  - inversion H. constructor.
  - destruct (b k x) eqn:E; [|discriminate]. cbn [bind] in H.
    destruct (map_props b props); [|discriminate]. cbn [bind] in H.
    inversion H; subst. inversion HQ; subst. simpl. constructor; eauto.
Qed.

Lemma canonicalizer_plain (f : Canonicalizer) (x y : JsVal) :
  call_canonicalizer f x = Ok (Some y) -> plain y = true.
Proof.
  destruct f; simpl.
  - unfold canonicalizeKubernetesVersion.
    destruct (to_string x) as [s|]; [|discriminate]. cbn [bind].
    destruct (ptn_exec s) as [[[m1 m2] m3]|]; [|discriminate].
    destruct (m1 || m3); intros H; inversion H; reflexivity.
  - unfold canonicalizeContainerEngine.
    destruct (strict_eq x (JStr "docker")); intros H; inversion H; reflexivity.
  - unfold canonicalizeBool.
    destruct (strict_eq x (JStr "true"));
      [|destruct (strict_eq x (JStr "false"))];
      intros H; inversion H; reflexivity.
Qed.

(** The walk over a table turns plain data into plain data. *)
Lemma canonicalize_in_literal_plain (t : Tree Canonicalizer) :
  forall v prefix v',
    canonicalize_in_literal t v prefix = Ok v' ->
    plain v = true -> plain v' = true.
Proof.
  induction t as [f|fields IH] using Tree_ind_nested;
    intros v prefix v' H Hp.
  - simpl in H. congruence.
  - cbn [canonicalize_in_literal] in H. cbv zeta in H.
    match type of H with
    | bind (map_props ?b ?l) _ = _ =>
        destruct (map_props b l) as [props|] eqn:E
    end; [|discriminate].
    cbn [bind] in H. inversion H; subst v'. clear H.
    pose proof (map_props_keys _ _ E) as Hk.
    assert (Hv : Forall (fun x => plain x = true) (map snd (own_props v)) ->
                 Forall (fun x => plain x = true) (map snd props)).
    { eapply map_props_values; [|exact E]. cbv beta.
      intros k x x'. rewrite lookup_members.
      destruct (has_key k fields || in_object_prototype k);
        [|congruence].
      destruct (lookup k fields) as [[f|fields']|] eqn:L;
        unfold canonicalize_member.
      - destruct (call_canonicalizer f x) as [[y|]|] eqn:Ef; cbn [bind];
          try discriminate; [|congruence].
        intros Ha _. apply assign_Ok in Ha. subst x'.
        eapply canonicalizer_plain; eauto.
      - apply lookup_In in L. rewrite Forall_forall in IH.
        exact (IH _ L x _ x').
      - intros Hi Hx. apply canonicalize_inherited_unchanged in Hi.
        subst x'. exact Hx. }
    destruct v; try exact Hp.
    + apply plain_JArr_iff. apply plain_JArr_iff in Hp.
      apply Hv. cbn [own_props]. rewrite map_snd_indexed. exact Hp.
    + apply plain_JObj_iff. apply plain_JObj_iff in Hp.
      cbn [own_props] in *. rewrite Hk. split; [tauto|apply Hv; tauto].
Qed.

(** X13: on a plain proposal, and current settings that hold an object
    at [kubernetes], [kubernetes.options], [portForwarding] and [images],
    [validateSettings] returns its pair: nothing is thrown. *)
Lemma validateSettings_returns (this : SettingsValidator)
    (PMS : PathManagementStrategy) (currentSettings newSettings : JsVal) :
  plain newSettings = true ->
  conforms (Node allowedSettings) currentSettings = true ->
  exists ok errors,
    validateSettings this PMS currentSettings newSettings = Ok (ok, errors).
Proof.
  intros Hp Hc. unfold validateSettings.
  destruct (canonicalizeSynonyms_returns _ Hp) as [canonical Hcan].
  rewrite Hcan. cbn [bind].
  pose proof (canonicalize_in_literal_plain _ _ _ Hcan Hp) as Hp'.
  destruct (@check_in_literal_returns this PMS (Node allowedSettings)
              eq_refl currentSettings canonical [] EmptyString Hc Hp')
    as [[changed errors] Hw].
  unfold checkProposedSettings. rewrite Hw. cbn [bind]. eauto.
Qed.

(** ** The validating walk: how the errors accumulate *)

(** A loop whose body ORs its answer into the flag and appends its errors
    does the same as a whole. *)
Lemma for_in_uniform (body : string -> JsVal -> Checked -> Res Checked)
    (props : list (string * JsVal)) :
  (forall k v ch errors,
     body k v (ch, errors)
     = ('(c, added) <- body k v (false, []) ;;
        Ok (c || ch, (errors ++ added)%list))) ->
  forall ch errors,
    for_in body props (ch, errors)
    = ('(c, added) <- for_in body props (false, []) ;;
       Ok (c || ch, (errors ++ added)%list)).
Proof.
  intros Hb. induction props as [|[k v] props IH]; intros ch errors.
  - simpl. rewrite app_nil_r. reflexivity.
  - cbn [for_in]. rewrite (Hb k v ch errors).
    destruct (body k v (false, [])) as [[c a]|] eqn:E; cbn [bind].
    + rewrite (IH (c || ch) (errors ++ a)%list), (IH c a).
      destruct (for_in body props (false, [])) as [[c' a']|]; cbn [bind];
        [|reflexivity].
      rewrite orb_assoc, app_assoc. reflexivity.
    + reflexivity.
Qed.

Lemma for_in_shift (body : string -> JsVal -> Checked -> Res Checked)
    (props : list (string * JsVal)) (errors : list string) :
  (forall k v ch errors,
     body k v (ch, errors)
     = ('(c, added) <- body k v (false, []) ;;
        Ok (c || ch, (errors ++ added)%list))) ->
  for_in body props (false, errors)
  = ('(c, added) <- for_in body props (false, []) ;;
     Ok (c, (errors ++ added)%list)).
Proof.
  intros Hb. rewrite (for_in_uniform _ props Hb false errors).
  destruct (for_in body props (false, [])) as [[c a]|]; cbn [bind];
    [rewrite orb_false_r|]; reflexivity.
Qed.

Ltac shift_cases :=
  unfold push; cbn [bind app];
  repeat match goal with
    | |- context [if ?b then _ else _] => destruct b; cbn [bind app]
    | |- context [bind (to_string ?x) _] =>
        destruct (to_string x); cbn [bind app]
    end;
  rewrite ?app_nil_r; reflexivity.

Lemma checkWSLIntegrations_shift (cur : Ref) (x : JsVal)
    (errors : list string) (fqname : string) :
  checkWSLIntegrations cur x errors fqname
  = ('(c, added) <- checkWSLIntegrations cur x [] fqname ;;
     Ok (c, (errors ++ added)%list)).
Proof.
  unfold checkWSLIntegrations.
  destruct (negb (JsType_eqb (typeof x) TObject)); [shift_cases|].
  destruct (a <- stableSerializeWSLIntegrations cur ;;
            b <- stableSerializeWSLIntegrations (Data x) ;;
            Ok (negb (String.eqb a b))) as [[|]|];
    unfold push; cbn [bind app]; rewrite ?app_nil_r; reflexivity.
Qed.

(** A validator appends to the errors it is given, and answers the same
    whatever they are. *)
Lemma call_validator_shift (this : SettingsValidator)
    (PMS : PathManagementStrategy) (f : Validator) (cur : Ref) (x : JsVal)
    (errors : list string) (fqname : string) :
  call_validator this PMS f cur x errors fqname
  = ('(c, added) <- call_validator this PMS f cur x [] fqname ;;
     Ok (c, (errors ++ added)%list)).
Proof.
  destruct f; cbn [call_validator].
  - unfold checkUnchanged. shift_cases.
  - unfold checkKubernetesVersion. shift_cases.
  - unfold checkNumber, invalidSettingMessage. destruct x; shift_cases.
  - unfold checkContainerEngine. shift_cases.
  - unfold checkBoolean, invalidSettingMessage. shift_cases.
  - apply checkWSLIntegrations_shift.
  - unfold checkString, invalidSettingMessage. shift_cases.
  - unfold checkPathManagementStrategy. shift_cases.
Qed.

Ltac finish_uniform :=
  cbn [bind app]; unfold push; cbn [app];
  rewrite ?orb_false_r, ?app_nil_r; reflexivity.

Lemma check_member_uniform (this : SettingsValidator)
    (PMS : PathManagementStrategy)
    (recurse : Ref -> JsVal -> list string -> string -> Res Checked)
    (member : Member Validator) (cur : Ref) (prefix k : string) (v : JsVal)
    (ch : bool) (errors : list string) :
  (forall c x e q,
     recurse c x e q
     = ('(r, a) <- recurse c x [] q ;; Ok (r, (e ++ a)%list))) ->
  check_member this PMS recurse member cur prefix k v (ch, errors)
  = ('(c, added) <- check_member this PMS recurse member cur prefix k v
                      (false, []) ;;
     Ok (c || ch, (errors ++ added)%list)).
Proof.
  intros Hrec. unfold check_member, or_changed.
  destruct member as [f|t|b|].
  - destruct (is_object v).
    + destruct (is_checkWSLIntegrations f); [|finish_uniform].
      destruct (get cur k) as [c|]; cbn [bind]; [|reflexivity].
      rewrite (checkWSLIntegrations_shift c v errors).
      destruct (checkWSLIntegrations c v [] (fqname_of prefix k))
        as [[r a]|]; finish_uniform.
    + destruct (get cur k) as [c|]; cbn [bind]; [|reflexivity].
      rewrite (call_validator_shift this PMS f c v errors).
      destruct (call_validator this PMS f c v [] (fqname_of prefix k))
        as [[r a]|]; finish_uniform.
  - destruct (is_object v).
    + destruct (get cur k) as [c|]; cbn [bind]; [|reflexivity].
      rewrite (Hrec c v errors).
      destruct (recurse c v [] (fqname_of prefix k)) as [[r a]|];
        finish_uniform.
    + destruct (to_string v); finish_uniform.
  - destruct (is_object v); [finish_uniform|].
    destruct (get cur k) as [c|]; cbn [bind]; [|reflexivity].
    destruct (call_builtin b c v); finish_uniform.
  - reflexivity.
Qed.

Lemma check_in_null_shift (new : JsVal) (errors : list string) :
  check_in_null new errors
  = ('(c, added) <- check_in_null new [] ;; Ok (c, (errors ++ added)%list)).
Proof.
  unfold check_in_null. apply for_in_shift. reflexivity.
Qed.

Lemma check_in_prototype_shift (this : SettingsValidator)
    (PMS : PathManagementStrategy) (cur : Ref) (new : JsVal)
    (errors : list string) (prefix : string) :
  check_in_prototype this PMS cur new errors prefix
  = ('(c, added) <- check_in_prototype this PMS cur new [] prefix ;;
     Ok (c, (errors ++ added)%list)).
Proof.
  unfold check_in_prototype. apply for_in_shift.
  intros k v ch e. destruct (negb (in_object_prototype k)).
  - cbn [bind]. rewrite app_nil_r. reflexivity.
  - apply check_member_uniform. intros. apply check_in_null_shift.
Qed.

Lemma check_in_literal_body_uniform (this : SettingsValidator)
    (PMS : PathManagementStrategy) (fields : list (string * Tree Validator))
    (cur : Ref) (prefix : string) :
  Forall (fun kt =>
            forall c x e q,
              check_in_literal this PMS (snd kt) c x e q
              = ('(r, a) <- check_in_literal this PMS (snd kt) c x [] q ;;
                 Ok (r, (e ++ a)%list))) fields ->
  forall k v ch errors,
    (if negb (has_key k fields || in_object_prototype k) then Ok (ch, errors)
     else
       match
         lookup k
           (map (fun kt : string * Tree Validator =>
                   let '(k, t) := kt in
                   (k, match t with
                       | Leaf f => inl f
                       | Node fields' =>
                           inr (fields', check_in_literal this PMS t)
                       end)) fields)
       with
       | Some (inl f) =>
           check_member this PMS (fun _ _ errs _ => Ok (false, errs))
             (MFunc f) cur prefix k v (ch, errors)
       | Some (inr (fields', walk)) =>
           check_member this PMS walk (MTable (TObj fields'))
             cur prefix k v (ch, errors)
       | None =>
           check_member this PMS (check_in_prototype this PMS)
             (inherited_member TProto k) cur prefix k v (ch, errors)
       end)
    = ('(c, added) <-
         (if negb (has_key k fields || in_object_prototype k)
          then Ok (false, [])
          else
            match
              lookup k
                (map (fun kt : string * Tree Validator =>
                        let '(k, t) := kt in
                        (k, match t with
                            | Leaf f => inl f
                            | Node fields' =>
                                inr (fields', check_in_literal this PMS t)
                            end)) fields)
            with
            | Some (inl f) =>
                check_member this PMS (fun _ _ errs _ => Ok (false, errs))
                  (MFunc f) cur prefix k v (false, [])
            | Some (inr (fields', walk)) =>
                check_member this PMS walk (MTable (TObj fields'))
                  cur prefix k v (false, [])
            | None =>
                check_member this PMS (check_in_prototype this PMS)
                  (inherited_member TProto k) cur prefix k v (false, [])
            end) ;;
       Ok (c || ch, (errors ++ added)%list)).
Proof.
  intros IH k v ch errors.
  destruct (negb (has_key k fields || in_object_prototype k)).
  - cbn [bind]. rewrite app_nil_r. reflexivity.
  - rewrite lookup_members.
    destruct (lookup k fields) as [[f|fields']|] eqn:L.
    + apply check_member_uniform. intros. cbn [bind].
      rewrite app_nil_r. reflexivity.
    + apply check_member_uniform.
      apply lookup_In in L. rewrite Forall_forall in IH. exact (IH _ L).
    + apply check_member_uniform. intros. apply check_in_prototype_shift.
Qed.

Lemma check_in_literal_shift (this : SettingsValidator)
    (PMS : PathManagementStrategy) (t : Tree Validator) :
  forall cur new errors prefix,
    check_in_literal this PMS t cur new errors prefix
    = ('(c, added) <- check_in_literal this PMS t cur new [] prefix ;;
       Ok (c, (errors ++ added)%list)).
Proof.
  induction t as [f|fields IH] using Tree_ind_nested;
    intros cur new errors prefix.
  - cbn. rewrite app_nil_r. reflexivity.
  - cbn [check_in_literal]. cbv zeta. apply for_in_shift.
    intros k v ch e. apply check_in_literal_body_uniform. exact IH.
Qed.

(** X1: [checkProposedSettings] only appends to the error array: called
    with some errors already collected, it returns them followed by what
    it returns from an empty array, with the same answer, and it throws in
    the same runs. *)
Theorem checkProposedSettings_appends (this : SettingsValidator)
    (PMS : PathManagementStrategy) (table : Table Validator) (cur : Ref)
    (new : JsVal) (errors : list string) (prefix : string) :
  checkProposedSettings this PMS table cur new errors prefix
  = ('(c, added) <- checkProposedSettings this PMS table cur new [] prefix ;;
     Ok (c, (errors ++ added)%list)).
Proof.
  destruct table as [fields| |]; cbn [checkProposedSettings].
  - apply check_in_literal_shift.
  - apply check_in_prototype_shift.
  - apply check_in_null_shift.
Qed.

(** The loop over the keys [p ++ q] is the loop over [p] followed by
    the loop over [q]. *)
Lemma check_keys_compose (this : SettingsValidator)
    (PMS : PathManagementStrategy) (fields : list (string * Tree Validator))
    (cur : Ref) (p q : list (string * JsVal)) (errors : list string)
    (prefix : string) :
  checkProposedSettings this PMS (TObj fields) cur (JObj (p ++ q))
    errors prefix
  = ('(c1, e1) <- checkProposedSettings this PMS (TObj fields) cur (JObj p)
                    errors prefix ;;
     '(c2, e2) <- checkProposedSettings this PMS (TObj fields) cur (JObj q)
                    e1 prefix ;;
     Ok (c2 || c1, e2)).
Proof.
  assert (IH : Forall (fun kt : string * Tree Validator =>
                         forall c x e s,
                           check_in_literal this PMS (snd kt) c x e s
                           = ('(r, a) <-
                                check_in_literal this PMS (snd kt) c x [] s ;;
                              Ok (r, (e ++ a)%list))) fields).
  { apply Forall_forall. intros kt _. apply check_in_literal_shift. }
  cbn [checkProposedSettings check_in_literal own_props]. cbv zeta.
  rewrite for_in_app.
  match goal with
  | |- bind (for_in ?body p _) _ = _ =>
      destruct (for_in body p (false, errors)) as [[c1 e1]|]; cbn [bind];
      [|reflexivity];
      rewrite (for_in_uniform body q
                 (check_in_literal_body_uniform this PMS cur prefix IH)
                 c1 e1);
      rewrite (for_in_shift body q e1
                 (check_in_literal_body_uniform this PMS cur prefix IH));
      destruct (for_in body q (false, [])) as [[c2 a2]|]; reflexivity
  end.
Qed.

(** X2: the walk over an object is the walk over its first keys followed
    by the walk over the remaining ones: the errors of both parts are
    collected in this order, an error in the first part does not stop the
    second, and the answer is the disjunction of the two answers. *)
Theorem checkProposedSettings_keys_compose (this : SettingsValidator)
    (PMS : PathManagementStrategy) (fields : list (string * Tree Validator))
    (cur : Ref) (p q : list (string * JsVal)) (errors : list string)
    (prefix : string) :
  checkProposedSettings this PMS (TObj fields) cur (JObj (p ++ q))
    errors prefix
  = ('(c1, e1) <- checkProposedSettings this PMS (TObj fields) cur (JObj p)
                    errors prefix ;;
     '(c2, e2) <- checkProposedSettings this PMS (TObj fields) cur (JObj q)
                    e1 prefix ;;
     Ok (c2 || c1, e2)).
Proof. apply check_keys_compose. Qed.

(** ** Leaf validators: what each one lets through *)

Lemma includes_In (l : list string) (des : JsVal) :
  includes l des = true <-> exists s, des = JStr s /\ In s l.
Proof.
  split.
  - destruct des; simpl; try discriminate. intros H.
    apply existsb_exists in H. destruct H as (x & Hin & Hx).
    apply String.eqb_eq in Hx. subst. eauto.
  - intros (s & -> & Hin). simpl. apply existsb_exists.
    exists s. split; [exact Hin|apply String.eqb_refl].
Qed.

Ltac reject H :=
  exfalso; unfold invalidSettingMessage in H;
  repeat match type of H with
    | context [to_string ?x] => destruct (to_string x); cbn [bind] in H
    end;
  first [discriminate H | inversion H; eapply push_neq; eauto].

(** X3: [checkBoolean] returns without a new error exactly when the
    desired value is a boolean, and [checkString] exactly when it is a
    string; the answer is then whether the value differs from the current
    one. *)
Theorem type_checks_accept_exactly (cur : Ref) (des : JsVal)
    (errors : list string) (fqname : string) (changed : bool) :
  (checkBoolean cur des errors fqname = Ok (changed, errors)
   <-> (exists b, des = JBool b) /\ changed = strict_neq cur des)
  /\
  (checkString cur des errors fqname = Ok (changed, errors)
   <-> (exists s, des = JStr s) /\ changed = strict_neq cur des).
Proof.
  unfold checkBoolean, checkString. split; split.
  - destruct des; cbn [typeof JsType_eqb negb bind]; intros H;
      try (inversion H; exfalso; eapply push_neq; eauto; fail).
    + inversion H. eauto.
    + reject H.
    + reject H.
  - intros [[b ->] ->]. reflexivity.
  - destruct des; cbn [typeof JsType_eqb negb bind]; intros H;
      try (inversion H; exfalso; eapply push_neq; eauto; fail).
    + inversion H. eauto.
    + reject H.
    + reject H.
  - intros [[s ->] ->]. reflexivity.
Qed.

(** X4: [checkKubernetesVersion] returns without a new error exactly when
    the desired value is a string of [k8sVersions]; with an empty list it
    lets nothing through; and the name of the setting plays no part in
    its result. *)
Theorem checkKubernetesVersion_accepts_exactly (this : SettingsValidator)
    (cur : Ref) (des : JsVal) (errors : list string) (fqname : string) :
  (forall changed,
     checkKubernetesVersion this cur des errors fqname = Ok (changed, errors)
     <-> (exists s, des = JStr s /\ In s (k8sVersions this))
         /\ changed = strict_neq cur des)
  /\ (forall changed,
        checkKubernetesVersion {| k8sVersions := [] |} cur des errors fqname
        <> Ok (changed, errors))
  /\ (forall fqname',
        checkKubernetesVersion this cur des errors fqname'
        = checkKubernetesVersion this cur des errors fqname).
Proof.
  unfold checkKubernetesVersion. split; [|split].
  - intros changed.
    destruct (includes (k8sVersions this) des) eqn:E; cbn [negb].
    + apply includes_In in E. split.
      * intros H. inversion H. auto.
      * intros [_ ->]. reflexivity.
    + split.
      * intros H. reject H.
      * intros [Hin _]. apply includes_In in Hin. congruence.
  - intros changed. cbn [k8sVersions].
    replace (includes [] des) with false by (destruct des; reflexivity).
    intros H. reject H.
  - reflexivity.
Qed.

(** X5: [checkPathManagementStrategy] returns without a new error exactly
    when the desired value is a value of the enumeration other than
    [NotSet]; it answers [true] exactly when that value differs from the
    current one. *)
Theorem checkPathManagementStrategy_accepts_exactly
    (PMS : PathManagementStrategy) (cur : Ref) (des : JsVal)
    (errors : list string) (fqname : string) (changed : bool) :
  checkPathManagementStrategy PMS cur des errors fqname = Ok (changed, errors)
  <-> (exists s, des = JStr s /\ In s (strategy_values PMS) /\ s <> NotSet PMS)
      /\ changed = strict_neq cur des.
Proof.
  unfold checkPathManagementStrategy.
  destruct (includes (strategy_values PMS) des) eqn:E; cbn [negb].
  - apply includes_In in E. destruct E as (s & -> & Hin).
    cbn [strict_eq]. destruct (String.eqb s (NotSet PMS)) eqn:En.
    + apply String.eqb_eq in En. split.
      * intros H. reject H.
      * intros [(s' & Hs & _ & Hne) _]. inversion Hs; subst. congruence.
    + apply String.eqb_neq in En.
      destruct (strict_neq cur (JStr s)); split; intros H;
        try (inversion H; subst; split; eauto; fail);
        destruct H as [_ ->]; reflexivity.
  - split.
    + intros H. reject H.
    + intros [(s & -> & Hin & _) _].
      assert (includes (strategy_values PMS) (JStr s) = true)
        by (apply includes_In; eauto).
      congruence.
Qed.

Lemma checkNumber_passes_iff (min max : JsNum) (cur : Ref) (des : JsVal)
    (errors : list string) (fqname : string) (changed : bool) :
  checkNumber min max cur des errors fqname = Ok (changed, errors)
  <-> (exists n, des = JNum n /\ num_lt n min || num_gt n max = false)
      /\ changed = strict_neq cur des.
Proof.
  unfold checkNumber. split.
  - destruct des; intros H; try (reject H; fail).
    destruct (num_lt n min || num_gt n max) eqn:E; [reject H|].
    inversion H. eauto.
  - intros [(n & -> & E) ->]. rewrite E. reflexivity.
Qed.

(** *** The order of numbers and their values *)

Lemma digits2_pos_bounds (m : positive) :
  2 ^ (Z.pos (digits2_pos m) - 1) <= Z.pos m < 2 ^ Z.pos (digits2_pos m).
Proof.
  induction m as [p IH|p IH|]; cbn [digits2_pos].
  - rewrite Pos2Z.inj_succ.
    replace (Z.succ (Z.pos (digits2_pos p)) - 1)
      with (Z.succ (Z.pos (digits2_pos p) - 1)) by lia.
    rewrite !Z.pow_succ_r by lia. lia.
  - rewrite Pos2Z.inj_succ.
    replace (Z.succ (Z.pos (digits2_pos p)) - 1)
      with (Z.succ (Z.pos (digits2_pos p) - 1)) by lia.
    rewrite !Z.pow_succ_r by lia. lia.
  - cbn. lia.
Qed.

Lemma bounded_inv (m : positive) (e : Z) :
  bounded prec emax m e = true ->
  -1074 <= e /\ Z.pos m < 2 ^ 53 /\ (-1074 < e -> 2 ^ 52 <= Z.pos m).
Proof.
  unfold bounded, canonical_mantissa, fexp, SpecFloat.emin, prec, emax.
  intros H. apply andb_true_iff in H. destruct H as [H _].
  apply Z.eqb_eq in H. change IntDef.Z.max with Z.max in H.
  pose proof (digits2_pos_bounds m) as [Hlo Hhi].
  set (d := Z.pos (digits2_pos m)) in *. clearbody d.
  assert (Hd : d <= 53) by lia.
  split; [lia|]. split.
  - eapply Z.lt_le_trans; [exact Hhi|]. apply Z.pow_le_mono_r; lia.
  - intros He. assert (d = 53) by lia. subst d. exact Hlo.
Qed.

Lemma scaled_lt_exp (m1 m2 : positive) (e1 e2 : Z) :
  bounded prec emax m1 e1 = true -> bounded prec emax m2 e2 = true ->
  e1 < e2 ->
  Z.pos m1 * 2 ^ (e1 + 1074) < Z.pos m2 * 2 ^ (e2 + 1074).
Proof.
  intros H1 H2 He.
  destruct (@bounded_inv _ _ H1) as (E1 & M1 & _).
  destruct (@bounded_inv _ _ H2) as (E2 & _ & M2).
  specialize (M2 ltac:(lia)).
  replace (e2 + 1074) with (Z.succ (e2 - e1 - 1) + (e1 + 1074)) by lia.
  rewrite (Z.pow_add_r 2 (Z.succ (e2 - e1 - 1)) (e1 + 1074)) by lia.
  assert (P : 0 < 2 ^ (e1 + 1074)) by (apply Z.pow_pos_nonneg; lia).
  assert (Q : 2 <= 2 ^ Z.succ (e2 - e1 - 1)).
  { rewrite Z.pow_succ_r by lia.
    assert (0 < 2 ^ (e2 - e1 - 1)) by (apply Z.pow_pos_nonneg; lia). lia. }
  change (2 ^ 53) with (2 * 2 ^ 52) in M1.
  assert (H : Z.pos m1 < 2 * Z.pos m2) by lia.
  set (p := 2 ^ (e1 + 1074)) in *. set (q := 2 ^ Z.succ (e2 - e1 - 1)) in *.
  apply Z.lt_le_trans with (2 * Z.pos m2 * p).
  - apply Z.mul_lt_mono_pos_r; assumption.
  - replace (2 * Z.pos m2 * p) with (2 * (Z.pos m2 * p)) by ring.
    replace (Z.pos m2 * (q * p)) with (q * (Z.pos m2 * p)) by ring.
    apply Z.mul_le_mono_nonneg_r; [|exact Q].
    apply Z.mul_nonneg_nonneg; lia.
Qed.

Lemma compare_mul_pos (a b p : Z) :
  0 < p -> (a * p ?= b * p) = (a ?= b).
Proof.
  intros Hp. destruct (Z.compare_spec a b) as [H|H|H].
  - subst. apply Z.compare_refl.
  - apply Z.compare_lt_iff. apply Z.mul_lt_mono_pos_r; assumption.
  - apply Z.compare_gt_iff. apply Z.mul_lt_mono_pos_r; assumption.
Qed.

Lemma SFcompare_scaled (x y : spec_float) :
  valid_binary x = true -> valid_binary y = true ->
  finite_or_zero x = true -> finite_or_zero y = true ->
  SFcompare x y = Some (scaled x ?= scaled y).
Proof.
  intros Vx Vy Fx Fy.
  destruct x as [sx|sx| |sx mx ex]; try discriminate Fx;
    destruct y as [sy|sy| |sy my ey]; try discriminate Fy;
    cbn [SFcompare scaled valid_binary] in *.
  - reflexivity.
  - destruct (@bounded_inv _ _ Vy) as (E & _).
    assert (P : 0 < 2 ^ (ey + 1074)) by (apply Z.pow_pos_nonneg; lia).
    f_equal. symmetry. destruct sy; cbn [cond_Zopp].
    + apply Z.compare_gt_iff. nia.
    + apply Z.compare_lt_iff. nia.
  - destruct (@bounded_inv _ _ Vx) as (E & _).
    assert (P : 0 < 2 ^ (ex + 1074)) by (apply Z.pow_pos_nonneg; lia).
    f_equal. symmetry. destruct sx; cbn [cond_Zopp].
    + apply Z.compare_lt_iff. nia.
    + apply Z.compare_gt_iff. nia.
  - destruct (@bounded_inv _ _ Vx) as (Ex & _).
    destruct (@bounded_inv _ _ Vy) as (Ey & _).
    assert (Px : 0 < 2 ^ (ex + 1074)) by (apply Z.pow_pos_nonneg; lia).
    assert (Py : 0 < 2 ^ (ey + 1074)) by (apply Z.pow_pos_nonneg; lia).
    f_equal. symmetry.
    change (Pos.compare_cont Eq mx my) with (Z.pos mx ?= Z.pos my).
    destruct sx, sy; cbn [cond_Zopp].
    + destruct (Z.compare_spec ex ey) as [He|He|He].
      * subst ey. rewrite compare_mul_pos by exact Px.
        rewrite Z.compare_opp. apply Z.compare_antisym.
      * apply Z.compare_gt_iff.
        pose proof (@scaled_lt_exp _ _ _ _ Vx Vy He). lia.
      * apply Z.compare_lt_iff.
        pose proof (@scaled_lt_exp _ _ _ _ Vy Vx He). lia.
    + apply Z.compare_lt_iff. nia.
    + apply Z.compare_gt_iff. nia.
    + destruct (Z.compare_spec ex ey) as [He|He|He].
      * subst ey. apply compare_mul_pos. exact Px.
      * apply Z.compare_lt_iff. apply scaled_lt_exp; assumption.
      * apply Z.compare_gt_iff. apply scaled_lt_exp; assumption.
Qed.

Lemma SF_value_scaled (x : spec_float) (q : Q) :
  valid_binary x = true -> SF_value x = Some q ->
  (q * 2 ^ 1074 == inject_Z (scaled x))%Q.
Proof.
  intros V H. destruct x as [s|s| |s m e]; try discriminate H;
    inversion H; subst q; cbn [scaled].
  - reflexivity.
  - cbn [valid_binary] in V. destruct (bounded_inv _ _ V) as (E & _).
    rewrite inject_Z_mult, Zpower_Qpower by lia.
    rewrite <- Qmult_assoc. apply Qmult_comp; [reflexivity|].
    rewrite Qpower_plus by discriminate. reflexivity.
Qed.

Lemma SF_value_finite (x : spec_float) (q : Q) :
  SF_value x = Some q -> finite_or_zero x = true.
Proof. destruct x; intros H; try discriminate H; reflexivity. Qed.

Lemma pow_1074_pos : (0 < 2 ^ 1074)%Q.
Proof. apply Qpower_0_lt. reflexivity. Qed.

(** On doubles with a value, [<] is the order of the values. *)
Lemma num_lt_value (a b : JsNum) (qa qb : Q) :
  num_value a = Some qa -> num_value b = Some qb ->
  num_lt a b = true <-> (qa < qb)%Q.
Proof.
  unfold num_value. intros Ha Hb. unfold num_lt.
  rewrite ltb_spec. unfold SFltb.
  rewrite (@SFcompare_scaled (Prim2SF a) (Prim2SF b)
             (Prim2SF_valid a) (Prim2SF_valid b)
             (@SF_value_finite _ _ Ha) (@SF_value_finite _ _ Hb)).
  rewrite <- (Qmult_lt_r qa qb _ pow_1074_pos).
  rewrite (@SF_value_scaled _ _ (Prim2SF_valid a) Ha).
  rewrite (@SF_value_scaled _ _ (Prim2SF_valid b) Hb).
  rewrite <- Zlt_Qlt.
  destruct (Z.compare_spec (scaled (Prim2SF a)) (scaled (Prim2SF b)));
    split; intros; try discriminate; try lia; reflexivity.
Qed.

Lemma Prim2SF_nan (n : JsNum) : Prim2SF n = S754_nan -> n = nan.
Proof. intros H. apply Prim2SF_inj. rewrite H. reflexivity. Qed.

Lemma Prim2SF_infinity (n : JsNum) (s : bool) :
  Prim2SF n = S754_infinity s -> n = if s then neg_infinity else infinity.
Proof. intros H. apply Prim2SF_inj. rewrite H. destruct s; reflexivity. Qed.

(** The numbers that are not below a double with a value. *)
Lemma num_lt_false_iff (n b : JsNum) (qb : Q) :
  num_value b = Some qb ->
  num_lt n b = false <->
  n = nan \/ n = infinity
  \/ exists q, num_value n = Some q /\ (qb <= q)%Q.
Proof.
  intros Hb. destruct (num_value n) as [q|] eqn:Hn.
  - pose proof (@num_lt_value _ _ _ _ Hn Hb) as L. split.
    + intros H. right. right. exists q. split; [reflexivity|].
      apply Qnot_lt_le. intros C. apply L in C. congruence.
    + intros [->|[->|(q' & E & Hq)]]; try discriminate Hn.
      inversion E; subst q'. apply not_true_is_false. intros C.
      apply L in C. eapply Qlt_not_le; eauto.
  - unfold num_value in Hn, Hb. unfold num_lt. rewrite ltb_spec.
    unfold SFltb. destruct (Prim2SF n) as [s|s| |s m e] eqn:E;
      try discriminate Hn.
    + destruct (Prim2SF b) as [t|t| |t m e]; try discriminate Hb;
        destruct s; cbn [SFcompare]; split; intros H; try discriminate H;
        try (right; left; apply (@Prim2SF_infinity _ _ E); fail);
        try reflexivity; exfalso;
        apply Prim2SF_infinity in E; cbn in E; subst n;
        destruct H as [H|[H|(q & H & _)]]; try discriminate H;
        apply (f_equal Prim2SF) in H; discriminate H.
    + split; [intros _; left; apply Prim2SF_nan; exact E|reflexivity].
Qed.

(** The numbers that are not above a double with a value. *)
Lemma num_gt_false_iff (n b : JsNum) (qb : Q) :
  num_value b = Some qb ->
  num_gt n b = false <->
  n = nan \/ n = neg_infinity
  \/ exists q, num_value n = Some q /\ (q <= qb)%Q.
Proof.
  intros Hb. change (num_gt n b) with (num_lt b n).
  destruct (num_value n) as [q|] eqn:Hn.
  - pose proof (@num_lt_value _ _ _ _ Hb Hn) as L. split.
    + intros H. right. right. exists q. split; [reflexivity|].
      apply Qnot_lt_le. intros C. apply L in C. congruence.
    + intros [->|[->|(q' & E & Hq)]]; try discriminate Hn.
      inversion E; subst q'. apply not_true_is_false. intros C.
      apply L in C. eapply Qlt_not_le; eauto.
  - unfold num_value in Hn, Hb. unfold num_lt. rewrite ltb_spec.
    unfold SFltb. destruct (Prim2SF n) as [s|s| |s m e] eqn:E;
      try discriminate Hn.
    + destruct (Prim2SF b) as [t|t| |t m e]; try discriminate Hb;
        destruct s; cbn [SFcompare]; split; intros H; try discriminate H;
        try (right; left; apply (@Prim2SF_infinity _ _ E); fail);
        try reflexivity; exfalso;
        apply Prim2SF_infinity in E; cbn in E; subst n;
        destruct H as [H|[H|(q & H & _)]]; try discriminate H;
        apply (f_equal Prim2SF) in H; discriminate H.
    + destruct (Prim2SF b); (split; [intros _; left; apply Prim2SF_nan;
                                     exact E|reflexivity]).
Qed.

(** No number is above [Infinity]. *)
Lemma num_gt_infinity (n : JsNum) : num_gt n infinity = false.
Proof.
  unfold num_gt. rewrite ltb_spec.
  change (Prim2SF infinity) with (S754_infinity false).
  destruct (Prim2SF n) as [s|s| |s m e]; try reflexivity.
  destruct s; reflexivity.
Qed.

(** X6: the numbers that [checkNumber] lets through without an error,
    for the bounds of the verifier.  For the port they are [NaN] and the
    doubles, fractions included, whose value lies between 1 and 65535;
    for the memory and the number of CPUs they are [NaN], [Infinity] and
    the doubles whose value is not negative (the zero with a sign among
    them).  The answer is then whether the value differs from the current
    one. *)
Theorem checkNumber_accepts_exactly (cur : Ref) (des : JsVal)
    (errors : list string) (fqname : string) (changed : bool) :
  (checkNumber 1 65535 cur des errors fqname = Ok (changed, errors)
   <-> (exists n, des = JNum n
                  /\ (n = nan
                      \/ exists q, num_value n = Some q
                                   /\ (1 <= q <= 65535)%Q))
       /\ changed = strict_neq cur des)
  /\
  (checkNumber 0 infinity cur des errors fqname = Ok (changed, errors)
   <-> (exists n, des = JNum n
                  /\ (n = nan \/ n = infinity
                      \/ exists q, num_value n = Some q /\ (0 <= q)%Q))
       /\ changed = strict_neq cur des).
Proof.
  assert (V1 : exists q, num_value 1 = Some q /\ (q == 1)%Q)
    by (eexists; split; reflexivity).
  assert (V2 : exists q, num_value 65535 = Some q /\ (q == 65535)%Q)
    by (eexists; split; reflexivity).
  assert (V0 : num_value 0 = Some 0%Q) by reflexivity.
  destruct V1 as (q1 & V1 & E1). destruct V2 as (q2 & V2 & E2).
  split; rewrite checkNumber_passes_iff; split; intros [H ->];
    (split; [|reflexivity]); destruct H as (n & -> & H); exists n;
    (split; [reflexivity|]).
  - apply orb_false_iff in H. destruct H as [Hl Hg].
    apply (@num_lt_false_iff n _ _ V1) in Hl. apply (@num_gt_false_iff n _ _ V2) in Hg.
    destruct Hl as [->|[->|(q & Hq & Hl)]]; [left; reflexivity| |].
    + exfalso. destruct Hg as [H|[H|(q & H & _)]]; try discriminate H;
        apply (f_equal Prim2SF) in H; discriminate H.
    + right. exists q. split; [exact Hq|]. rewrite <- E1, <- E2.
      split; [exact Hl|].
      destruct Hg as [->|[->|(q' & Hq' & Hg)]]; try discriminate Hq.
      rewrite Hq in Hq'. inversion Hq'; subst q'. exact Hg.
  - apply orb_false_iff. split.
    + apply (@num_lt_false_iff n _ _ V1).
      destruct H as [->|(q & Hq & Hl & Hg)]; [left; reflexivity|].
      right. right. exists q. rewrite E1. auto.
    + apply (@num_gt_false_iff n _ _ V2).
      destruct H as [->|(q & Hq & Hl & Hg)]; [left; reflexivity|].
      right. right. exists q. rewrite E2. auto.
  - apply orb_false_iff in H. destruct H as [Hl _].
    apply (@num_lt_false_iff n _ _ V0) in Hl. exact Hl.
  - apply orb_false_iff. split.
    + apply (@num_lt_false_iff n _ _ V0). exact H.
    + apply num_gt_infinity.
Qed.

(** The port 80.5 and 2.5 gigabytes of memory pass. *)
Lemma checkNumber_accepts_fractions :
  checkNumber 1 65535 (Data (JNum 6443)) (JNum 80.5) [] "kubernetes.port"
  = Ok (true, [])
  /\ checkNumber 0 infinity (Data (JNum 2)) (JNum 2.5) []
       "kubernetes.memoryInGB"
     = Ok (true, []).
Proof.
  split.
  - apply (proj1 (checkNumber_accepts_exactly (Data (JNum 6443))
                    (JNum 80.5) [] "kubernetes.port" true)).
    split; [|reflexivity]. exists 80.5%float. split; [reflexivity|].
    right. eexists. split; [reflexivity|]. split; discriminate.
  - apply (proj2 (checkNumber_accepts_exactly (Data (JNum 2))
                    (JNum 2.5) [] "kubernetes.memoryInGB" true)).
    split; [|reflexivity]. exists 2.5%float. split; [reflexivity|].
    right. right. eexists. split; [reflexivity|]. discriminate.
Defined.


(** ** Leaf canonicalizers: what each one rewrites *)

Lemma str_app_assoc (a b c : string) : (a ++ b) ++ c = a ++ (b ++ c).
Proof. induction a; simpl; congruence. Qed.

Ltac norm_app := repeat (progress (rewrite ?str_app_assoc; cbn [append])).

Lemma expect_spec (p s r : string) : expect p s = Some r -> s = p ++ r.
Proof.
  revert s. induction p as [|a p IH]; simpl; intros s H.
  - congruence.
  - destruct s as [|b s]; [discriminate|].
    destruct (Ascii.eqb a b) eqn:E; [|discriminate].
    apply Ascii.eqb_eq in E. subst b. f_equal. apply IH. exact H.
Qed.

Lemma expect_app (p r : string) : expect p (p ++ r) = Some r.
Proof.
  induction p as [|a p IH]; simpl; [reflexivity|].
  rewrite Ascii.eqb_refl. exact IH.
Qed.

Lemma three_numbers_spec (s m r : string) :
  three_numbers s = Some (m, r) ->
  bare_version m /\ s = m ++ r /\ no_digit_ahead r.
Proof.
  unfold three_numbers. intros H.
  destruct (digits1 s) as [[a s1]|] eqn:E1; [|discriminate].
  destruct (expect "." s1) as [s2|] eqn:E2; [|discriminate].
  destruct (digits1 s2) as [[b s3]|] eqn:E3; [|discriminate].
  destruct (expect "." s3) as [s4|] eqn:E4; [|discriminate].
  destruct (digits1 s4) as [[c s5]|] eqn:E5; [|discriminate].
  inversion H; subst. clear H.
  apply digits1_spec in E1. destruct E1 as (Na & Da & -> & _).
  apply digits1_spec in E3. destruct E3 as (Nb & Db & -> & _).
  apply digits1_spec in E5. destruct E5 as (Nc & Dc & -> & Hr).
  apply expect_spec in E2, E4. subst.
  split; [exists a, b, c; unfold number_text; auto|].
  split; [|exact Hr].
  norm_app. reflexivity.
Qed.

Lemma three_numbers_app (m r : string) :
  bare_version m -> no_digit_ahead r -> three_numbers (m ++ r) = Some (m, r).
Proof.
  intros (a & b & c & [Na Da] & [Nb Db] & [Nc Dc] & ->) Hr.
  unfold three_numbers. norm_app.
  rewrite (@digits1_app a _ Na Da) by reflexivity.
  cbn [expect Ascii.eqb Bool.eqb].
  rewrite (@digits1_app b _ Nb Db) by reflexivity.
  cbn [expect Ascii.eqb Bool.eqb].
  rewrite (@digits1_app c r Nc Dc Hr). reflexivity.
Qed.

Lemma k3s_suffix_spec (r : string) (m3 : bool) :
  k3s_suffix r = Some m3 <->
  (m3 = false /\ r = EmptyString)
  \/ (m3 = true /\ exists n, number_text n /\ r = "+k3s" ++ n).
Proof.
  unfold k3s_suffix. split.
  - destruct r as [|c r]; [intros H; inversion H; auto|].
    destruct (expect "+k3s" (String c r)) as [s1|] eqn:E; [|discriminate].
    destruct (digits1 s1) as [[n [|? ?]]|] eqn:En; try discriminate.
    intros H. inversion H. right. split; [reflexivity|].
    apply expect_spec in E. apply digits1_spec in En.
    destruct En as (Nn & Dn & -> & _). rewrite string_app_empty in E.
    exists n. unfold number_text. auto.
  - intros [[-> ->]|(-> & n & [Nn Dn] & ->)]; [reflexivity|].
    cbn [append]. rewrite (expect_app "+k3s" n : expect "+k3s" (String "+" (String "k" (String "3" (String "s" n)))) = Some n).
    rewrite <- (string_app_empty n) at 1.
    rewrite (digits1_app _ Nn Dn) by exact I. reflexivity.
Qed.

Lemma not_v_head (c : ascii) (s : string) :
  c <> "v"%char ->
  match String c s with
  | String "v" r => (true, r)
  | _ => (false, String c s)
  end = (false, String c s).
Proof.
  intros H. destruct c as [[] [] [] [] [] [] [] []]; try reflexivity.
  congruence.
Qed.

Lemma bare_version_head (m : string) :
  bare_version m -> exists c r, m = String c r /\ c <> "v"%char.
Proof.
  intros (a & b & c & [Na Da] & _ & _ & ->).
  destruct a as [|x a]; [congruence|]. simpl in Da.
  apply andb_true_iff in Da. destruct Da as [Dx _].
  exists x. eexists. split; [reflexivity|]. intros ->. discriminate.
Qed.

(** The pattern matches [s] with groups [m1], [m2], [m3] exactly when
    [s] is an optional [v], the bare version [m2] and an optional
    [+k3s] suffix with its number. *)
Lemma ptn_exec_spec (s m2 : string) (m1 m3 : bool) :
  ptn_exec s = Some (m1, m2, m3) <->
  bare_version m2
  /\ exists suf,
       s = (if m1 then "v" else EmptyString) ++ m2 ++ suf
       /\ ((m3 = false /\ suf = EmptyString)
           \/ (m3 = true /\ exists n, number_text n /\ suf = "+k3s" ++ n)).
Proof.
  split.
  - unfold ptn_exec. intros H.
    assert (Hs : exists s1, s = (if m1 then "v" else EmptyString) ++ s1
                 /\ match three_numbers s1 with
                    | None => None
                    | Some (m, r) =>
                        match k3s_suffix r with
                        | None => None
                        | Some b => Some (m1, m, b)
                        end
                    end = Some (m1, m2, m3)).
    { destruct s as [|c s]; [simpl in H; discriminate|].
      destruct (ascii_dec c "v") as [->|Hc].
      - destruct (three_numbers s) as [[m r]|] eqn:E; [|discriminate].
        destruct (k3s_suffix r) eqn:Ek; [|discriminate].
        inversion H; subst. exists s. rewrite E, Ek. auto.
      - rewrite (@not_v_head c s Hc) in H.
        destruct (three_numbers (String c s)) as [[m r]|] eqn:E;
          [|discriminate].
        destruct (k3s_suffix r) eqn:Ek; [|discriminate].
        inversion H; subst. exists (String c s). rewrite E, Ek. auto. }
    destruct Hs as (s1 & -> & H1).
    destruct (three_numbers s1) as [[m r]|] eqn:E; [|discriminate].
    destruct (k3s_suffix r) as [b|] eqn:Ek; [|discriminate].
    inversion H1; subst. apply three_numbers_spec in E.
    destruct E as (Hm & -> & _). split; [exact Hm|].
    exists r. split; [reflexivity|]. apply k3s_suffix_spec. exact Ek.
  - intros (Hm & suf & -> & Hsuf).
    assert (Hn : no_digit_ahead suf)
      by (destruct Hsuf as [[_ ->]|(_ & n & _ & ->)]; [exact I|reflexivity]).
    apply k3s_suffix_spec in Hsuf. unfold ptn_exec.
    destruct m1; cbn [append].
    + rewrite (@three_numbers_app _ _ Hm Hn), Hsuf. reflexivity.
    + destruct (@bare_version_head _ Hm) as (c & r & Hcr & Hc).
      pose proof (@three_numbers_app _ _ Hm Hn) as Ht.
      rewrite Hcr in *. cbn [append] in *.
      rewrite (@not_v_head c (r ++ suf) Hc), Ht, Hsuf. reflexivity.
Qed.

(** X7: on a string, [canonicalizeKubernetesVersion] assigns a value
    exactly when the string is a bare version MAJOR.MINOR.PATCH with a
    leading [v], a trailing [+k3s] and number, or both; the value assigned
    is that bare version, digits untouched.  A bare version by itself is
    left alone, and no string makes the function throw. *)
Theorem canonicalizeKubernetesVersion_strips (s : string) :
  (forall m,
     canonicalizeKubernetesVersion (JStr s) = Ok (Some m)
     <-> exists pre v suf,
           m = JStr v /\ bare_version v /\ s = pre ++ v ++ suf
           /\ (pre = EmptyString \/ pre = "v")
           /\ (suf = EmptyString
               \/ exists n, number_text n /\ suf = "+k3s" ++ n)
           /\ (pre = "v" \/ suf <> EmptyString))
  /\ (bare_version s -> canonicalizeKubernetesVersion (JStr s) = Ok None)
  /\ (exists r, canonicalizeKubernetesVersion (JStr s) = Ok r).
Proof.
  unfold canonicalizeKubernetesVersion. cbn [to_string bind].
  split; [|split].
  - intros m. split.
    + destruct (ptn_exec s) as [[[m1 m2] m3]|] eqn:E; [|discriminate].
      destruct (m1 || m3) eqn:B; [|discriminate].
      intros H. inversion H; subst m. apply ptn_exec_spec in E.
      destruct E as (Hv & suf & -> & Hsuf).
      exists (if m1 then "v" else EmptyString), m2, suf.
      repeat split; auto.
      * destruct m1; auto.
      * destruct Hsuf as [[_ ->]|(_ & n & Hn & ->)]; eauto.
      * destruct m1; [auto|]. simpl in B. subst m3.
        destruct Hsuf as [[H1 _]|(_ & n & _ & ->)];
          [discriminate|right; discriminate].
    + intros (pre & v & suf & -> & Hv & -> & Hpre & Hsuf & Hne).
      assert (E : ptn_exec (pre ++ v ++ suf)
                  = Some (if string_dec pre "v" then true else false, v,
                          if string_dec suf EmptyString then false else true)).
      { apply ptn_exec_spec. split; [exact Hv|]. exists suf. split.
        - destruct Hpre as [->| ->]; reflexivity.
        - destruct (string_dec suf EmptyString) as [->|Hs]; [auto|].
          right. split; [reflexivity|].
          destruct Hsuf as [->|Hn]; [congruence|exact Hn]. }
      rewrite E.
      destruct (string_dec pre "v"); [reflexivity|].
      destruct (string_dec suf EmptyString); [|reflexivity].
      destruct Hne; congruence.
  - intros Hv.
    assert (E : ptn_exec s = Some (false, s, false)).
    { apply ptn_exec_spec. split; [exact Hv|]. exists EmptyString.
      cbn [append]. rewrite string_app_empty. auto. }
    rewrite E. reflexivity.
  - destruct (ptn_exec s) as [[[m1 m2] m3]|]; [destruct (m1 || m3)|]; eauto.
Qed.

(** ** A canonicalizer followed by its validator *)

Lemma checkBoolean_passes (cur : Ref) (y : JsVal) (errors : list string)
    (fqname : string) :
  (exists c, checkBoolean cur y errors fqname = Ok (c, errors))
  <-> exists b, y = JBool b.
Proof.
  unfold checkBoolean. split.
  - intros [c H]. destruct y; cbn [typeof JsType_eqb negb] in H;
      try (reject H; fail). eauto.
  - intros [b ->]. eexists. reflexivity.
Qed.

Lemma checkContainerEngine_passes (cur : Ref) (y : JsVal)
    (errors : list string) (fqname : string) :
  (exists c, checkContainerEngine cur y errors fqname = Ok (c, errors))
  <-> y = JStr "containerd" \/ y = JStr "moby".
Proof.
  unfold checkContainerEngine. split.
  - intros [c H].
    destruct (includes ["containerd"; "moby"] y) eqn:E; cbn [negb] in H;
      [|reject H].
    apply includes_In in E. destruct E as (s & -> & [<-|[<-|[]]]); auto.
  - intros [-> | ->]; eexists; reflexivity.
Qed.

(** X8: [canonicalizeBool] never throws, and [checkBoolean] returns
    without a new error on the value it leaves exactly when the value
    proposed is a boolean or one of the strings ['true'] and ['false'];
    it assigns a value to these two strings only. *)
Theorem canonicalizeBool_then_checkBoolean (cur : Ref) (x : JsVal)
    (errors : list string) (fqname : string) :
  exists r,
    canonicalizeBool x = Ok r
    /\ ((exists c,
           checkBoolean cur (assigned r x) errors fqname = Ok (c, errors))
        <-> (exists b, x = JBool b) \/ x = JStr "true" \/ x = JStr "false")
    /\ (r <> None <-> x = JStr "true" \/ x = JStr "false").
Proof.
  unfold canonicalizeBool.
  destruct (strict_eq x (JStr "true")) eqn:Et.
  { destruct x; try discriminate Et. apply String.eqb_eq in Et. subst.
    eexists. split; [reflexivity|]. split.
    - rewrite checkBoolean_passes. cbn [assigned]. split; eauto.
    - split; [auto|discriminate]. }
  destruct (strict_eq x (JStr "false")) eqn:Ef.
  { destruct x; try discriminate Ef. apply String.eqb_eq in Ef. subst.
    eexists. split; [reflexivity|]. split.
    - rewrite checkBoolean_passes. cbn [assigned]. split; eauto.
    - split; [auto|discriminate]. }
  assert (Hx : ~ (x = JStr "true" \/ x = JStr "false")).
  { intros [-> | ->]; discriminate. }
  eexists. split; [reflexivity|]. split.
  - rewrite checkBoolean_passes. cbn [assigned]. split; [auto|].
    intros [H|H]; [exact H|contradiction].
  - split; [congruence|contradiction].
Qed.

(** X9: [canonicalizeContainerEngine] never throws, and
    [checkContainerEngine] returns without a new error on the value it
    leaves exactly when the value proposed is ['containerd'], ['docker']
    or ['moby'], the three engines that the error message names. *)
Theorem canonicalizeContainerEngine_then_check (cur : Ref) (x : JsVal)
    (errors : list string) (fqname : string) :
  exists r,
    canonicalizeContainerEngine x = Ok r
    /\ ((exists c,
           checkContainerEngine cur (assigned r x) errors fqname
           = Ok (c, errors))
        <-> x = JStr "containerd" \/ x = JStr "docker" \/ x = JStr "moby").
Proof.
  unfold canonicalizeContainerEngine.
  destruct (strict_eq x (JStr "docker")) eqn:Ed.
  - destruct x; try discriminate Ed. apply String.eqb_eq in Ed. subst.
    eexists. split; [reflexivity|].
    rewrite checkContainerEngine_passes. cbn [assigned]. split; auto.
  - eexists. split; [reflexivity|].
    rewrite checkContainerEngine_passes. cbn [assigned]. split.
    + intros [H|H]; auto.
    + intros [H|[H|H]]; auto. subst. discriminate.
Qed.

(** ** The validating walk: one key at a time *)

Lemma for_in_ext {S : Type} (body body' : string -> JsVal -> S -> Res S)
    (props : list (string * JsVal)) (st : S) :
  (forall k v st, body k v st = body' k v st) ->
  for_in body props st = for_in body' props st.
Proof.
  intros H. revert st. induction props as [|[k v] props IH]; intros st;
    simpl; [reflexivity|].
  rewrite H. destruct (body' k v st); simpl; auto.
Qed.

(** The loop of [checkProposedSettings] on an object literal, with
    [allowedSettings[k]] read from the literal. *)
Lemma check_in_literal_Node (this : SettingsValidator)
    (PMS : PathManagementStrategy) (fields : list (string * Tree Validator))
    (cur : Ref) (new : JsVal) (errors : list string) (prefix : string) :
  check_in_literal this PMS (Node fields) cur new errors prefix
  = for_in
      (fun k v st =>
         if negb (has_key k fields || in_object_prototype k) then Ok st
         else
           match lookup k fields with
           | Some (Leaf f) =>
               check_member this PMS (fun _ _ errs _ => Ok (false, errs))
                 (MFunc f) cur prefix k v st
           | Some (Node fields') =>
               check_member this PMS
                 (check_in_literal this PMS (Node fields'))
                 (MTable (TObj fields')) cur prefix k v st
           | None =>
               check_member this PMS (check_in_prototype this PMS)
                 (inherited_member TProto k) cur prefix k v st
           end)
      (own_props new) (false, errors).
Proof.
  cbn [check_in_literal]. cbv zeta. apply for_in_ext. intros k v st.
  rewrite lookup_members.
  destruct (lookup k fields) as [[f|fields']|]; reflexivity.
Qed.

Lemma lookup_Some_has_key {A : Type} (k : string) (l : list (string * A))
    (x : A) :
  lookup k l = Some x -> has_key k l = true.
Proof.
  induction l as [|[k' y] l IH]; simpl; [discriminate|].
  destruct (String.eqb k k'); [reflexivity|exact IH].
Qed.

Lemma for_in_skip {S : Type} (body : string -> JsVal -> S -> Res S)
    (props : list (string * JsVal)) (st : S) :
  (forall k x, In (k, x) props -> body k x st = Ok st) ->
  for_in body props st = Ok st.
Proof.
  induction props as [|[k x] props IH]; intros H; simpl; [reflexivity|].
  rewrite (H k x (or_introl eq_refl)). cbn [bind].
  apply IH. intros; apply H; right; assumption.
Qed.

(** What [for ... in] enumerates in a value that is no plain object are
    indices. *)
Lemma own_props_indices (v : JsVal) (k : string) :
  (forall props, v <> JObj props) -> In k (map fst (own_props v)) ->
  starts_with_digit k = true /\ in_object_prototype k = false.
Proof.
  intros Hv Hin. destruct v; simpl in Hin; try contradiction.
  - split; [eapply indexed_keys_start_with_digit
           |eapply indexed_keys_not_in_object_prototype]; eauto.
  - split; [eapply indexed_keys_start_with_digit
           |eapply indexed_keys_not_in_object_prototype]; eauto.
  - exfalso. eapply Hv; eauto.
Qed.

Lemma digit_free_has_key {F : Type} (fields : list (string * Tree F))
    (k : string) :
  digit_free (Node fields) = true -> starts_with_digit k = true ->
  has_key k fields = false.
Proof.
  intros Hd Hk. destruct (lookup k fields) as [t|] eqn:L.
  - destruct (digit_free_lookup _ _ Hd L) as [H _]. congruence.
  - apply lookup_None_has_key. exact L.
Qed.

(** Under a verifier with no key that begins with a digit, the walk over
    a value that is no plain object (an array, [null], a string) finds
    no key to check. *)
Lemma check_in_literal_not_object (this : SettingsValidator)
    (PMS : PathManagementStrategy) (fields : list (string * Tree Validator))
    (cur : Ref) (v : JsVal) (errors : list string) (prefix : string) :
  digit_free (Node fields) = true -> (forall props, v <> JObj props) ->
  check_in_literal this PMS (Node fields) cur v errors prefix
  = Ok (false, errors).
Proof.
  intros Hd Hv. rewrite check_in_literal_Node. apply for_in_skip.
  intros k x Hin. apply (in_map fst) in Hin. simpl in Hin.
  destruct (@own_props_indices v k Hv Hin) as [Hk Hp].
  rewrite (@digit_free_has_key _ fields k Hd Hk), Hp. reflexivity.
Qed.

(** X10: where the verifier holds a nested object literal, a proposed
    [null] or array is walked into like an object; none of its keys, if
    any, is in the literal, so it adds no error and no change, and the
    walk goes on as if the key were not there. *)
Theorem interior_null_or_array_passed_over (this : SettingsValidator)
    (PMS : PathManagementStrategy)
    (fields fields' : list (string * Tree Validator))
    (props q : list (string * JsVal)) (k : string) (v : JsVal)
    (errors : list string) (prefix : string) :
  lookup k fields = Some (Node fields') ->
  digit_free (Node fields') = true ->
  v = JNull \/ (exists l, v = JArr l) ->
  checkProposedSettings this PMS (TObj fields) (Data (JObj props))
    (JObj ((k, v) :: q)) errors prefix
  = checkProposedSettings this PMS (TObj fields) (Data (JObj props))
      (JObj q) errors prefix.
Proof.
  intros Hl Hd Hv. unfold checkProposedSettings.
  rewrite !check_in_literal_Node. cbn [own_props for_in].
  rewrite (lookup_Some_has_key _ _ Hl), Hl. cbn [orb negb].
  unfold check_member.
  assert (Ho : is_object v = true)
    by (destruct Hv as [->|[l ->]]; reflexivity).
  rewrite Ho, get_object. cbn [bind].
  rewrite check_in_literal_not_object;
    [|exact Hd|destruct Hv as [->|[l ->]]; discriminate].
  reflexivity.
Qed.

Lemma interior_null_or_array_passed_over_sample :
  checkProposedSettings sample_validator sample_strategies
    (TObj allowedSettings) (Data sample_settings)
    (JObj [("kubernetes", JArr [JStr "port"; JNum 80]);
           ("telemetry", JBool false)]) [] EmptyString
  = checkProposedSettings sample_validator sample_strategies
      (TObj allowedSettings) (Data sample_settings)
      (JObj [("telemetry", JBool false)]) [] EmptyString.
Proof.
  eapply (@interior_null_or_array_passed_over sample_validator
            sample_strategies allowedSettings).
  - reflexivity.
  - reflexivity.
  - right. eexists. reflexivity.
Defined.

(** X11: a proposed value of the wrong shape is reported and the walk
    goes on with the remaining keys.  A value that is no object, where
    the verifier holds a nested object literal, gives the error that the
    setting should wrap an inner object; an object, [null] or an array,
    where the verifier holds a function other than [checkWSLIntegrations],
    gives the error that the setting should be a simple value, with the
    JSON text of the value.  The current settings are not read. *)
Theorem wrong_shape_reported (this : SettingsValidator)
    (PMS : PathManagementStrategy) (fields : list (string * Tree Validator))
    (cur : Ref) (q : list (string * JsVal)) (k : string) (v : JsVal)
    (errors : list string) (prefix : string) :
  (forall fields',
     lookup k fields = Some (Node fields') -> is_object v = false ->
     exists s,
       to_string v = Ok s
       /\ checkProposedSettings this PMS (TObj fields) cur
            (JObj ((k, v) :: q)) errors prefix
          = checkProposedSettings this PMS (TObj fields) cur (JObj q)
              (push errors
                 ("Setting " ++ fqname_of prefix k
                  ++ " should wrap an inner object, but got <" ++ s ++ ">."))
              prefix)
  /\
  (forall f,
     lookup k fields = Some (Leaf f) -> is_checkWSLIntegrations f = false ->
     is_object v = true ->
     checkProposedSettings this PMS (TObj fields) cur
       (JObj ((k, v) :: q)) errors prefix
     = checkProposedSettings this PMS (TObj fields) cur (JObj q)
         (push errors
            ("Setting " ++ fqname_of prefix k
             ++ " should be a simple value, but got <"
             ++ JSON_stringify v ++ ">."))
         prefix).
Proof.
  split.
  - intros fields' Hl Ho.
    destruct (to_string_not_object _ Ho) as [s Hs]. exists s.
    split; [exact Hs|]. unfold checkProposedSettings.
    rewrite !check_in_literal_Node. cbn [own_props for_in].
    rewrite (lookup_Some_has_key _ _ Hl), Hl. cbn [orb negb].
    unfold check_member. rewrite Ho, Hs. reflexivity.
  - intros f Hl Hf Ho. unfold checkProposedSettings.
    rewrite !check_in_literal_Node. cbn [own_props for_in].
    rewrite (lookup_Some_has_key _ _ Hl), Hl. cbn [orb negb].
    unfold check_member. rewrite Ho, Hf. reflexivity.
Qed.

(** X12: [validateSettings] gives the same result on a proposal and on
    the tree that [canonicalizeSynonyms] makes of it: validating what an
    earlier call has canonicalized in place changes nothing. *)
Theorem validateSettings_of_canonical (this : SettingsValidator)
    (PMS : PathManagementStrategy) (currentSettings newSettings : JsVal)
    (canonical : JsVal) :
  canonicalizeSynonyms newSettings = Ok canonical ->
  validateSettings this PMS currentSettings canonical
  = validateSettings this PMS currentSettings newSettings.
Proof.
  intros H. unfold validateSettings. rewrite H.
  unfold canonicalizeSynonyms, canonicalizeSettings in *.
  rewrite (canonicalize_in_literal_idem _ _ _ H). reflexivity.
Qed.

Lemma validateSettings_of_canonical_sample :
  validateSettings sample_validator sample_strategies sample_settings
    (JObj [("kubernetes", JObj [("version", JStr "1.2.4");
                                ("enabled", JBool false)])])
  = validateSettings sample_validator sample_strategies sample_settings
      (JObj [("kubernetes", JObj [("version", JStr "v1.2.4+k3s1");
                                  ("enabled", JStr "false")])]).
Proof.
  apply validateSettings_of_canonical. reflexivity.
Defined.

(** ** Sample runs of the properties with hypotheses *)

Lemma validateSettings_returns_sample :
  exists ok errors,
    validateSettings sample_validator sample_strategies sample_settings
      (JObj [("kubernetes", JObj [("port", JStr "eighty");
                                  ("options", JNum 3)]);
             ("plugins", JArr [JNull])])
    = Ok (ok, errors).
Proof.
  apply validateSettings_returns; reflexivity.
Defined.

Lemma unknown_key_skipped_sample :
  checkProposedSettings sample_validator sample_strategies
    (TObj allowedSettings) (Data sample_settings)
    (JObj ([("telemetry", JBool false)]
           ++ ("plugins", JObj [("telemetry", JStr "x")])
           :: [("debug", JBool true)])) [] EmptyString
  = checkProposedSettings sample_validator sample_strategies
      (TObj allowedSettings) (Data sample_settings)
      (JObj ([("telemetry", JBool false)] ++ [("debug", JBool true)]))
      [] EmptyString.
Proof.
  apply unknown_key_skipped; reflexivity.
Defined.

Lemma checkWSLIntegrations_same_entries_sample :
  checkWSLIntegrations
    (Data (JObj [("Ubuntu", JBool true); ("Debian", JStr "on")]))
    (JObj [("Debian", JStr "on"); ("Ubuntu", JBool true)])
    [] "kubernetes.WSLIntegrations"
  = Ok (false, []).
Proof.
  eapply (@checkWSLIntegrations_same_entries
            [("Ubuntu", JBool true); ("Debian", JStr "on")]
            [("Debian", JStr "on"); ("Ubuntu", JBool true)]).
  - apply perm_swap.
  - reflexivity.
  - cbn [map fst]. constructor.
    + intros [H|[]]. discriminate H.
    + constructor; [intros []|constructor].
Defined.

(** ** More on the walks *)

(** X16: on a plain tree [canonicalizeSynonyms] returns, and the tree it
    returns is plain again. *)
Theorem canonicalizeSynonyms_plain (newSettings : JsVal) :
  plain newSettings = true ->
  exists canonical,
    canonicalizeSynonyms newSettings = Ok canonical
    /\ plain canonical = true.
Proof.
  intros Hp. destruct (canonicalizeSynonyms_returns _ Hp) as [canonical H].
  exists canonical. split; [exact H|].
  eapply canonicalize_in_literal_plain; eauto.
Qed.

Lemma canonicalizeSynonyms_plain_sample :
  exists canonical,
    canonicalizeSynonyms
      (JObj [("kubernetes", JObj [("version", JArr [JStr "v1.2.3"]);
                                  ("enabled", JStr "false")])])
    = Ok canonical
    /\ plain canonical = true.
Proof.
  apply canonicalizeSynonyms_plain. reflexivity.
Defined.

Lemma sort_keys_plain (m : list (string * JsVal)) :
  plain (JObj m) = true -> exists ks, sort_keys m = Ok ks.
Proof.
  induction m as [|[k x] m IH]; intros Hp; [simpl; eauto|].
  apply plain_JObj_iff in Hp. cbn [map fst snd] in Hp.
  destruct Hp as [Hk Hx].
  inversion Hk as [|? ? Hk1 Hk2]; inversion Hx as [|? ? Hx1 Hx2]; subst.
  destruct IH as [ks Hks]; [apply plain_JObj_iff; auto|].
  assert (He : plain (entry (k, x)) = true).
  { unfold entry. cbn [plain forallb fst snd]. rewrite Hx1. reflexivity. }
  destruct (to_string_plain _ He) as [s Hs].
  cbn [sort_keys]. rewrite Hs, Hks. cbn [bind]. eauto.
Qed.

(** A plain map compared with itself. *)
Lemma checkWSLIntegrations_identical (m : list (string * JsVal))
    (errors : list string) (fqname : string) :
  plain (JObj m) = true ->
  checkWSLIntegrations (Data (JObj m)) (JObj m) errors fqname
  = Ok (false, errors).
Proof.
  intros Hp. unfold checkWSLIntegrations, stableSerializeWSLIntegrations.
  cbn [typeof JsType_eqb negb Object_entries own_props bind].
  assert (Hs : exists sorted, Array_sort m = Ok sorted).
  { destruct (sort_keys_plain _ Hp) as [ks Hks]. unfold Array_sort.
    destruct m as [|a [|b m]]; eauto. rewrite Hks. cbn [bind]. eauto. }
  destruct Hs as [sorted ->]. cbn [bind].
  rewrite String.eqb_refl. reflexivity.
Qed.

(** X17: a plain map proposed for a wildcard field that holds the very
    same entries in the same order passes [checkWSLIntegrations]: no
    error, no change. *)
Theorem checkWSLIntegrations_same_map (m : list (string * JsVal))
    (errors : list string) (fqname : string) :
  plain (JObj m) = true ->
  checkWSLIntegrations (Data (JObj m)) (JObj m) errors fqname
  = Ok (false, errors).
Proof. apply checkWSLIntegrations_identical. Qed.

Lemma checkWSLIntegrations_same_map_sample :
  checkWSLIntegrations
    (Data (JObj [("Ubuntu", JBool true); ("a,b", JStr "c");
                 ("a", JStr "b,c")]))
    (JObj [("Ubuntu", JBool true); ("a,b", JStr "c"); ("a", JStr "b,c")])
    [] "kubernetes.WSLIntegrations"
  = Ok (false, []).
Proof.
  apply checkWSLIntegrations_same_map. reflexivity.
Defined.

(** X18: when the current settings lack a nested object that the
    proposal fills in, the walk reads a setting of [undefined] and
    throws: a proposed value that is no object, under a key of the
    nested literal that holds a validator, is never validated. *)
Theorem missing_section_throws (this : SettingsValidator)
    (PMS : PathManagementStrategy)
    (fields fields' : list (string * Tree Validator))
    (props q q2 : list (string * JsVal)) (k k2 : string) (f : Validator)
    (x : JsVal) (errors : list string) (prefix : string) :
  lookup k fields = Some (Node fields') ->
  lookup k props = None -> in_object_prototype k = false ->
  lookup k2 fields' = Some (Leaf f) -> is_object x = false ->
  checkProposedSettings this PMS (TObj fields) (Data (JObj props))
    (JObj ((k, JObj ((k2, x) :: q2)) :: q)) errors prefix
  = Throw (TypeError_read k2).
Proof.
  intros Hl Hp Hk Hl2 Hx. unfold checkProposedSettings.
  rewrite check_in_literal_Node. cbn [own_props for_in].
  rewrite (lookup_Some_has_key _ _ Hl), Hl. cbn [orb negb].
  unfold check_member at 1. cbn [is_object typeof JsType_eqb].
  rewrite get_object, Hp. unfold inherited_value.
  assert (Ho : object_prototype_function k = None).
  { unfold in_object_prototype in Hk.
    destruct (object_prototype_function k); [discriminate|reflexivity]. }
  assert (Hq : String.eqb k "__proto__" = false).
  { unfold in_object_prototype in Hk. rewrite Ho in Hk. exact Hk. }
  rewrite Ho, Hq. cbn [bind].
  rewrite check_in_literal_Node. cbn [own_props for_in].
  rewrite (lookup_Some_has_key _ _ Hl2), Hl2. cbn [orb negb].
  unfold check_member at 1. rewrite Hx. reflexivity.
Qed.

Lemma missing_section_throws_sample :
  checkProposedSettings sample_validator sample_strategies
    (TObj allowedSettings)
    (Data (JObj [("version", JNum 4); ("telemetry", JBool true)]))
    (JObj [("images", JObj [("showAll", JBool true)])]) [] EmptyString
  = Throw (TypeError_read "showAll").
Proof.
  eapply (@missing_section_throws sample_validator sample_strategies
            allowedSettings); reflexivity.
Defined.

(** X19: what the walk does at a key of the verifier whose proposed value
    has the right shape, when the current settings can be read at this
    key.  Under a nested object literal, an object (also [null] or an
    array) is walked against the nested literal and the current value,
    with the dotted name as prefix; under a function, a value that is no
    object is given to this function, and so is an object when the
    function is [checkWSLIntegrations].  In each case the remaining keys
    are walked with the errors collected so far, and the answer is the
    disjunction of the two answers. *)
Theorem known_key_step (this : SettingsValidator)
    (PMS : PathManagementStrategy) (fields : list (string * Tree Validator))
    (cur : Ref) (q : list (string * JsVal)) (k : string) (v : JsVal)
    (errors : list string) (prefix : string) :
  (forall fields' cur',
     lookup k fields = Some (Node fields') -> is_object v = true ->
     get cur k = Ok cur' ->
     checkProposedSettings this PMS (TObj fields) cur
       (JObj ((k, v) :: q)) errors prefix
     = ('(c1, e1) <- checkProposedSettings this PMS (TObj fields') cur' v
                       errors (fqname_of prefix k) ;;
        '(c2, e2) <- checkProposedSettings this PMS (TObj fields) cur
                       (JObj q) e1 prefix ;;
        Ok (c2 || c1, e2)))
  /\
  (forall f cur',
     lookup k fields = Some (Leaf f) ->
     is_object v = false \/ f = V_checkWSLIntegrations ->
     get cur k = Ok cur' ->
     checkProposedSettings this PMS (TObj fields) cur
       (JObj ((k, v) :: q)) errors prefix
     = ('(c1, e1) <- call_validator this PMS f cur' v errors
                       (fqname_of prefix k) ;;
        '(c2, e2) <- checkProposedSettings this PMS (TObj fields) cur
                       (JObj q) e1 prefix ;;
        Ok (c2 || c1, e2))).
Proof.
  split.
  - intros fields' cur' Hl Ho Hg.
    change ((k, v) :: q) with ([(k, v)] ++ q)%list.
    rewrite check_keys_compose. unfold checkProposedSettings.
    rewrite (check_in_literal_Node this PMS fields cur (JObj [(k, v)])).
    cbn [own_props for_in].
    rewrite (lookup_Some_has_key _ _ Hl), Hl. cbn [orb negb].
    unfold check_member at 1. rewrite Ho, Hg. cbn [bind]. unfold or_changed.
    destruct (check_in_literal this PMS (Node fields') cur' v errors
                (fqname_of prefix k)) as [[c1 e1]|e]; cbn [bind];
      [|reflexivity].
    rewrite orb_false_r. reflexivity.
  - intros f cur' Hl Hv Hg.
    change ((k, v) :: q) with ([(k, v)] ++ q)%list.
    rewrite check_keys_compose. unfold checkProposedSettings.
    rewrite (check_in_literal_Node this PMS fields cur (JObj [(k, v)])).
    cbn [own_props for_in].
    rewrite (lookup_Some_has_key _ _ Hl), Hl. cbn [orb negb].
    unfold check_member at 1.
    assert (E : (if is_object v
                 then if is_checkWSLIntegrations f
                      then cur0 <- get cur k ;;
                           or_changed false
                             (checkWSLIntegrations cur0 v errors
                                (fqname_of prefix k))
                      else Ok (false,
                               push errors
                                 (should_be_simple (fqname_of prefix k) v))
                 else cur0 <- get cur k ;;
                      or_changed false
                        (call_validator this PMS f cur0 v errors
                           (fqname_of prefix k)))
                = or_changed false
                    (call_validator this PMS f cur' v errors
                       (fqname_of prefix k))).
    { rewrite Hg. cbn [bind].
      destruct Hv as [Hv| ->]; [rewrite Hv; reflexivity|].
      destruct (is_object v); reflexivity. }
    cbv zeta. rewrite E. unfold or_changed.
    destruct (call_validator this PMS f cur' v errors (fqname_of prefix k))
      as [[c1 e1]|e]; cbn [bind]; [|reflexivity].
    rewrite orb_false_r. reflexivity.
Qed.

(** ** Updates that change nothing *)

Lemma map_props_id (body : string -> JsVal -> Res JsVal)
    (props : list (string * JsVal)) :
  (forall k x, In (k, x) props -> body k x = Ok x) ->
  map_props body props = Ok props.
Proof.
  induction props as [|[k x] props IH]; intros H; cbn [map_props];
    [reflexivity|].
  rewrite (H k x (or_introl eq_refl)). cbn [bind].
  rewrite IH; [reflexivity|]. intros; apply H; right; assumption.
Qed.

Lemma same_map_eq (m m' : list (string * JsVal)) :
  same_map m m' = true -> m = m'.
Proof.
  revert m'. induction m as [|[k x] m IH]; intros [|[k' x'] m'] H;
    cbn [same_map] in H; try discriminate H; [reflexivity|].
  apply andb_true_iff in H. destruct H as [H Hm].
  apply andb_true_iff in H. destruct H as [Hk Hx].
  apply String.eqb_eq in Hk. subst k'. rewrite (IH _ Hm).
  destruct x, x'; try discriminate Hx.
  - apply Bool.eqb_prop in Hx. subst. reflexivity.
  - apply String.eqb_eq in Hx. subst. reflexivity.
Qed.

Lemma num_le_not_nan (a b : JsNum) :
  num_le a b = true -> is_nan a = false /\ is_nan b = false.
Proof.
  intros H. split.
  - destruct (is_nan a) eqn:E; [|reflexivity].
    rewrite (num_le_nan a b) in H by auto. discriminate H.
  - destruct (is_nan b) eqn:E; [|reflexivity].
    rewrite (num_le_nan a b) in H by auto. discriminate H.
Qed.

(** A number within the bounds is neither below the first nor above the
    second. *)
Lemma within_range_passes (min max n : JsNum) :
  within_range min max (JNum n) = true ->
  num_lt n min || num_gt n max = false.
Proof.
  cbn [within_range]. intros H. apply andb_true_iff in H.
  destruct H as [H1 H2].
  destruct (@num_le_not_nan _ _ H1) as [Hmin Hn].
  destruct (@num_le_not_nan _ _ H2) as [_ Hmax].
  change (num_gt n max) with (num_lt max n).
  rewrite (num_lt_not_le n min Hn Hmin), (num_lt_not_le max n Hmax Hn).
  rewrite H1, H2. reflexivity.
Qed.

(** The walk at a key that holds a validator, the proposed value being an
    unchanged one: no error, no change. *)
Lemma unchanged_leaf_passes (this : SettingsValidator)
    (PMS : PathManagementStrategy)
    (recurse : Ref -> JsVal -> list string -> string -> Res Checked)
    (f : Validator) (cprops : list (string * JsVal)) (c x : JsVal)
    (prefix k : string) (errors : list string) :
  lookup k cprops = Some c ->
  unchanged_leaf this PMS f c x = true ->
  check_member this PMS recurse (MFunc f) (Data (JObj cprops)) prefix k x
    (false, errors)
  = Ok (false, errors).
Proof.
  intros Hl H. unfold check_member. rewrite get_object, Hl. cbn [bind].
  unfold or_changed.
  destruct f; cbn [unchanged_leaf is_checkWSLIntegrations call_validator]
    in *.
  - apply andb_true_iff in H. destruct H as [Ho He].
    apply negb_true_iff in Ho. rewrite Ho.
    unfold checkUnchanged, strict_neq. rewrite He. reflexivity.
  - apply andb_true_iff in H. destruct H as [H He].
    destruct x; try discriminate H.
    apply andb_true_iff in H. destruct H as [Hi _].
    cbn [is_object typeof JsType_eqb]. unfold checkKubernetesVersion.
    rewrite Hi. cbn [negb bind]. unfold strict_neq. rewrite He. reflexivity.
  - apply andb_true_iff in H. destruct H as [H He].
    destruct x; try discriminate H.
    cbn [is_object typeof JsType_eqb]. unfold checkNumber.
    rewrite (@within_range_passes _ _ _ H). cbn [bind].
    unfold strict_neq. rewrite He. reflexivity.
  - apply andb_true_iff in H. destruct H as [H He].
    destruct x; try discriminate H.
    cbn [is_object typeof JsType_eqb]. unfold checkContainerEngine.
    rewrite H. cbn [negb bind]. unfold strict_neq. rewrite He. reflexivity.
  - apply andb_true_iff in H. destruct H as [H He].
    destruct x; try discriminate H.
    cbn [is_object typeof JsType_eqb]. unfold checkBoolean.
    cbn [typeof JsType_eqb negb bind]. unfold strict_neq. rewrite He.
    reflexivity.
  - destruct c as [| | | | | |m]; try discriminate H.
    destruct x as [| | | | | |m']; try discriminate H.
    apply andb_true_iff in H. destruct H as [Hm Hp].
    apply same_map_eq in Hm. subst m'.
    cbn [is_object typeof JsType_eqb].
    rewrite (@checkWSLIntegrations_identical m errors (fqname_of prefix k) Hp).
    reflexivity.
  - apply andb_true_iff in H. destruct H as [H He].
    destruct x; try discriminate H.
    cbn [is_object typeof JsType_eqb]. unfold checkString.
    cbn [typeof JsType_eqb negb bind]. unfold strict_neq. rewrite He.
    reflexivity.
  - apply andb_true_iff in H. destruct H as [H He].
    apply andb_true_iff in H. destruct H as [Hi Hn].
    destruct x; try discriminate Hi.
    cbn [is_object typeof JsType_eqb]. unfold checkPathManagementStrategy.
    apply negb_true_iff in Hn. rewrite Hi, Hn. cbn [negb bind].
    unfold strict_neq. rewrite He. reflexivity.
Qed.

(** A canonicalizer leaves alone an unchanged value of its setting. *)
Lemma compatible_fixed (this : SettingsValidator)
    (PMS : PathManagementStrategy) (c : Canonicalizer) (f : Validator)
    (cur x : JsVal) :
  compatible c f = true -> unchanged_leaf this PMS f cur x = true ->
  call_canonicalizer c x = Ok None.
Proof.
  intros Hc H. destruct c, f; try discriminate Hc;
    cbn [unchanged_leaf call_canonicalizer] in *;
    apply andb_true_iff in H; destruct H as [H _];
    destruct x; try discriminate H.
  - apply andb_true_iff in H. destruct H as [_ H].
    apply negb_true_iff in H. unfold is_synonym in H.
    unfold canonicalizeKubernetesVersion. cbn [to_string bind].
    destruct (ptn_exec s) as [[[m1 m2] m3]|]; [|reflexivity].
    rewrite H. reflexivity.
  - cbn [includes existsb] in H. unfold canonicalizeContainerEngine.
    cbn [strict_eq].
    destruct (String.eqb s "docker") eqn:E; [|reflexivity].
    apply String.eqb_eq in E. subst s. discriminate H.
  - reflexivity.
Qed.

(** The canonicalizing walk over an unchanged proposal assigns nothing. *)
Lemma canonicalize_noop (this : SettingsValidator)
    (PMS : PathManagementStrategy) (syn : Tree Canonicalizer) :
  forall ver cur new prefix,
    agrees syn ver = true -> valid_noop this PMS ver cur new = true ->
    canonicalize_in_literal syn new prefix = Ok new.
Proof.
  induction syn as [c|sfields IH] using Tree_ind_nested;
    intros ver cur new prefix Ha Hv; [reflexivity|].
  destruct ver as [f|vfields]; [discriminate Ha|].
  cbn [agrees] in Ha. cbn [valid_noop] in Hv. cbv zeta in Hv.
  destruct cur as [| | | | | |cprops]; try discriminate Hv.
  destruct new as [| | | | | |props]; try discriminate Hv.
  rewrite forallb_forall in Ha, Hv. rewrite Forall_forall in IH.
  cbn [canonicalize_in_literal own_props]. cbv zeta.
  rewrite map_props_id; [reflexivity|].
  intros k x Hin. specialize (Hv (k, x) Hin). cbv beta iota in Hv.
  apply andb_true_iff in Hv. destruct Hv as [Hp Hv].
  apply negb_true_iff in Hp. rewrite Hp, orb_false_r.
  destruct (has_key k sfields) eqn:Hk; [|reflexivity].
  rewrite lookup_members.
  destruct (lookup k sfields) as [syn'|] eqn:Hs;
    [|apply lookup_None_has_key in Hs; congruence].
  apply lookup_In in Hs. pose proof (Ha _ Hs) as Ha'. cbv beta iota in Ha'.
  rewrite lookup_map_values in Hv.
  destruct (lookup k vfields) as [ver'|]; [|discriminate Ha'].
  cbn [option_map] in Hv.
  destruct (lookup k cprops) as [c0|]; [|discriminate Hv].
  destruct syn' as [c|sfields'].
  - destruct ver' as [f|]; [|discriminate Ha'].
    unfold canonicalize_member.
    rewrite (@compatible_fixed this PMS c f c0 x Ha' Hv). reflexivity.
  - unfold canonicalize_member.
    apply (IH _ Hs ver' c0 x (fqname_of prefix k) Ha' Hv).
Qed.

(** The validating walk over an unchanged proposal finds no change and
    no error. *)
Lemma check_noop (this : SettingsValidator) (PMS : PathManagementStrategy)
    (ver : Tree Validator) :
  forall cur new errors prefix,
    valid_noop this PMS ver cur new = true ->
    check_in_literal this PMS ver (Data cur) new errors prefix
    = Ok (false, errors).
Proof.
  induction ver as [f|fields IH] using Tree_ind_nested;
    intros cur new errors prefix Hv; [reflexivity|].
  cbn [valid_noop] in Hv. cbv zeta in Hv.
  destruct cur as [| | | | | |cprops]; try discriminate Hv.
  destruct new as [| | | | | |props]; try discriminate Hv.
  rewrite forallb_forall in Hv. rewrite Forall_forall in IH.
  rewrite check_in_literal_Node. cbn [own_props]. apply for_in_skip.
  intros k x Hin. specialize (Hv (k, x) Hin). cbv beta iota in Hv.
  apply andb_true_iff in Hv. destruct Hv as [Hp Hv].
  apply negb_true_iff in Hp. rewrite Hp, orb_false_r.
  rewrite lookup_map_values in Hv.
  destruct (lookup k fields) as [t'|] eqn:Hl;
    [|rewrite (lookup_None_has_key _ _ Hl); reflexivity].
  rewrite (lookup_Some_has_key _ _ Hl). cbn [negb option_map] in *.
  destruct (lookup k cprops) as [c0|] eqn:Hc; [|discriminate Hv].
  destruct t' as [f|fields'].
  - apply unchanged_leaf_passes with (c := c0); assumption.
  - apply lookup_In in Hl.
    pose proof (IH _ Hl c0 x errors (fqname_of prefix k) Hv) as Hw.
    cbn [snd] in Hw. cbn [valid_noop] in Hv. cbv zeta in Hv.
    destruct c0 as [| | | | | |cprops']; try discriminate Hv.
    destruct x as [| | | | | |props']; try discriminate Hv.
    unfold check_member. cbn [is_object typeof JsType_eqb].
    rewrite get_object, Hc. cbn [bind]. rewrite Hw. reflexivity.
Qed.

(** C1 (the claim as stated, at two updates that repeat the current
    value): the current version, proposed again while [k8sVersions] is
    still the empty list of the constructor, is a string equal to the
    current one, yet it is reported; so is the current strategy when it
    is [NotSet].  The answer is [false] with an error list that is not
    empty. *)
Theorem noop_update_reported :
  (let current := JObj [("kubernetes", JObj [("version", JStr "1.2.3")])] in
   validateSettings {| k8sVersions := [] |} sample_strategies current current
   = Ok (false, ["Kubernetes version " ++ String dquote "1.2.3"
                 ++ String dquote " not found."]))
  /\
  (let current := JObj [("pathManagementStrategy", JStr "notset")] in
   validateSettings sample_validator sample_strategies current current
   = Ok (false, ["pathManagementStrategy: " ++ String dquote "notset"
                 ++ String dquote " is not a valid strategy"])).
Proof. split; reflexivity. Qed.

(** C1: [validateSettings] returns [(ok, errors)] exactly when the
    canonicalization returns and the walk over its result returns some
    [changed] with these [errors], [ok] being true if and only if
    [changed] is true and [errors] is empty.  An update that changes
    nothing and holds only values that the validators let through (a
    version of [k8sVersions] in canonical form, a strategy other than
    [NotSet], a number within its bounds, and so on) yields [false] with
    an empty error list. *)
Theorem validateSettings_ok_iff (this : SettingsValidator)
    (PMS : PathManagementStrategy) (currentSettings newSettings : JsVal) :
  (forall ok errors,
     validateSettings this PMS currentSettings newSettings = Ok (ok, errors)
     <->
     exists newSettings' changed,
       canonicalizeSynonyms newSettings = Ok newSettings'
       /\ checkProposedSettings this PMS (TObj allowedSettings)
            (Data currentSettings) newSettings' [] EmptyString
          = Ok (changed, errors)
       /\ (ok = true <-> changed = true /\ errors = []))
  /\
  (valid_noop this PMS (Node allowedSettings) currentSettings newSettings
   = true ->
   validateSettings this PMS currentSettings newSettings = Ok (false, [])).
Proof.
  split.
  - intros ok errors. unfold validateSettings. split.
    + intros H.
      destruct (canonicalizeSynonyms newSettings) as [n'|] eqn:Ec;
        cbn [bind] in H; [|discriminate].
      destruct (checkProposedSettings this PMS (TObj allowedSettings)
                  (Data currentSettings) n' [] EmptyString)
        as [[changed errs]|] eqn:Ew; cbn [bind] in H; [|discriminate].
      inversion H; subst. exists n', changed. repeat split; auto.
      * apply andb_true_iff in H0. tauto.
      * apply andb_true_iff in H0. apply length_eqb_0. tauto.
      * intros [-> ->]. reflexivity.
    + intros (n' & changed & Ec & Ew & Hok).
      rewrite Ec. cbn [bind]. rewrite Ew. cbn [bind]. f_equal. f_equal.
      destruct ok.
      * destruct Hok as [Hok _]. destruct (Hok eq_refl) as [-> ->]. reflexivity.
      * destruct changed; [|reflexivity]. simpl.
        destruct errors; [|reflexivity].
        destruct Hok as [_ Hok]. symmetry. apply Hok. auto.
  - intros Hv. unfold validateSettings, canonicalizeSynonyms,
      canonicalizeSettings, checkProposedSettings.
    rewrite (@canonicalize_noop this PMS (Node synonymsTable)
               (Node allowedSettings) currentSettings newSettings
               EmptyString eq_refl Hv).
    cbn [bind]. rewrite (@check_noop this PMS (Node allowedSettings) currentSettings
               newSettings [] EmptyString Hv).
    reflexivity.
Qed.

(** An update that repeats current values, nested ones and a fraction
    among them, next to a key that the verifier does not know. *)
Lemma validateSettings_noop_sample :
  validateSettings sample_validator sample_strategies
    (JObj [("kubernetes",
            JObj [("version", JStr "1.2.3"); ("memoryInGB", JNum 2.5);
                  ("WSLIntegrations", JObj [("Ubuntu", JBool true)]);
                  ("options", JObj [("traefik", JBool true)])]);
           ("pathManagementStrategy", JStr "rcfiles")])
    (JObj [("pathManagementStrategy", JStr "rcfiles");
           ("extensions", JObj [("toString", JNull)]);
           ("kubernetes",
            JObj [("options", JObj [("traefik", JBool true)]);
                  ("WSLIntegrations", JObj [("Ubuntu", JBool true)]);
                  ("memoryInGB", JNum 2.5);
                  ("version", JStr "1.2.3")])])
  = Ok (false, []).
Proof.
  apply (proj2 (validateSettings_ok_iff sample_validator sample_strategies
                  _ _)).
  reflexivity.
Defined.

(** Two values of the wrong shape, with the texts that the messages hold
    for them: a number in exponent form and an object with a fraction. *)
Lemma wrong_shape_reported_sample :
  checkProposedSettings sample_validator sample_strategies
    (TObj allowedSettings) (Data sample_settings)
    (JObj [("kubernetes", JNum 1e21);
           ("telemetry", JObj [("a", JNum 0.5)])]) [] EmptyString
  = Ok (false,
        ["Setting kubernetes should wrap an inner object, but got <1e+21>.";
         "Setting telemetry should be a simple value, but got <{"
         ++ String dquote ("a" ++ String dquote ":0.5}>.")]).
Proof.
  destruct (proj1 (@wrong_shape_reported sample_validator sample_strategies
                     allowedSettings (Data sample_settings)
                     [("telemetry", JObj [("a", JNum 0.5)])]
                     "kubernetes" (JNum 1e21) [] EmptyString)
              _ eq_refl eq_refl) as (s & Hs & Hw).
  rewrite Hw.
  rewrite (proj2 (@wrong_shape_reported sample_validator sample_strategies
                    allowedSettings (Data sample_settings) []
                    "telemetry" (JObj [("a", JNum 0.5)]) _ EmptyString)
             V_checkBoolean eq_refl eq_refl eq_refl).
  vm_compute in Hs. inversion Hs. reflexivity.
Defined.

(** ** Texts of numbers *)

(** Integers of up to 21 digits are written out, fractions with a
    decimal point, everything else in exponent form; the digits are the
    fewest that read back as the same double. *)
Lemma num_to_string_samples :
  map num_to_string
    [6443; 80.5; -0.5; 0x1p63; 1e21; 0x1p-20; 0x1p-30; 0x1p-1074; -0; nan;
     neg_infinity]%float
  = ["6443"; "80.5"; "-0.5"; "9223372036854776000"; "1e+21";
     "9.5367431640625e-7"; "9.313225746154785e-10"; "5e-324"; "0"; "NaN";
     "-Infinity"].
Proof. vm_compute. reflexivity. Qed.
(* END *)
